(** * VideoSummarizer: the timestamp detector and the summarization pipeline

    A shallow embedding of [src/timestamps.py], [src/main.py] and
    [src/summarize.py].

    Modelling conventions.
    - A Python [str] is a [string]; a character is one [ascii] code point.
      The character classes ([str.isspace], the regular-expression classes
      [\w] and [\s], [str.upper]) are Python's on the ASCII range.  A
      letter is one of a to z or A to Z: [is_lower], [is_upper],
      [upper_char] and [lower_char] know no other, so the statements below
      that speak of letters speak of these, and [ascii_text] marks the
      statements that hold of texts of ASCII characters only.
    - A Python [float] is finite, and is the rational number it denotes
      ([Q]).  On non-negative doubles below 2^53, [x // 60] and [x % 60]
      are exact, so the rational operations below compute what Python
      computes.
    - A Python exception is a value of [exc]; code that may raise returns a
      [result].
    - The pretrained models and the audio writer are black boxes: they are
      variables of the sections that use them.
    - [print] is taken to succeed, and [os.remove] to raise only when the
      file is missing.  Writing a file succeeds in the first model of each
      script; the second lets the file system raise. *)

From Stdlib Require Import ZArith QArith Qround Lia Lqa Ascii.
From stdpp Require Import base list strings pretty gmap.

Open Scope Z_scope.

(** ** Exceptions *)

Inductive exc : Type :=
| IndexError
| FileNotFoundError (path : string)
| ExternalError (msg : string).

Inductive result (A : Type) : Type :=
| Ok (a : A)
| Raise (e : exc).
Arguments Ok {A} a.
Arguments Raise {A} e.

#[global] Instance result_ret : MRet result := @Ok.
#[global] Instance result_bind : MBind result := fun A B f r =>
  match r with
  | Ok a => f a
  | Raise e => Raise e
  end.

(** [l[i]] for a non-negative index. *)
Definition getitem {A : Type} (l : list A) (i : nat) : result A :=
  match l !! i with
  | Some a => Ok a
  | None => Raise IndexError
  end.

(** ** Python strings *)

Module PyStr.

(** [str.isspace] on one ASCII character: TAB..CR, FS..US and the space. *)
Definition isspace (c : ascii) : bool :=
  let n := N_of_ascii c in
  ((9 <=? n) && (n <=? 13) || (28 <=? n) && (n <=? 32))%N.

Fixpoint lstrip (s : string) : string :=
  match s with
  | EmptyString => EmptyString
  | String c s' => if isspace c then lstrip s' else s
  end.

Fixpoint rstrip (s : string) : string :=
  match s with
  | EmptyString => EmptyString
  | String c s' =>
      match rstrip s' with
      | EmptyString => if isspace c then EmptyString else String c EmptyString
      | r => String c r
      end
  end.

(** [s.strip()] *)
Definition strip (s : string) : string := rstrip (lstrip s).

(** [s.split(sep)] for a one-character separator: the pieces between the
    occurrences of [sep], never an empty list. *)
Fixpoint split (sep : ascii) (s : string) : list string :=
  match s with
  | EmptyString => [EmptyString]
  | String c s' =>
      if Ascii.eqb c sep then EmptyString :: split sep s'
      else match split sep s' with
           | [] => [String c EmptyString]
           | p :: ps => String c p :: ps
           end
  end.

(** [s[:n]] *)
Fixpoint slice_to (n : nat) (s : string) : string :=
  match n, s with
  | O, _ => EmptyString
  | S _, EmptyString => EmptyString
  | S n', String c s' => String c (slice_to n' s')
  end.

(** [s[n:]] *)
Fixpoint slice_from (n : nat) (s : string) : string :=
  match n, s with
  | O, _ => s
  | S _, EmptyString => EmptyString
  | S n', String _ s' => slice_from n' s'
  end.

(** [s.split()]: the maximal runs of non-whitespace characters.  [cur] is
    the run being read, in reverse. *)
Fixpoint split_ws_go (cur : list ascii) (s : string) : list string :=
  match s with
  | EmptyString =>
      match cur with
      | [] => []
      | _ => [String.string_of_list_ascii (rev cur)]
      end
  | String c s' =>
      if isspace c then
        match cur with
        | [] => split_ws_go [] s'
        | _ => String.string_of_list_ascii (rev cur) :: split_ws_go [] s'
        end
      else split_ws_go (c :: cur) s'
  end.

Definition split_ws (s : string) : list string := split_ws_go [] s.

(** [sep.join(l)] *)
Fixpoint join (sep : string) (l : list string) : string :=
  match l with
  | [] => EmptyString
  | [x] => x
  | x :: rest => x +:+ sep +:+ join sep rest
  end.

(** The letters a to z, the letters A to Z and the digits 0 to 9: on an
    ASCII character these are [str.islower], [str.isupper] and
    [str.isdigit]. *)
Definition is_lower (c : ascii) : bool :=
  let n := N_of_ascii c in ((97 <=? n) && (n <=? 122))%N.

Definition is_upper (c : ascii) : bool :=
  let n := N_of_ascii c in ((65 <=? n) && (n <=? 90))%N.

Definition is_digit (c : ascii) : bool :=
  let n := N_of_ascii c in ((48 <=? n) && (n <=? 57))%N.

(** [c.upper()] and [c.lower()] of an ASCII character: a to z go to A to
    Z and back, and nothing else changes. *)
Definition upper_char (c : ascii) : ascii :=
  if is_lower c then ascii_of_N (N_of_ascii c - 32) else c.

Definition lower_char (c : ascii) : ascii :=
  if is_upper c then ascii_of_N (N_of_ascii c + 32) else c.

Fixpoint lower (s : string) : string :=
  match s with
  | EmptyString => EmptyString
  | String c s' => String (lower_char c) (lower s')
  end.

(** [s.capitalize()] *)
Definition capitalize (s : string) : string :=
  match s with
  | EmptyString => EmptyString
  | String c s' => String (upper_char c) (lower s')
  end.

(** [format(n, "02d")]: decimal, zero-padded after the sign to a minimum
    width of two. *)
Fixpoint zeros (n : nat) : string :=
  match n with
  | O => EmptyString
  | S n' => String "0"%char (zeros n')
  end.

Definition format_02d (n : Z) : string :=
  if n <? 0 then
    let d := pretty (- n) in "-" +:+ zeros (1 - String.length d) +:+ d
  else
    let d := pretty n in zeros (2 - String.length d) +:+ d.

(** Strings of whitespace only. *)
Fixpoint all_space (s : string) : Prop :=
  match s with
  | EmptyString => True
  | String c s' => isspace c = true /\ all_space s'
  end.

(** The two-digit decimal numeral of [n], for [0 <= n < 100]. *)
Definition digit (d : Z) : ascii := ascii_of_N (48 + Z.to_N d).

Definition two_digits (n : Z) : string :=
  String (digit (n / 10)) (String (digit (n mod 10)) EmptyString).

(** Strings of the form MM:SS: two digits, a colon, two digits. *)
Definition is_MM_SS (s : string) : bool :=
  match s with
  | String m1 (String m2 (String c (String s1 (String s2 EmptyString)))) =>
      is_digit m1 && is_digit m2 && Ascii.eqb c ":"%char
      && is_digit s1 && is_digit s2
  | _ => false
  end.

End PyStr.

(** ** Python floats, as the rationals they denote *)

Module PyFloat.

(** [x // y] for [y > 0] *)
Definition floordiv (x y : Q) : Q := inject_Z (Qfloor (x / y)).

(** [x % y] for [y > 0]: the remainder has the sign of the divisor. *)
Definition mod_ (x y : Q) : Q := x - y * inject_Z (Qfloor (x / y)).

(** [int(x)]: truncation towards zero. *)
Definition int (x : Q) : Z := Z.quot (Qnum x) (Zpos (Qden x)).

End PyFloat.


(** ** [timestamps.py]: the segment-boundary detector *)

Module Timestamps.

(** One entry of [result["segments"]]: the fields the script reads. *)
Record Segment : Type := { start : Q; text : string }.

(** One entry of [timestamps]. *)
Record Marker : Type := { time : string; label : string }.

(** [SIMILARITY_THRESHOLD = 0.65]: the double nearest to 0.65, which is
    5854679515581645 / 2^53. *)
Definition SIMILARITY_THRESHOLD : Q := 5854679515581645 # 9007199254740992.

(** [f"{int(ts // 60):02d}:{int(ts % 60):02d}"] *)
Definition fmt_time (ts : Q) : string :=
  PyStr.format_02d (PyFloat.int (PyFloat.floordiv ts 60)) +:+ ":" +:+
  PyStr.format_02d (PyFloat.int (PyFloat.mod_ ts 60)).

(** [t.strip().split('.')[0][:60]] *)
Definition label_prefix (t : string) : result string :=
  first ← getitem (PyStr.split "."%char (PyStr.strip t)) 0;
  mret (PyStr.slice_to 60 first).

(** The dictionary appended for a segment (lines 32-35 and 41-44), with
    the first piece of the split taken by [hd]. *)
Definition marker_of (seg : Segment) : Marker :=
  {| time := fmt_time (start seg);
     label := PyStr.slice_to 60
                (List.hd "" (PyStr.split "."%char (PyStr.strip (text seg))))
              +:+ "..." |}.

(** The label in the specification's words: the text cut at the first
    full stop and to 60 characters, then the ellipsis. *)
Definition spec_label (t : string) : string :=
  PyStr.slice_to 60 (List.hd "" (PyStr.split "."%char t)) +:+ "...".

(** The example of the specification: three segments, similarities 0.9 and
    0.3.  An embedding is named by the index of its segment. *)
Definition example_segments : list Segment :=
  [ {| start := 0; text := "Intro to loops." |};
    {| start := 12; text := "Still on loops." |};
    {| start := 40; text := "Now let's talk about files." |} ].

Definition example_sim (a b : nat) : Q :=
  match a, b with
  | 1%nat, 0%nat => 9 # 10
  | 2%nat, 1%nat => 3 # 10
  | _, _ => 1
  end.

Definition example_markers : list Marker :=
  [ {| time := "00:00"; label := "Intro to loops..." |};
    {| time := "00:40"; label := "Now let's talk about files..." |} ].

Section detector.

Context {Embedding : Type}.

(** [util.cos_sim(a, b).item()] *)
Variable cos_sim : Embedding -> Embedding -> Q.

Variable segments : list Segment.
Variable embeddings : list Embedding.

(** The body of the [for] loop at index [i]; [timestamps] is the list built
    so far, and the result is the list after the iteration. *)
Definition body (i : nat) (timestamps : list Marker) : result (list Marker) :=
  if Nat.eqb i 0 then
    seg ← getitem segments i;
    lab ← label_prefix (text seg);
    mret (timestamps ++
          [{| time := fmt_time (start seg); label := lab +:+ "..." |}])
  else
    e_i ← getitem embeddings i;
    e_prev ← getitem embeddings (i - 1)%nat;
    let sim := cos_sim e_i e_prev in
    if Qlt_le_dec sim SIMILARITY_THRESHOLD then
      seg ← getitem segments i;
      let ts := start seg in
      lab ← label_prefix (text seg);
      mret (timestamps ++ [{| time := fmt_time ts; label := lab +:+ "..." |}])
    else mret timestamps.

(** [for i in range(...)] over the indices [idx]. *)
Fixpoint for_range (idx : list nat) (timestamps : list Marker)
  : result (list Marker) :=
  match idx with
  | [] => mret timestamps
  | i :: rest => timestamps' ← body i timestamps; for_range rest timestamps'
  end.

(** Lines 29-44: [timestamps = []] and the loop over
    [range(len(embeddings))]. *)
Definition detect : result (list Marker) :=
  for_range (seq 0 (length embeddings)) [].

(** The same loop as a transition system.  A state is the loop index and
    the list built so far. *)
Inductive step : nat * list Marker -> nat * list Marker -> Prop :=
| step_first timestamps seg lab :
    segments !! 0%nat = Some seg ->
    label_prefix (text seg) = Ok lab ->
    step (0%nat, timestamps)
         (1%nat, timestamps ++
            [{| time := fmt_time (start seg); label := lab +:+ "..." |}])
| step_emit i timestamps e_i e_prev seg lab :
    i <> 0%nat ->
    embeddings !! i = Some e_i ->
    embeddings !! (i - 1)%nat = Some e_prev ->
    (cos_sim e_i e_prev < SIMILARITY_THRESHOLD)%Q ->
    segments !! i = Some seg ->
    label_prefix (text seg) = Ok lab ->
    step (i, timestamps)
         (S i, timestamps ++
            [{| time := fmt_time (start seg); label := lab +:+ "..." |}])
| step_skip i timestamps e_i e_prev :
    i <> 0%nat ->
    embeddings !! i = Some e_i ->
    embeddings !! (i - 1)%nat = Some e_prev ->
    ~ (cos_sim e_i e_prev < SIMILARITY_THRESHOLD)%Q ->
    step (i, timestamps) (S i, timestamps).

(** A run from a state to the list the script ends with. *)
Inductive runs : nat * list Marker -> list Marker -> Prop :=
| runs_done timestamps :
    runs (length embeddings, timestamps) timestamps
| runs_step s s' out :
    (fst s < length embeddings)%nat ->
    step s s' -> runs s' out -> runs s out.

(** The specification's reading of the algorithm: index 0 is a boundary,
    and an index [i >= 1] is one when the similarity of [embeddings[i]] and
    [embeddings[i-1]] is below the threshold. *)
Definition spec_is_boundary (i : nat) : bool :=
  match i with
  | O => true
  | S j =>
      match embeddings !! i, embeddings !! j with
      | Some e_i, Some e_prev =>
          if Qlt_le_dec (cos_sim e_i e_prev) SIMILARITY_THRESHOLD
          then true else false
      | _, _ => false
      end
  end.

Definition spec_boundaries : list nat :=
  List.filter spec_is_boundary (seq 0 (length embeddings)).

(** The markers of the segments at the indices [idx], in order. *)
Definition markers_at (idx : list nat) : list Marker :=
  omap (fun i => marker_of <$> segments !! i) idx.

(** What the iteration at index [i] appends, in the specification's
    reading. *)
Definition emitted (i : nat) : list Marker :=
  if spec_is_boundary i then
    match segments !! i with
    | Some seg => [marker_of seg]
    | None => []
    end
  else [].

End detector.

End Timestamps.

(** ** The fragment of Python's [re] that [main.py] uses *)

Module Re.

Inductive regex : Type :=
| Eps                               (* the empty pattern *)
| Chr (c : ascii)                   (* a literal character *)
| OneOf (cs : list ascii)           (* [...] *)
| Word                              (* \w *)
| Space                             (* \s *)
| Boundary                          (* \b *)
| Behind (cs : list ascii)          (* (?<=[...]) *)
| Seq (r1 r2 : regex)               (* r1 r2 *)
| Alt (r1 r2 : regex)               (* r1|r2 *)
| Plus (r : regex)                  (* r+, greedy *)
| Group (n : nat) (r : regex)       (* (r), the n-th capturing group *)
| Backref (n : nat).                (* \n *)

(** A literal word, character by character. *)
Fixpoint lit (s : string) : regex :=
  match s with
  | EmptyString => Eps
  | String c EmptyString => Chr c
  | String c s' => Seq (Chr c) (lit s')
  end.

(** The concatenation of the pieces of a pattern. *)
Fixpoint cat (rs : list regex) : regex :=
  match rs with
  | [] => Eps
  | [r] => r
  | r :: rs' => Seq r (cat rs')
  end.

(** A replacement template: literal text and group references [\n]. *)
Inductive piece : Type :=
| Text (s : string)
| Ref (n : nat).

(** [\w] on the ASCII range: letters, digits and the underscore. *)
Definition is_word (c : ascii) : bool :=
  PyStr.is_lower c || PyStr.is_upper c || PyStr.is_digit c
  || Ascii.eqb c "_"%char.

(** Equality of characters, up to case under [re.IGNORECASE]. *)
Definition char_eq (ignorecase : bool) (a b : ascii) : bool :=
  if ignorecase then Ascii.eqb (PyStr.lower_char a) (PyStr.lower_char b)
  else Ascii.eqb a b.

Definition mem (ignorecase : bool) (c : ascii) (cs : list ascii) : bool :=
  existsb (char_eq ignorecase c) cs.

(** The matcher's position in the text: the character before it, what is
    left to read, and the groups captured so far (latest first). *)
Record mstate : Type :=
  { prev : option ascii; rest : string; caps : list (nat * string) }.

Definition at_boundary (st : mstate) : bool :=
  let before := match prev st with Some c => is_word c | None => false end in
  let after := match rest st with String c _ => is_word c | _ => false end in
  xorb before after.

(** Read one character that satisfies [p]. *)
Definition read (p : ascii -> bool) (st : mstate) : option mstate :=
  match rest st with
  | String c s' =>
      if p c then Some {| prev := Some c; rest := s'; caps := caps st |}
      else None
  | EmptyString => None
  end.

(** Read the text [s], up to case under [ignorecase]. *)
Fixpoint read_string (ignorecase : bool) (s : string) (st : mstate)
  : option mstate :=
  match s with
  | EmptyString => Some st
  | String c s' =>
      match read (char_eq ignorecase c) st with
      | Some st' => read_string ignorecase s' st'
      | None => None
      end
  end.

Fixpoint group (n : nat) (cs : list (nat * string)) : option string :=
  match cs with
  | [] => None
  | (k, s) :: cs' => if Nat.eqb k n then Some s else group n cs'
  end.

(** What was read between a position with [before] left to read and a later
    one with [after] left. *)
Definition consumed (before after : string) : string :=
  PyStr.slice_to (String.length before - String.length after) before.

Definition orelse {A : Type} (x y : option A) : option A :=
  match x with
  | Some _ => x
  | None => y
  end.

(** A matcher that only looks at what its continuation returns. *)
Definition respects
    (one : mstate -> (mstate -> option mstate) -> option mstate) : Prop :=
  forall st k1 k2, (forall st', k1 st' = k2 st') -> one st k1 = one st k2.

(** A matcher whose successful result is what its continuation returned
    at a position not before the one it started from, and after it when
    [strict]. *)
Definition hands_over (strict : bool)
    (one : mstate -> (mstate -> option mstate) -> option mstate) : Prop :=
  forall st k out,
    one st k = Some out ->
    exists st1,
      k st1 = Some out /\
      (String.length (rest st1) <= String.length (rest st))%nat /\
      (strict = true ->
       (String.length (rest st1) < String.length (rest st))%nat).

(** Greedy repetition of [one], at least once; an iteration that reads
    nothing ends it.  [fuel] exceeds the number of characters left. *)
Fixpoint repeat_plus
    (one : mstate -> (mstate -> option mstate) -> option mstate)
    (fuel : nat) (st : mstate) (k : mstate -> option mstate)
  : option mstate :=
  match fuel with
  | O => None
  | S fuel' =>
      one st (fun st1 =>
        if (String.length (rest st1) <? String.length (rest st))%nat
        then orelse (repeat_plus one fuel' st1 k) (k st1)
        else k st1)
  end.

(** Backtracking match of [r] at [st]; [k] is the rest of the pattern.  The
    first alternative that lets the rest of the pattern match wins, as in
    Python's engine. *)
Fixpoint run (ignorecase : bool) (r : regex) (st : mstate)
    (k : mstate -> option mstate) {struct r} : option mstate :=
  match r with
  | Eps => k st
  | Chr c =>
      match read (char_eq ignorecase c) st with
      | Some st' => k st'
      | None => None
      end
  | OneOf cs =>
      match read (fun x => mem ignorecase x cs) st with
      | Some st' => k st'
      | None => None
      end
  | Word => match read is_word st with Some st' => k st' | None => None end
  | Space =>
      match read PyStr.isspace st with Some st' => k st' | None => None end
  | Boundary => if at_boundary st then k st else None
  | Behind cs =>
      match prev st with
      | Some c => if mem ignorecase c cs then k st else None
      | None => None
      end
  | Seq r1 r2 => run ignorecase r1 st (fun st1 => run ignorecase r2 st1 k)
  | Alt r1 r2 => orelse (run ignorecase r1 st k) (run ignorecase r2 st k)
  | Plus r1 =>
      repeat_plus (run ignorecase r1) (S (String.length (rest st))) st k
  | Group n r1 =>
      run ignorecase r1 st (fun st1 =>
        k {| prev := prev st1; rest := rest st1;
             caps := (n, consumed (rest st) (rest st1)) :: caps st1 |})
  | Backref n =>
      match group n (caps st) with
      | Some s =>
          match read_string ignorecase s st with
          | Some st' => k st'
          | None => None
          end
      | None => None
      end
  end.

(** Patterns that read at least one character whenever they match. *)
Fixpoint nonempty (r : regex) : bool :=
  match r with
  | Chr _ | OneOf _ | Word | Space => true
  | Eps | Boundary | Behind _ | Backref _ => false
  | Seq r1 r2 => nonempty r1 || nonempty r2
  | Alt r1 r2 => nonempty r1 && nonempty r2
  | Plus r1 | Group _ r1 => nonempty r1
  end.

(** [pattern.match] at one position of the text. *)
Definition match_at (ignorecase : bool) (r : regex) (before : option ascii)
    (s : string) : option mstate :=
  run ignorecase r {| prev := before; rest := s; caps := [] |} Some.

(** [match.expand(template)]; a group that took no part expands to the
    empty string. *)
Fixpoint expand (template : list piece) (cs : list (nat * string)) : string :=
  match template with
  | [] => EmptyString
  | Text s :: t => s +:+ expand t cs
  | Ref n :: t => default EmptyString (group n cs) +:+ expand t cs
  end.

(** [re.sub]: the leftmost matches, left to right, none overlapping.  Every
    pattern of this program reads at least one character ([nonempty]); a
    position where a pattern matches the empty string is passed over like
    one where it does not match.  [fuel] exceeds the length of [s]. *)
Fixpoint sub_from (ignorecase : bool) (r : regex) (template : list piece)
    (fuel : nat) (before : option ascii) (s : string) : string :=
  match fuel with
  | O => s
  | S fuel' =>
      let skip :=
        match s with
        | String c s' =>
            String c (sub_from ignorecase r template fuel' (Some c) s')
        | EmptyString => EmptyString
        end in
      match match_at ignorecase r before s with
      | Some st =>
          if (String.length (rest st) <? String.length s)%nat
          then expand template (caps st) +:+
               sub_from ignorecase r template fuel' (prev st) (rest st)
          else skip
      | None => skip
      end
  end.

(** [re.sub(pattern, repl, text)], with [flags=re.IGNORECASE] when
    [ignorecase]. *)
Definition sub (ignorecase : bool) (r : regex) (template : list piece)
    (text : string) : string :=
  sub_from ignorecase r template (S (String.length text)) None text.

(** [re.split] for a pattern without groups; [cur] is the piece being read,
    in reverse. *)
Fixpoint split_from (ignorecase : bool) (r : regex) (fuel : nat)
    (before : option ascii) (cur : list ascii) (s : string) : list string :=
  match fuel with
  | O => [String.string_of_list_ascii (rev cur)]
  | S fuel' =>
      let skip :=
        match s with
        | String c s' =>
            split_from ignorecase r fuel' (Some c) (c :: cur) s'
        | EmptyString => [String.string_of_list_ascii (rev cur)]
        end in
      match match_at ignorecase r before s with
      | Some st =>
          if (String.length (rest st) <? String.length s)%nat
          then String.string_of_list_ascii (rev cur) ::
               split_from ignorecase r fuel' (prev st) [] (rest st)
          else skip
      | None => skip
      end
  end.

Definition split (ignorecase : bool) (r : regex) (text : string)
  : list string :=
  split_from ignorecase r (S (String.length text)) None [] text.

End Re.

(** ** [main.py]: the [VideoSummarizer] pipeline *)

Module Main.

(** What a run does to the outside: the calls to the models and to the file
    system, and the lines printed, in order. *)
Inductive event : Type :=
| EvPrint (line : string)
| EvWriteAudio (video_path audio_path : string)
| EvTranscribe (audio_path : string)
| EvSummarize (text : string) (max_length min_length : Z)
| EvRemove (path : string).

(** The files on disk and the events so far. *)
Record World : Type := { files : gset string; trace : list event }.

(** A computation that reads and changes the world and may raise. *)
Definition M (A : Type) : Type := World -> result A * World.

Definition ret {A : Type} (a : A) : M A := fun w => (Ok a, w).

Definition bind {A B : Type} (m : M A) (f : A -> M B) : M B :=
  fun w =>
    match m w with
    | (Ok a, w') => f a w'
    | (Raise e, w') => (Raise e, w')
    end.

Notation "'let*' x ':=' m 'in' k" := (bind m (fun x => k))
  (at level 10, x name, m at level 100, k at level 200).
Notation "m ';;' k" := (bind m (fun _ => k))
  (at level 100, k at level 200, right associativity).

(** [try: body except Exception as e: handler(e)] *)
Definition try_except {A : Type} (body : M A) (handler : exc -> M A) : M A :=
  fun w =>
    match body w with
    | (Ok a, w') => (Ok a, w')
    | (Raise e, w') => handler e w'
    end.

Definition emit (ev : event) : M unit :=
  fun w => (Ok tt, {| files := files w; trace := trace w ++ [ev] |}).

Definition print (line : string) : M unit := emit (EvPrint line).

(** [str(e)] *)
Definition exc_str (e : exc) : string :=
  match e with
  | IndexError => "list index out of range"
  | FileNotFoundError path =>
      "[Errno 2] No such file or directory: '" +:+ path +:+ "'"
  | ExternalError msg => msg
  end.

(** [os.remove(path)] *)
Definition os_remove (path : string) : M unit :=
  fun w =>
    if decide (path ∈ files w) then
      (Ok tt, {| files := files w ∖ {[path]};
                 trace := trace w ++ [EvRemove path] |})
    else (Raise (FileNotFoundError path), w).

(** The truth value of [None] or a [str]. *)
Definition truthy (v : option string) : bool :=
  match v with
  | None | Some EmptyString => false
  | Some _ => true
  end.

(** [len(text.split())] *)
Definition word_count (text : string) : Z :=
  Z.of_nat (length (PyStr.split_ws text)).

(** *** The patterns *)

Definition punctuation : list ascii := ["."; ","; "!"; "?"]%char.
Definition sentence_end : list ascii := ["."; "!"; "?"]%char.

(** [\bWORDS\b] *)
Definition whole (words : string) : Re.regex :=
  Re.cat [Re.Boundary; Re.lit words; Re.Boundary].

(** [\b(\w+) (\w+) (?:OUT|EDIATELY)\b] *)
Definition re_filler : Re.regex :=
  Re.cat [Re.Boundary; Re.Group 1 (Re.Plus Re.Word); Re.Chr " ";
          Re.Group 2 (Re.Plus Re.Word); Re.Chr " ";
          Re.Alt (Re.lit "OUT") (Re.lit "EDIATELY"); Re.Boundary].

(** [\b(\w+)\s+\1\b] *)
Definition re_duplicate : Re.regex :=
  Re.cat [Re.Boundary; Re.Group 1 (Re.Plus Re.Word); Re.Plus Re.Space;
          Re.Backref 1; Re.Boundary].

(** [\s+([.,!?])] *)
Definition re_space_before : Re.regex :=
  Re.cat [Re.Plus Re.Space; Re.Group 1 (Re.OneOf punctuation)].

(** [([.,!?])(\w)] *)
Definition re_no_space_after : Re.regex :=
  Re.cat [Re.Group 1 (Re.OneOf punctuation); Re.Group 2 Re.Word].

(** [(?<=[.!?])\s+] *)
Definition re_sentence_gap : Re.regex :=
  Re.cat [Re.Behind sentence_end; Re.Plus Re.Space].

(** [correction_patterns], in the order the dictionary literal lists them
    (the order in which [.items()] yields them). *)
Definition correction_patterns : list (Re.regex * list Re.piece) :=
  [ (whole "PITON", [Re.Text "Python"]);
    (whole "PYTHEN", [Re.Text "Python"]);
    (whole "PIE CHARM", [Re.Text "PyCharm"]);
    (whole "GUGAL", [Re.Text "Google"]);
    (whole "VERABLES", [Re.Text "variables"]);
    (whole "COTE EDITOR", [Re.Text "code editor"]);
    (whole "SHONGYUHAIVIN", [Re.Text "showing you how to"]);
    (whole "CA SENSITIVE", [Re.Text "case sensitive"]);
    (whole "OPEN SAUCE", [Re.Text "open source"]);
    (re_filler, [Re.Ref 1; Re.Text " "; Re.Ref 2]);
    (re_duplicate, [Re.Ref 1]) ].

(** *** [_correct_transcript] *)

(** [for pattern, replacement in table: text = re.sub(...)] *)
Fixpoint apply_corrections (table : list (Re.regex * list Re.piece))
    (text : string) : string :=
  match table with
  | [] => text
  | (pattern, replacement) :: table' =>
      let text := Re.sub true pattern replacement text in
      apply_corrections table' text
  end.

(** [sentence[0].upper() + sentence[1:] if sentence else ""] *)
Definition capitalize_sentence (sentence : string) : string :=
  match sentence with
  | String c s' => String (PyStr.upper_char c) s'
  | EmptyString => EmptyString
  end.

(** The body of [_correct_transcript], for a given table. *)
Definition correct_with (table : list (Re.regex * list Re.piece))
    (text : string) : string :=
  let text := apply_corrections table text in
  let text := Re.sub false re_space_before [Re.Ref 1] text in
  let text :=
    Re.sub false re_no_space_after [Re.Ref 1; Re.Text " "; Re.Ref 2] text in
  let sentences := Re.split false re_sentence_gap text in
  let sentences := List.map capitalize_sentence sentences in
  PyStr.join " " sentences.

Definition _correct_transcript (text : string) : string :=
  correct_with correction_patterns text.

(** The specification's reading: the substitutions folded over the text
    from left to right, in table order. *)
Definition spec_fold_corrections (table : list (Re.regex * list Re.piece))
    (text : string) : string :=
  fold_left (fun t entry => Re.sub true (fst entry) (snd entry) t) table text.

(** *** [_clean_summary] and [_fallback_summary] *)

Definition _clean_summary (summary : string) : string :=
  let summary := Re.sub false re_duplicate [Re.Ref 1] summary in
  PyStr.capitalize summary.

Definition _fallback_summary (text : string) : string :=
  let sentences := Re.split false re_sentence_gap text in
  let key_sentences :=
    List.filter (fun s => 5 <? word_count s) sentences in
  PyStr.join " " (take 3 key_sentences).

(** *** The steps *)

(** How [VideoFileClip(video_path).audio.write_audiofile(audio_path, ...)]
    ends: the file is written, or the call raises, having left a partly
    written file behind or not. *)
Inductive write_outcome : Type :=
| Written
| WriteFailed (e : exc) (file_left : bool).

(** The result of [summarize_video] when it is not [None]. *)
Record Summary : Type :=
  { transcription : string; summary : option string }.

Section pipeline.

(** The video reader and audio writer. *)
Variable write_audiofile : string -> write_outcome.
(** [self.asr_pipeline(audio_path)["text"]] *)
Variable asr_pipeline : string -> result string.
(** [self.summarizer(text, max_length=.., min_length=.., ...)[0]["summary_text"]] *)
Variable summarizer : string -> Z -> Z -> result string.

Definition call_write_audiofile (video_path audio_path : string) : M unit :=
  fun w =>
    let called := trace w ++ [EvWriteAudio video_path audio_path] in
    match write_audiofile video_path with
    | Written =>
        (Ok tt, {| files := files w ∪ {[audio_path]}; trace := called |})
    | WriteFailed e file_left =>
        (Raise e,
         {| files := if file_left then files w ∪ {[audio_path]} else files w;
            trace := called |})
    end.

Definition call_asr_pipeline (audio_path : string) : M string :=
  fun w =>
    (asr_pipeline audio_path,
     {| files := files w; trace := trace w ++ [EvTranscribe audio_path] |}).

Definition call_summarizer (text : string) (max_length min_length : Z)
  : M string :=
  fun w =>
    (summarizer text max_length min_length,
     {| files := files w;
        trace := trace w ++ [EvSummarize text max_length min_length] |}).

Definition extract_audio (video_path : string) : M (option string) :=
  try_except
    (let audio_path := "temp_audio.wav" in
     call_write_audiofile video_path audio_path;;
     ret (Some audio_path))
    (fun e =>
       print ("Audio extraction failed: " +:+ exc_str e);;
       ret None).

Definition transcribe_audio (audio_path : string) : M (option string) :=
  try_except
    (let* raw_text := call_asr_pipeline audio_path in
     ret (Some (_correct_transcript raw_text)))
    (fun e =>
       print ("Transcription failed: " +:+ exc_str e);;
       ret None).

Definition summarize_text (text : option string) : M (option string) :=
  match text with
  | None => ret text
  | Some t =>
      if negb (truthy text) || (word_count t <? 50) then ret text
      else
        try_except
          (let word_count := word_count t in
           let max_len := Z.min 130 (Z.max 50 (word_count / 4)) in
           let min_len := Z.min 30 (max_len / 2) in
           let* summary := call_summarizer t max_len min_len in
           ret (Some (_clean_summary summary)))
          (fun e =>
             print ("Summarization failed: " +:+ exc_str e);;
             ret (Some (_fallback_summary t)))
  end.

Definition summarize_video (video_path : string) : M (option Summary) :=
  print "
Starting video processing...";;
  print "
1. Extracting audio...";;
  let* audio_file := extract_audio video_path in
  match audio_file with
  | None | Some EmptyString => ret None
  | Some audio_path =>
      print "
2. Transcribing audio (this may take a while)...";;
      let* transcription := transcribe_audio audio_path in
      os_remove audio_path;;
      match transcription with
      | None | Some EmptyString => ret None
      | Some text =>
          print "
3. Generating summary...";;
          let* summary := summarize_text transcription in
          ret (Some {| transcription := text; summary := summary |})
      end
  end.

End pipeline.

(** The audio file that [extract_audio] writes. *)
Definition temp_audio : string := "temp_audio.wav".

(** The lines printed before each step. *)
Definition line_start : string := "
Starting video processing...".
Definition line_step1 : string := "
1. Extracting audio...".
Definition line_step2 : string := "
2. Transcribing audio (this may take a while)...".
Definition line_step3 : string := "
3. Generating summary...".

(** The length window [summarize_text] computes for a text of [n] words. *)
Definition max_len_of (n : Z) : Z := Z.min 130 (Z.max 50 (n / 4)).
Definition min_len_of (n : Z) : Z := Z.min 30 (max_len_of n / 2).

(** A transcript of 62 words, and the world before a run. *)
Definition example_raw_text : string :=
  "today we are going to learn how to write a small python program that " +:+
  "reads a video file. first we extract the audio track from the video " +:+
  "and save it as a wave file. then we pass the audio to the speech model " +:+
  "and clean the text it returns. finally we ask the summarizer for a " +:+
  "short summary of the whole transcript.".

Definition empty_world : World := {| files := ∅; trace := [] |}.

(** Outside worlds for concrete runs: an audio writer that succeeds and one
    that fails on a full disk with the file begun; a speech model that
    returns the example and one that raises; a summarizer that raises. *)
Definition writes_audio : string -> write_outcome := fun _ => Written.

Definition disk_full : string -> write_outcome :=
  fun _ => WriteFailed (ExternalError "[Errno 28] No space left on device") true.

Definition hears_example : string -> result string :=
  fun _ => Ok example_raw_text.

Definition asr_fails : string -> result string :=
  fun _ => Raise (ExternalError "Soundfile is either not in the correct format or is malformed").

Definition summarizer_fails : string -> Z -> Z -> result string :=
  fun _ _ _ => Raise (ExternalError "CUDA out of memory").

Definition summarizer_echo : string -> Z -> Z -> result string :=
  fun text _ _ => Ok text.

End Main.

(** ** Shapes of traces and texts, for the statements about [main.py] *)

Module MainShape.

Import Main.

(** The events that are calls of an outside collaborator. *)
Definition is_model_call (ev : event) : bool :=
  match ev with
  | EvWriteAudio _ _ | EvTranscribe _ | EvSummarize _ _ _ => true
  | EvPrint _ | EvRemove _ => false
  end.

(** Texts of ASCII characters. *)
Fixpoint ascii_text (s : string) : Prop :=
  match s with
  | EmptyString => True
  | String c s' => (N_of_ascii c < 128)%N /\ ascii_text s'
  end.

(** Texts without one of the letters A to Z. *)
Fixpoint no_upper (s : string) : Prop :=
  match s with
  | EmptyString => True
  | String c s' => PyStr.is_upper c = false /\ no_upper s'
  end.

(** Texts without one of the characters [cs]. *)
Fixpoint none_of (cs : list ascii) (s : string) : Prop :=
  match s with
  | EmptyString => True
  | String c s' => Re.mem false c cs = false /\ none_of cs s'
  end.

(** Patterns without a capturing group. *)
Fixpoint groupless (r : Re.regex) : bool :=
  match r with
  | Re.Group _ _ => false
  | Re.Seq r1 r2 | Re.Alt r1 r2 => groupless r1 && groupless r2
  | Re.Plus r1 => groupless r1
  | _ => true
  end.

(** The character before a position ends a sentence: [.], [!] or [?]. *)
Definition is_end (before : option ascii) : bool :=
  match before with
  | Some p => Re.mem false p sentence_end
  | None => false
  end.

(** Texts that are empty or start with a character that is neither white
    space nor one of the letters a to z. *)
Definition starts_sentence (s : string) : Prop :=
  match s with
  | EmptyString => True
  | String d _ => PyStr.isspace d = false /\ PyStr.is_lower d = false
  end.

(** Texts in which white space after the end of a sentence is a single
    space, followed by the start of a sentence.  [before] is the character
    before the text. *)
Fixpoint tidy (before : option ascii) (s : string) : Prop :=
  match s with
  | EmptyString => True
  | String c s' =>
      (is_end before = true -> PyStr.isspace c = true ->
       c = " "%char /\ starts_sentence s') /\
      tidy (Some c) s'
  end.

(** The sentences of a text that follows the character [before], joined by
    single spaces, all but the first capitalised. *)
Definition joined_sentences (before : option ascii) (s : string) : string :=
  match
    Re.split_from false re_sentence_gap (S (String.length s)) before [] s
  with
  | x :: xs => PyStr.join " " (x :: List.map capitalize_sentence xs)
  | [] => EmptyString
  end.

(** White space before a punctuation mark starts at the head of [s]. *)
Definition punct_ahead (s : string) : bool :=
  match PyStr.lstrip s with
  | String p _ => Re.mem false p punctuation
  | EmptyString => false
  end.

Definition space_before_here (s : string) : bool :=
  match s with
  | String c s' => PyStr.isspace c && punct_ahead s'
  | EmptyString => false
  end.

(** A punctuation mark and a word character are the head of [s]. *)
Definition word_after_here (s : string) : bool :=
  match s with
  | String p (String w _) => Re.mem false p punctuation && Re.is_word w
  | _ => false
  end.

(** The two spacing fixes on the text that follows [before]. *)
Definition squeezed (before : option ascii) (s : string) : string :=
  Re.sub_from false re_space_before [Re.Ref 1] (S (String.length s)) before s.

Definition spaced (before : option ascii) (s : string) : string :=
  Re.sub_from false re_no_space_after [Re.Ref 1; Re.Text " "; Re.Ref 2]
    (S (String.length s)) before s.

(** Texts without white space before a punctuation mark; [after_space]
    tells whether the character before the text is white space. *)
Fixpoint no_space_before (after_space : bool) (s : string) : Prop :=
  match s with
  | EmptyString => True
  | String c s' =>
      (after_space = true -> Re.mem false c punctuation = false) /\
      no_space_before (PyStr.isspace c) s'
  end.

(** Texts without a word character after a punctuation mark;
    [after_punct] tells whether the character before the text is a
    punctuation mark. *)
Fixpoint no_word_after (after_punct : bool) (s : string) : Prop :=
  match s with
  | EmptyString => True
  | String c s' =>
      (after_punct = true -> Re.is_word c = false) /\
      no_word_after (Re.mem false c punctuation) s'
  end.

(** The events of a run up to the removal of the audio file. *)
Definition until_removed (video_path : string) : list event :=
  [EvPrint line_start; EvPrint line_step1;
   EvWriteAudio video_path temp_audio; EvPrint line_step2;
   EvTranscribe temp_audio; EvRemove temp_audio].

Section run_cases.

Variable write_audiofile : string -> write_outcome.
Variable asr_pipeline : string -> result string.
Variable summarizer : string -> Z -> Z -> result string.

(** The six ways a run of [summarize_video] can go, each with its result
    and the world it leaves. *)
Inductive run_case (video_path : string) (w : World)
  : result (option Summary) * World -> Prop :=
| case_extraction_failed e file_left :
    write_audiofile video_path = WriteFailed e file_left ->
    run_case video_path w
      (Ok None,
       {| files := if file_left then files w ∪ {[temp_audio]} else files w;
          trace := trace w ++
            [EvPrint line_start; EvPrint line_step1;
             EvWriteAudio video_path temp_audio;
             EvPrint ("Audio extraction failed: " +:+ exc_str e)] |})
| case_transcription_failed e :
    write_audiofile video_path = Written ->
    asr_pipeline temp_audio = Raise e ->
    run_case video_path w
      (Ok None,
       {| files := (files w ∪ {[temp_audio]}) ∖ {[temp_audio]};
          trace := trace w ++
            [EvPrint line_start; EvPrint line_step1;
             EvWriteAudio video_path temp_audio; EvPrint line_step2;
             EvTranscribe temp_audio;
             EvPrint ("Transcription failed: " +:+ exc_str e);
             EvRemove temp_audio] |})
| case_empty_transcript raw_text :
    write_audiofile video_path = Written ->
    asr_pipeline temp_audio = Ok raw_text ->
    _correct_transcript raw_text = "" ->
    run_case video_path w
      (Ok None,
       {| files := (files w ∪ {[temp_audio]}) ∖ {[temp_audio]};
          trace := trace w ++ until_removed video_path |})
| case_short raw_text :
    write_audiofile video_path = Written ->
    asr_pipeline temp_audio = Ok raw_text ->
    _correct_transcript raw_text <> "" ->
    word_count (_correct_transcript raw_text) < 50 ->
    run_case video_path w
      (Ok (Some {| transcription := _correct_transcript raw_text;
                   summary := Some (_correct_transcript raw_text) |}),
       {| files := (files w ∪ {[temp_audio]}) ∖ {[temp_audio]};
          trace := trace w ++ until_removed video_path ++
            [EvPrint line_step3] |})
| case_summarized raw_text sm :
    write_audiofile video_path = Written ->
    asr_pipeline temp_audio = Ok raw_text ->
    50 <= word_count (_correct_transcript raw_text) ->
    summarizer (_correct_transcript raw_text)
      (max_len_of (word_count (_correct_transcript raw_text)))
      (min_len_of (word_count (_correct_transcript raw_text))) = Ok sm ->
    run_case video_path w
      (Ok (Some {| transcription := _correct_transcript raw_text;
                   summary := Some (_clean_summary sm) |}),
       {| files := (files w ∪ {[temp_audio]}) ∖ {[temp_audio]};
          trace := trace w ++ until_removed video_path ++
            [EvPrint line_step3;
             EvSummarize (_correct_transcript raw_text)
               (max_len_of (word_count (_correct_transcript raw_text)))
               (min_len_of (word_count (_correct_transcript raw_text)))] |})
| case_summarization_failed raw_text e :
    write_audiofile video_path = Written ->
    asr_pipeline temp_audio = Ok raw_text ->
    50 <= word_count (_correct_transcript raw_text) ->
    summarizer (_correct_transcript raw_text)
      (max_len_of (word_count (_correct_transcript raw_text)))
      (min_len_of (word_count (_correct_transcript raw_text))) = Raise e ->
    run_case video_path w
      (Ok (Some {| transcription := _correct_transcript raw_text;
                   summary :=
                     Some (_fallback_summary (_correct_transcript raw_text)) |}),
       {| files := (files w ∪ {[temp_audio]}) ∖ {[temp_audio]};
          trace := trace w ++ until_removed video_path ++
            [EvPrint line_step3;
             EvSummarize (_correct_transcript raw_text)
               (max_len_of (word_count (_correct_transcript raw_text)))
               (min_len_of (word_count (_correct_transcript raw_text)));
             EvPrint ("Summarization failed: " +:+ exc_str e)] |}).

End run_cases.

End MainShape.

(** ** The script block of [main.py]

    The block under [if __name__ == "__main__"]: it builds the
    summarizer, asks for a path, runs [summarize_video] and prints and
    saves the result. *)

Module Script.

Import Main.

(** What the script does to the outside: the events of the
    [VideoSummarizer] and the lines the script prints, the prompt of
    [input], and the files it writes. *)
Inductive action : Type :=
| Run (ev : event)
| Prompt (text : string)
| WriteFile (name content : string).

(** The files on disk and the actions so far. *)
Record Machine : Type := { disk : gset string; log : list action }.

(** How the script ends: at its last line, at [exit()], or with an
    exception nobody catches. *)
Inductive ending : Type :=
| Finished
| Exited
| Crashed (e : exc).

(** [print(line)] *)
Definition say (line : string) (m : Machine) : Machine :=
  {| disk := disk m; log := log m ++ [Run (EvPrint line)] |}.

(** [with open(name, "w") as f: f.write(content)] when the file system
    accepts it.  [save_io] below is the statement that may raise. *)
Definition save (name content : string) (m : Machine) : Machine :=
  {| disk := disk m ∪ {[name]}; log := log m ++ [WriteFile name content] |}.

(** [text[:1000] + ("..." if len(text) > 1000 else "")] *)
Definition preview (text : string) : string :=
  PyStr.slice_to 1000 text +:+
  (if (1000 <? String.length text)%nat then "..." else "").

(** [str(v)] of [None] or a [str], as [print] shows it. *)
Definition shown (v : option string) : string :=
  match v with
  | Some s => s
  | None => "None"
  end.

Section script.

Variable write_audiofile : string -> write_outcome.
Variable asr_pipeline : string -> result string.
Variable summarizer : string -> Z -> Z -> result string.
(** [torch.cuda.is_available()] *)
Variable cuda_available : bool.
(** The two calls of [pipeline(...)] in [__init__], by device. *)
Variable load_asr : string -> result unit.
Variable load_summarizer : string -> result unit.
(** What [input(...)] returns: the line typed, or an exception. *)
Variable input_line : result string.
(** [datetime.now().strftime("%Y%m%d_%H%M%S")] *)
Variable now : string.

(** [summarizer.summarize_video(video_path)]: the events of the run go to
    the log. *)
Definition run_summarize_video (video_path : string) (m : Machine)
  : result (option Summary) * Machine :=
  let '(r, w) :=
    summarize_video write_audiofile asr_pipeline summarizer video_path
      {| files := disk m; trace := [] |} in
  (r, {| disk := files w; log := log m ++ (Run <$> trace w) |}).

(** The block, from [summarizer = VideoSummarizer()] on. *)
Definition main_block (m : Machine) : ending * Machine :=
  let device := if cuda_available then "cuda" else "cpu" in
  let m := say ("Using device: " +:+ device) m in
  match load_asr device with
  | Raise e => (Crashed e, m)
  | Ok _ =>
  match load_summarizer device with
  | Raise e => (Crashed e, m)
  | Ok _ =>
  let m := {| disk := disk m;
              log := log m ++ [Prompt "Enter path to local video file: "] |} in
  match input_line with
  | Raise e => (Crashed e, m)
  | Ok line =>
  let video_path := PyStr.strip line in
  if decide (video_path ∈ disk m) then
    match run_summarize_video video_path m with
    | (Raise e, m) => (Crashed e, m)
    | (Ok None, m) => (Finished, say "Processing failed" m)
    | (Ok (Some result), m) =>
        let m := say "
=== Cleaned Transcription ===" m in
        let m := say (preview (transcription result)) m in
        let m := say "
=== Final Summary ===" m in
        let m := say (shown (summary result)) m in
        let timestamp := now in
        let m := save ("transcription_" +:+ timestamp +:+ ".txt")
                   (transcription result) m in
        match summary result with
        | Some text =>
            (Finished, save ("summary_" +:+ timestamp +:+ ".txt") text m)
        | None =>
            (Crashed (ExternalError "write() argument must be str, not None"),
             save ("summary_" +:+ timestamp +:+ ".txt") "" m)
        end
    end
  else (Exited, say "Error: File not found!" m)
  end end end.

(** *** A file system that may refuse *)

(** How [with open(name, "w") as f: f.write(content)] ends: the file is
    written, or the opening, the writing or the closing raises, having
    left a file of that name or not. *)
Variable write_file : string -> string -> write_outcome.

Definition save_io (name content : string) (m : Machine)
  : result unit * Machine :=
  match write_file name content with
  | Written => (Ok tt, save name content m)
  | WriteFailed e file_left =>
      (Raise e,
       {| disk := if file_left then disk m ∪ {[name]} else disk m;
          log := log m |})
  end.

(** The block, from [summarizer = VideoSummarizer()] on. *)
Definition main_block_io (m : Machine) : ending * Machine :=
  let device := if cuda_available then "cuda" else "cpu" in
  let m := say ("Using device: " +:+ device) m in
  match load_asr device with
  | Raise e => (Crashed e, m)
  | Ok _ =>
  match load_summarizer device with
  | Raise e => (Crashed e, m)
  | Ok _ =>
  let m := {| disk := disk m;
              log := log m ++ [Prompt "Enter path to local video file: "] |} in
  match input_line with
  | Raise e => (Crashed e, m)
  | Ok line =>
  let video_path := PyStr.strip line in
  if decide (video_path ∈ disk m) then
    match run_summarize_video video_path m with
    | (Raise e, m) => (Crashed e, m)
    | (Ok None, m) => (Finished, say "Processing failed" m)
    | (Ok (Some result), m) =>
        let m := say "
=== Cleaned Transcription ===" m in
        let m := say (preview (transcription result)) m in
        let m := say "
=== Final Summary ===" m in
        let m := say (shown (summary result)) m in
        let timestamp := now in
        match
          save_io ("transcription_" +:+ timestamp +:+ ".txt")
            (transcription result) m
        with
        | (Raise e, m) => (Crashed e, m)
        | (Ok _, m) =>
            match summary result with
            | Some text =>
                match
                  save_io ("summary_" +:+ timestamp +:+ ".txt") text m
                with
                | (Raise e, m) => (Crashed e, m)
                | (Ok _, m) => (Finished, m)
                end
            | None =>
                (* [f.write(None)]: the file is opened empty, then the
                   TypeError of [write], unless the file system raises *)
                match
                  save_io ("summary_" +:+ timestamp +:+ ".txt") "" m
                with
                | (Raise e, m) => (Crashed e, m)
                | (Ok _, m) =>
                    (Crashed
                       (ExternalError "write() argument must be str, not None"),
                     m)
                end
            end
        end
    end
  else (Exited, say "Error: File not found!" m)
  end end end.

End script.

End Script.

(** ** [summarize.py]: the controllable summarizer script

    The texts of this script are only concatenated, printed and written,
    never indexed: a [string] here is the UTF-8 encoding of the Python
    [str]. *)

Module Summarize.

(** What this script can raise: a missing dictionary key, or an exception
    of the outside (a model, the file system). *)
Inductive error : Type :=
| KeyError (key : string)
| Raised (e : exc).

Inductive outcome (A : Type) : Type :=
| Done (a : A)
| Failed (err : error).
Arguments Done {A} a.
Arguments Failed {A} err.

(** The keyword arguments of one call of [summarizer.summarize]. *)
Record request : Type :=
  { query : option string; max_length : option Z; mode : option string;
    style : option string; control : option string }.

(** [summarizer.summarize(text)] *)
Definition plain : request :=
  {| query := None; max_length := None; mode := None; style := None;
     control := None |}.

(** The files with their contents, what was printed, and the calls of the
    summarizer so far: device, text and keyword arguments. *)
Record World : Type :=
  { files : gmap string string; stdout : string;
    calls : list (string * string * request) }.

Definition M (A : Type) : Type := World -> outcome A * World.

Definition ret {A : Type} (a : A) : M A := fun w => (Done a, w).

Definition bind {A B : Type} (m : M A) (f : A -> M B) : M B :=
  fun w =>
    match m w with
    | (Done a, w') => f a w'
    | (Failed err, w') => (Failed err, w')
    end.

Notation "'let*' x ':=' m 'in' k" := (bind m (fun x => k))
  (at level 10, x name, m at level 100, k at level 200).
Notation "m ';;' k" := (bind m (fun _ => k))
  (at level 100, k at level 200, right associativity).

(** The newline character. *)
Definition nl : string := String (ascii_of_nat 10) EmptyString.

(** [s * n] *)
Fixpoint times (s : string) (n : nat) : string :=
  match n with
  | O => EmptyString
  | S n' => s +:+ times s n'
  end.

(** [print(s)] *)
Definition print (s : string) : M unit :=
  fun w =>
    (Done tt,
     {| files := files w; stdout := stdout w +:+ s +:+ nl;
        calls := calls w |}).

(** [d[key]] *)
Definition dict_get (d : gmap string string) (key : string) : M string :=
  fun w =>
    match d !! key with
    | Some v => (Done v, w)
    | None => (Failed (KeyError key), w)
    end.

(** [open(filename, "w")] when the file system accepts it: the file is
    created, or emptied.  [open_io] below is the call that may raise. *)
Definition open_w (filename : string) : M unit :=
  fun w =>
    (Done tt,
     {| files := <[filename := EmptyString]> (files w); stdout := stdout w;
        calls := calls w |}).

(** [f.write(s)] on the file opened as [filename], when the file system
    accepts it.  [write_io] below is the call that may raise. *)
Definition write (filename s : string) : M unit :=
  fun w =>
    (Done tt,
     {| files :=
          <[filename := default EmptyString (files w !! filename) +:+ s]>
            (files w);
        stdout := stdout w; calls := calls w |}).

(** [open(filename, "r").read()] *)
Definition read_file (filename : string) : M string :=
  fun w =>
    match files w !! filename with
    | Some content => (Done content, w)
    | None => (Failed (Raised (FileNotFoundError filename)), w)
    end.

(** [display_results] *)
Definition display_results (results : gmap string string) : M unit :=
  print (nl +:+ times "=" 50 +:+ nl +:+ "📝 SUMMARY RESULTS" +:+ nl +:+ times "=" 50);;
  print (nl +:+ "🔹 DEFAULT SUMMARY:");;
  (let* v := dict_get results "default" in print v);;
  print (nl +:+ "🔍 QUERY-BASED SUMMARIES:");;
  print (nl +:+ "Healthcare Focus:");;
  (let* v := dict_get results "query_healthcare" in print v);;
  print (nl +:+ "Finance Focus:");;
  (let* v := dict_get results "query_finance" in print v);;
  print (nl +:+ "✂️ LENGTH-CONTROLLED SUMMARIES:");;
  print (nl +:+ "Short (50 chars):");;
  (let* v := dict_get results "short" in print v);;
  print (nl +:+ "Medium (100 chars):");;
  (let* v := dict_get results "medium" in print v);;
  print (nl +:+ "Long (150 chars):");;
  (let* v := dict_get results "long" in print v);;
  print (nl +:+ "📚 DOMAIN-SPECIFIC SUMMARIES:");;
  print (nl +:+ "Research Style:");;
  (let* v := dict_get results "research" in print v);;
  print (nl +:+ "News Style:");;
  (let* v := dict_get results "news" in print v);;
  print (nl +:+ "🔄 EXTRACTIVE VS ABSTRACTIVE:");;
  print (nl +:+ "Extractive (Key Sentences):");;
  (let* v := dict_get results "extractive" in print v);;
  print (nl +:+ "Abstractive (Paraphrased):");;
  (let* v := dict_get results "abstractive" in print v);;
  print (nl +:+ "🎯 CONTROLLED SUMMARY (ETHICS FOCUS):");;
  (let* v := dict_get results "controlled_ethics" in print v).

(** [save_to_file]; the file is open from [open_w] to the last [write]. *)
Definition save_to_file (results : gmap string string) (filename : string)
  : M unit :=
  open_w filename;;
  write filename (times "=" 50 +:+ nl +:+ "📝 SUMMARY RESULTS" +:+ nl +:+ times "=" 50 +:+ nl);;
  write filename (nl +:+ "🔹 DEFAULT SUMMARY:" +:+ nl);;
  (let* v := dict_get results "default" in
   write filename (v +:+ nl));;
  write filename (nl +:+ "🔍 QUERY-BASED SUMMARIES:" +:+ nl);;
  write filename (nl +:+ "Healthcare Focus:" +:+ nl);;
  (let* v := dict_get results "query_healthcare" in
   write filename (v +:+ nl));;
  write filename (nl +:+ "Finance Focus:" +:+ nl);;
  (let* v := dict_get results "query_finance" in
   write filename (v +:+ nl));;
  write filename (nl +:+ "✂️ LENGTH-CONTROLLED SUMMARIES:" +:+ nl);;
  write filename (nl +:+ "Short (50 chars):" +:+ nl);;
  (let* v := dict_get results "short" in
   write filename (v +:+ nl));;
  write filename (nl +:+ "Medium (100 chars):" +:+ nl);;
  (let* v := dict_get results "medium" in
   write filename (v +:+ nl));;
  write filename (nl +:+ "Long (150 chars):" +:+ nl);;
  (let* v := dict_get results "long" in
   write filename (v +:+ nl));;
  write filename (nl +:+ "📚 DOMAIN-SPECIFIC SUMMARIES:" +:+ nl);;
  write filename (nl +:+ "Research Style:" +:+ nl);;
  (let* v := dict_get results "research" in
   write filename (v +:+ nl));;
  write filename (nl +:+ "News Style:" +:+ nl);;
  (let* v := dict_get results "news" in
   write filename (v +:+ nl));;
  write filename (nl +:+ "🔄 EXTRACTIVE VS ABSTRACTIVE:" +:+ nl);;
  write filename (nl +:+ "Extractive (Key Sentences):" +:+ nl);;
  (let* v := dict_get results "extractive" in
   write filename (v +:+ nl));;
  write filename (nl +:+ "Abstractive (Paraphrased):" +:+ nl);;
  (let* v := dict_get results "abstractive" in
   write filename (v +:+ nl));;
  write filename (nl +:+ "🎯 CONTROLLED SUMMARY (ETHICS FOCUS):" +:+ nl);;
  (let* v := dict_get results "controlled_ethics" in
   write filename (v +:+ nl));;
  print (nl +:+ "📂 All summaries saved to '" +:+ filename +:+ "'").

(** The specification-side reading of the two functions: after a header,
    the same sequence of fixed lines and dictionary entries. *)
Inductive item : Type :=
| Line (s : string)
| Entry (key : string).

Definition spec_layout : list item :=
  [ Line (nl +:+ "🔹 DEFAULT SUMMARY:");
    Entry "default";
    Line (nl +:+ "🔍 QUERY-BASED SUMMARIES:");
    Line (nl +:+ "Healthcare Focus:");
    Entry "query_healthcare";
    Line (nl +:+ "Finance Focus:");
    Entry "query_finance";
    Line (nl +:+ "✂️ LENGTH-CONTROLLED SUMMARIES:");
    Line (nl +:+ "Short (50 chars):");
    Entry "short";
    Line (nl +:+ "Medium (100 chars):");
    Entry "medium";
    Line (nl +:+ "Long (150 chars):");
    Entry "long";
    Line (nl +:+ "📚 DOMAIN-SPECIFIC SUMMARIES:");
    Line (nl +:+ "Research Style:");
    Entry "research";
    Line (nl +:+ "News Style:");
    Entry "news";
    Line (nl +:+ "🔄 EXTRACTIVE VS ABSTRACTIVE:");
    Line (nl +:+ "Extractive (Key Sentences):");
    Entry "extractive";
    Line (nl +:+ "Abstractive (Paraphrased):");
    Entry "abstractive";
    Line (nl +:+ "🎯 CONTROLLED SUMMARY (ETHICS FOCUS):");
    Entry "controlled_ethics" ].

(** What [display_results] prints first, and what [save_to_file] writes
    first. *)
Definition display_header : string := nl +:+ times "=" 50 +:+ nl +:+ "📝 SUMMARY RESULTS" +:+ nl +:+ times "=" 50.
Definition save_header : string := times "=" 50 +:+ nl +:+ "📝 SUMMARY RESULTS" +:+ nl +:+ times "=" 50 +:+ nl.

(** The text of an item. *)
Definition item_text (results : gmap string string) (it : item)
  : M string :=
  match it with
  | Line s => ret s
  | Entry key => dict_get results key
  end.

(** Print the items, one [print] each. *)
Fixpoint show (results : gmap string string) (items : list item) : M unit :=
  match items with
  | [] => ret tt
  | [it] => let* v := item_text results it in print v
  | it :: rest => (let* v := item_text results it in print v);;
                  show results rest
  end.

(** Write the items, each followed by a newline, then go on with [k]. *)
Fixpoint store (results : gmap string string) (filename : string)
    (items : list item) (k : M unit) : M unit :=
  match items with
  | [] => k
  | it :: rest => (let* v := item_text results it in
                   write filename (v +:+ nl));;
                  store results filename rest k
  end.

(** The text of the items up to the first missing key, each followed by a
    newline, and that key. *)
Fixpoint render (results : gmap string string) (items : list item)
  : string * option string :=
  match items with
  | [] => (EmptyString, None)
  | it :: rest =>
      match it with
      | Line s =>
          let '(body, missing) := render results rest in
          (s +:+ nl +:+ body, missing)
      | Entry key =>
          match results !! key with
          | Some v =>
              let '(body, missing) := render results rest in
              (v +:+ nl +:+ body, missing)
          | None => (EmptyString, Some key)
          end
      end
  end.

(** The keys the two functions read. *)
Definition keys_of (items : list item) : list string :=
  omap (fun it => match it with Entry key => Some key | Line _ => None end)
       items.

(** The world after more text was printed, and after a file got a new
    content. *)
Definition printed (w : World) (s : string) : World :=
  {| files := files w; stdout := stdout w +:+ s; calls := calls w |}.

Definition written (w : World) (filename content : string) : World :=
  {| files := <[filename := content]> (files w); stdout := stdout w;
     calls := calls w |}.

(** How a function that reads the layout ends: well, or with the first
    missing key. *)
Definition result_of (missing : option string) : outcome unit :=
  match missing with
  | None => Done tt
  | Some key => Failed (KeyError key)
  end.

Section script.

(** [torch.cuda.is_available()] *)
Variable cuda_available : bool.
(** [Summarizers(device=device)] *)
Variable load_summarizer : string -> result unit.
(** [summarizer.summarize(text, **keywords)] of the summarizer on [device] *)
Variable summarize : string -> string -> request -> result string.

Definition lift {A : Type} (r : result A) : outcome A :=
  match r with
  | Ok a => Done a
  | Raise e => Failed (Raised e)
  end.

Definition call_summarize (device text : string) (r : request) : M string :=
  fun w =>
    (lift (summarize device text r),
     {| files := files w; stdout := stdout w;
        calls := calls w ++ [(device, text, r)] |}).

(** [check_gpu] *)
Definition check_gpu : M string :=
  if cuda_available then
    let device := "cuda" in
    print "✅ Using GPU for faster summarization";;
    ret device
  else
    let device := "cpu" in
    print "⚠️ GPU not available, using CPU (slower)";;
    ret device.

(** [initialize_summarizer]; the summarizer is named by its device. *)
Definition initialize_summarizer (device : string) : M string :=
  fun w =>
    (match load_summarizer device with
     | Ok _ => Done device
     | Raise e => Failed (Raised e)
     end, w).

(** [sample_text] *)
Definition sample_text : M string :=
  let* content := read_file "transcript.txt" in
  ret content.

(** [generate_summaries] *)
Definition generate_summaries (summarizer text : string)
  : M (gmap string string) :=
  let results : gmap string string := ∅ in
  let* v := call_summarize summarizer text plain in
  let results := <["default" := v]> results in
  let* v := call_summarize summarizer text
              {| query := Some "How is AI used in healthcare?";
                 max_length := None; mode := None; style := None;
                 control := None |} in
  let results := <["query_healthcare" := v]> results in
  let* v := call_summarize summarizer text
              {| query := Some "How is AI used in finance?";
                 max_length := None; mode := None; style := None;
                 control := None |} in
  let results := <["query_finance" := v]> results in
  let* v := call_summarize summarizer text
              {| query := None; max_length := Some 50; mode := None;
                 style := None; control := None |} in
  let results := <["short" := v]> results in
  let* v := call_summarize summarizer text
              {| query := None; max_length := Some 100; mode := None;
                 style := None; control := None |} in
  let results := <["medium" := v]> results in
  let* v := call_summarize summarizer text
              {| query := None; max_length := Some 150; mode := None;
                 style := None; control := None |} in
  let results := <["long" := v]> results in
  let* v := call_summarize summarizer text
              {| query := None; max_length := None; mode := Some "paper";
                 style := None; control := None |} in
  let results := <["research" := v]> results in
  let* v := call_summarize summarizer text
              {| query := None; max_length := None; mode := Some "news";
                 style := None; control := None |} in
  let results := <["news" := v]> results in
  let* v := call_summarize summarizer text
              {| query := None; max_length := None; mode := None;
                 style := Some "extractive"; control := None |} in
  let results := <["extractive" := v]> results in
  let* v := call_summarize summarizer text
              {| query := None; max_length := None; mode := None;
                 style := Some "abstractive"; control := None |} in
  let results := <["abstractive" := v]> results in
  let* v := call_summarize summarizer text
              {| query := None; max_length := None; mode := None;
                 style := None;
                 control := Some "Must discuss ethical concerns of AI" |} in
  let results := <["controlled_ethics" := v]> results in
  ret results.

(** The specification-side reading of [generate_summaries]: the keys with
    their requests, in order. *)
Definition spec_requests : list (string * request) :=
  [ ("default", plain);
    ("query_healthcare",
     {| query := Some "How is AI used in healthcare?"; max_length := None;
        mode := None; style := None; control := None |});
    ("query_finance",
     {| query := Some "How is AI used in finance?"; max_length := None;
        mode := None; style := None; control := None |});
    ("short",
     {| query := None; max_length := Some 50; mode := None; style := None;
        control := None |});
    ("medium",
     {| query := None; max_length := Some 100; mode := None; style := None;
        control := None |});
    ("long",
     {| query := None; max_length := Some 150; mode := None; style := None;
        control := None |});
    ("research",
     {| query := None; max_length := None; mode := Some "paper";
        style := None; control := None |});
    ("news",
     {| query := None; max_length := None; mode := Some "news";
        style := None; control := None |});
    ("extractive",
     {| query := None; max_length := None; mode := None;
        style := Some "extractive"; control := None |});
    ("abstractive",
     {| query := None; max_length := None; mode := None;
        style := Some "abstractive"; control := None |});
    ("controlled_ethics",
     {| query := None; max_length := None; mode := None; style := None;
        control := Some "Must discuss ethical concerns of AI" |}) ].

(** One call per entry of a table, each result stored under its key. *)
Fixpoint generate_from (summarizer text : string)
    (table : list (string * request)) (results : gmap string string)
  : M (gmap string string) :=
  match table with
  | [] => ret results
  | (key, r) :: table' =>
      let* v := call_summarize summarizer text r in
      generate_from summarizer text table' (<[key := v]> results)
  end.

(** [main] *)
Definition main : M unit :=
  let* device := check_gpu in
  let* summarizer := initialize_summarizer device in
  let* text := sample_text in
  print (nl +:+ "⏳ Generating summaries...");;
  let* results := generate_summaries summarizer text in
  display_results results;;
  save_to_file results "summary_results.txt".

End script.

(** *** A file system that may refuse

    [open], [f.write] and the closing of the file can raise.  The
    definitions above are those of a run in which they do not; the ones
    below let the file system decide. *)

(** How [f.write(data)] ends: the data are written, or the call raises,
    [reached] of the data having reached the file. *)
Inductive write_result : Type :=
| WriteDone
| WriteRaised (e : exc) (reached : string).

(** Worlds that differ in the content of [filename] at most. *)
Definition wrote_only (filename : string) (w w' : World) : Prop :=
  stdout w' = stdout w /\ calls w' = calls w /\
  forall name, name <> filename -> files w' !! name = files w !! name.

Section disk.

Variable cuda_available : bool.
Variable load_summarizer : string -> result unit.
Variable summarize : string -> string -> request -> result string.
(** [open(filename, "w")] *)
Variable fs_open : string -> result unit.
(** [f.write(data)] on the file [filename], which holds [so_far] *)
Variable fs_write : string -> string -> string -> write_result.
(** The closing of the file [filename], which holds [content] *)
Variable fs_close : string -> string -> result unit.

(** The exceptions of the file system for [filename]. *)
Definition raised_by_disk (filename : string) (e : exc) : Prop :=
  fs_open filename = Raise e \/
  (exists so_far data reached,
     fs_write filename so_far data = WriteRaised e reached) \/
  (exists content, fs_close filename content = Raise e).

(** What a step that works on the file [filename] may do from [w]: change
    that file, and end well or with an exception of the file system. *)
Definition disk_step (filename : string) (w : World)
    (out : outcome unit * World) : Prop :=
  wrote_only filename w (snd out) /\
  match fst out with
  | Done _ => True
  | Failed err => exists e, err = Raised e /\ raised_by_disk filename e
  end.

(** [open(filename, "w")]: the file is created or emptied, or the call
    raises and leaves the files as they are. *)
Definition open_io (filename : string) : M unit :=
  fun w =>
    match fs_open filename with
    | Ok _ => open_w filename w
    | Raise e => (Failed (Raised e), w)
    end.

(** [f.write(s)] on the file opened as [filename] *)
Definition write_io (filename s : string) : M unit :=
  fun w =>
    let so_far := default EmptyString (files w !! filename) in
    match fs_write filename so_far s with
    | WriteDone => write filename s w
    | WriteRaised e reached =>
        (Failed (Raised e),
         {| files := <[filename := so_far +:+ reached]> (files w);
            stdout := stdout w; calls := calls w |})
    end.

(** The closing of the file opened as [filename] *)
Definition close_io (filename : string) : M unit :=
  fun w =>
    match
      fs_close filename (default EmptyString (files w !! filename))
    with
    | Ok _ => (Done tt, w)
    | Raise e => (Failed (Raised e), w)
    end.

(** [with open(filename, "w") as f: body]: the file is closed when the
    block is left, also when it is left by an exception; an exception of
    the closing replaces that of the block. *)
Definition with_open (filename : string) (body : M unit) : M unit :=
  open_io filename;;
  fun w =>
    match body w with
    | (Done _, w') => close_io filename w'
    | (Failed err, w') =>
        match close_io filename w' with
        | (Done _, w'') => (Failed err, w'')
        | (Failed err', w'') => (Failed err', w'')
        end
    end.

(** [save_to_file] *)
Definition save_to_file_io (results : gmap string string)
    (filename : string) : M unit :=
  with_open filename
    (write_io filename (times "=" 50 +:+ nl +:+ "📝 SUMMARY RESULTS" +:+ nl +:+ times "=" 50 +:+ nl);;
     write_io filename (nl +:+ "🔹 DEFAULT SUMMARY:" +:+ nl);;
     (let* v := dict_get results "default" in
      write_io filename (v +:+ nl));;
     write_io filename (nl +:+ "🔍 QUERY-BASED SUMMARIES:" +:+ nl);;
     write_io filename (nl +:+ "Healthcare Focus:" +:+ nl);;
     (let* v := dict_get results "query_healthcare" in
      write_io filename (v +:+ nl));;
     write_io filename (nl +:+ "Finance Focus:" +:+ nl);;
     (let* v := dict_get results "query_finance" in
      write_io filename (v +:+ nl));;
     write_io filename (nl +:+ "✂️ LENGTH-CONTROLLED SUMMARIES:" +:+ nl);;
     write_io filename (nl +:+ "Short (50 chars):" +:+ nl);;
     (let* v := dict_get results "short" in
      write_io filename (v +:+ nl));;
     write_io filename (nl +:+ "Medium (100 chars):" +:+ nl);;
     (let* v := dict_get results "medium" in
      write_io filename (v +:+ nl));;
     write_io filename (nl +:+ "Long (150 chars):" +:+ nl);;
     (let* v := dict_get results "long" in
      write_io filename (v +:+ nl));;
     write_io filename (nl +:+ "📚 DOMAIN-SPECIFIC SUMMARIES:" +:+ nl);;
     write_io filename (nl +:+ "Research Style:" +:+ nl);;
     (let* v := dict_get results "research" in
      write_io filename (v +:+ nl));;
     write_io filename (nl +:+ "News Style:" +:+ nl);;
     (let* v := dict_get results "news" in
      write_io filename (v +:+ nl));;
     write_io filename (nl +:+ "🔄 EXTRACTIVE VS ABSTRACTIVE:" +:+ nl);;
     write_io filename (nl +:+ "Extractive (Key Sentences):" +:+ nl);;
     (let* v := dict_get results "extractive" in
      write_io filename (v +:+ nl));;
     write_io filename (nl +:+ "Abstractive (Paraphrased):" +:+ nl);;
     (let* v := dict_get results "abstractive" in
      write_io filename (v +:+ nl));;
     write_io filename (nl +:+ "🎯 CONTROLLED SUMMARY (ETHICS FOCUS):" +:+ nl);;
     (let* v := dict_get results "controlled_ethics" in
      write_io filename (v +:+ nl)));;
  print (nl +:+ "📂 All summaries saved to '" +:+ filename +:+ "'").

(** The body of the [with] block read as the layout: the items written,
    one [f.write] each. *)
Fixpoint store_io (results : gmap string string) (filename : string)
    (items : list item) : M unit :=
  match items with
  | [] => ret tt
  | [it] => let* v := item_text results it in write_io filename (v +:+ nl)
  | it :: rest =>
      (let* v := item_text results it in write_io filename (v +:+ nl));;
      store_io results filename rest
  end.

(** [main] *)
Definition main_io : M unit :=
  let* device := check_gpu cuda_available in
  let* summarizer := initialize_summarizer load_summarizer device in
  let* text := sample_text in
  print (nl +:+ "⏳ Generating summaries...");;
  let* results := generate_summaries summarize summarizer text in
  display_results results;;
  save_to_file_io results "summary_results.txt".

End disk.

End Summarize.

(** * Properties of the string and number operations *)

Module PyFacts.

Lemma app_String (c : ascii) (s t : string) :
  String c s +:+ t = String c (s +:+ t).
Proof. reflexivity. Qed.

Lemma app_empty (t : string) : EmptyString +:+ t = t.
Proof. reflexivity. Qed.

Lemma append_length (s t : string) :
  String.length (s +:+ t) = (String.length s + String.length t)%nat.
Proof.
  induction s as [|c s IH]; [done|]. rewrite app_String. simpl. by rewrite IH.
Qed.

Lemma slice_to_length (n : nat) (s : string) :
  String.length (PyStr.slice_to n s) = Nat.min n (String.length s).
Proof.
  revert s. induction n as [|n IH]; intros [|c s]; simpl; try done.
  by rewrite IH.
Qed.

Lemma slice_to_prefix (n : nat) (s : string) :
  s = PyStr.slice_to n s +:+ PyStr.slice_from n s.
Proof.
  revert s. induction n as [|n IH]; intros [|c s]; simpl; try done.
  rewrite app_String. f_equal. apply IH.
Qed.

Lemma slice_to_all (n : nat) (s : string) :
  (String.length s <= n)%nat -> PyStr.slice_to n s = s.
Proof.
  revert s. induction n as [|n IH]; intros [|c s]; simpl; try done; [lia|].
  intros Hlen. rewrite IH; [done|lia].
Qed.

Lemma split_cons (sep : ascii) (s : string) :
  exists p ps, PyStr.split sep s = p :: ps.
Proof.
  induction s as [|c s IH]; simpl; [by eauto|].
  destruct (Ascii.eqb c sep); [by eauto|].
  destruct IH as (p & ps & ->). by eauto.
Qed.

(** The first piece of a split has no separator in it, and is the whole
    text or is followed by a separator. *)
Lemma split_hd (sep : ascii) (s : string) :
  let p := List.hd EmptyString (PyStr.split sep s) in
  ~ In sep (String.list_ascii_of_string p) /\
  (s = p \/ exists r, s = p +:+ String sep r).
Proof.
  induction s as [|c s [IHno IHcut]]; simpl; [by auto|].
  destruct (Ascii.eqb_spec c sep) as [->|Hne]; simpl.
  - split; [tauto|]. right. by exists s.
  - destruct (split_cons sep s) as (p & ps & Hsplit).
    rewrite Hsplit in *. simpl in *.
    split; [intros [?|?]; by auto|].
    destruct IHcut as [->|[r ->]]; [by left|]. right. by exists r.
Qed.

(** [lstrip] removes a longest prefix of whitespace. *)
Lemma lstrip_spec (s : string) :
  exists l, s = l +:+ PyStr.lstrip s /\ PyStr.all_space l /\
    match PyStr.lstrip s with
    | String c _ => PyStr.isspace c = false
    | EmptyString => True
    end.
Proof.
  induction s as [|c s (l & Heq & Hl & Hhd)]; simpl.
  - by exists EmptyString.
  - destruct (PyStr.isspace c) eqn:Hc.
    + exists (String c l). rewrite app_String, <- Heq. by simpl.
    + exists EmptyString. by rewrite app_empty.
Qed.

(** [rstrip] removes a longest suffix of whitespace. *)
Lemma rstrip_spec (s : string) :
  exists r, s = PyStr.rstrip s +:+ r /\ PyStr.all_space r /\
    (PyStr.rstrip s = EmptyString \/
     exists p c, PyStr.rstrip s = p +:+ String c EmptyString /\
                 PyStr.isspace c = false).
Proof.
  induction s as [|c s (r & Heq & Hr & Hlast)]; simpl.
  - exists EmptyString. repeat split. by left.
  - destruct (PyStr.rstrip s) as [|c' s'] eqn:Hs.
    + rewrite app_empty in Heq. subst r.
      destruct (PyStr.isspace c) eqn:Hc.
      * exists (String c s). rewrite app_empty. repeat split; try done.
      * exists s. rewrite app_String, app_empty.
        repeat split; try done. right. by exists EmptyString, c.
    + exists r. rewrite app_String, <- Heq. repeat split; try done.
      right. destruct Hlast as [?|(p & c0 & Hp & Hc0)]; [done|].
      exists (String c p), c0. by rewrite app_String, <- Hp.
Qed.

Lemma rstrip_head (s : string) (c : ascii) (r : string) :
  PyStr.rstrip s = String c r -> exists s', s = String c s'.
Proof.
  destruct s as [|c0 s]; simpl; [done|].
  destruct (PyStr.rstrip s); [destruct (PyStr.isspace c0)|];
    intros [= <- _]; by eauto.
Qed.

(** [strip] removes the whitespace at both ends, and no more. *)
Lemma strip_spec (s : string) :
  exists l r,
    s = l +:+ PyStr.strip s +:+ r /\
    PyStr.all_space l /\ PyStr.all_space r /\
    (PyStr.strip s = EmptyString \/
     (exists c t, PyStr.strip s = String c t /\ PyStr.isspace c = false) /\
     (exists p c, PyStr.strip s = p +:+ String c EmptyString /\
                  PyStr.isspace c = false)).
Proof.
  unfold PyStr.strip.
  destruct (lstrip_spec s) as (l & Hl & Hls & Hhd).
  destruct (rstrip_spec (PyStr.lstrip s)) as (r & Hr & Hrs & Hlast).
  exists l, r. rewrite <- Hr. repeat split; try done.
  destruct Hlast as [?|Hlast]; [by left|]. right. split; [|done].
  destruct (PyStr.rstrip (PyStr.lstrip s)) as [|c t] eqn:Hstrip.
  { destruct Hlast as (p & c & Hp & _). by destruct p. }
  destruct (rstrip_head _ _ _ Hstrip) as [s' Hs']. rewrite Hs' in Hhd.
  by eauto.
Qed.

(** *** Floats *)

Lemma int_inject_Z (z : Z) : PyFloat.int (inject_Z z) = z.
Proof. unfold PyFloat.int. simpl. apply Z.quot_1_r. Qed.

Lemma int_nonneg (q : Q) : (0 <= q)%Q -> PyFloat.int q = Qfloor q.
Proof.
  destruct q as [n d]. unfold Qle, PyFloat.int, Qfloor. simpl.
  intros Hn. apply Z.quot_div_nonneg; lia.
Qed.

Lemma mod_60_range (x : Q) :
  (0 <= PyFloat.mod_ x 60 /\ PyFloat.mod_ x 60 < 60)%Q.
Proof.
  unfold PyFloat.mod_.
  pose proof (Qfloor_le (x / 60)) as Hle.
  pose proof (Qlt_floor (x / 60)) as Hlt.
  rewrite inject_Z_plus in Hlt.
  assert (Hx : (x == 60 * (x / 60))%Q) by (field; done).
  set (y := (x / 60)%Q) in *. set (F := inject_Z (Qfloor y)) in *.
  change (inject_Z 1) with 1%Q in Hlt.
  split; lra.
Qed.

Lemma Qfloor_range (q : Q) (a b : Z) :
  (inject_Z a <= q)%Q -> (q < inject_Z b)%Q -> a <= Qfloor q < b.
Proof.
  intros Ha Hb. split.
  - rewrite <- (Qfloor_Z a). by apply Qfloor_resp_le.
  - rewrite Zlt_Qlt. eapply Qle_lt_trans; [apply Qfloor_le|done].
Qed.

Lemma seconds_range (x : Q) :
  0 <= PyFloat.int (PyFloat.mod_ x 60) < 60 /\
  PyFloat.int (PyFloat.mod_ x 60) = Qfloor (PyFloat.mod_ x 60).
Proof.
  destruct (mod_60_range x) as [H0 H60].
  rewrite int_nonneg by done. split; [|done].
  by apply Qfloor_range.
Qed.

Lemma minutes_floor (x : Q) :
  PyFloat.int (PyFloat.floordiv x 60) = Qfloor (x / 60).
Proof. apply int_inject_Z. Qed.

Lemma minutes_range (x : Q) (a b : Z) :
  (inject_Z (60 * a) <= x)%Q -> (x < inject_Z (60 * b))%Q ->
  a <= Qfloor (x / 60) < b.
Proof.
  rewrite !inject_Z_mult. change (inject_Z 60) with 60%Q.
  intros Ha Hb. apply Qfloor_range.
  - apply Qle_shift_div_l; [done|]. lra.
  - apply Qlt_shift_div_r; [done|]. lra.
Qed.

(** *** Decimal formatting *)

Lemma pretty_N_go_length (x : N) (s : string) :
  (String.length s <= String.length (pretty_N_go x s))%nat.
Proof.
  revert s. induction (N.lt_wf_0 x) as [x _ IH]; intros s.
  destruct (decide (x = 0%N)) as [->|Hx]; [by rewrite pretty_N_go_0|].
  rewrite pretty_N_go_step by lia.
  etransitivity; [|apply IH; apply N.div_lt; lia]. simpl. lia.
Qed.

Lemma pretty_three_digits (n : Z) :
  100 <= n -> (3 <= String.length (pretty n))%nat.
Proof.
  intros Hn. destruct n as [|p|p]; try lia.
  unfold pretty, pretty_Z, pretty, pretty_positive, pretty, pretty_N.
  rewrite decide_False by done.
  assert (100 <= N.pos p)%N as Hp by lia.
  assert (10 <= N.pos p `div` 10)%N by (apply N.div_le_lower_bound; lia).
  assert (1 <= (N.pos p `div` 10) `div` 10)%N
    by (apply N.div_le_lower_bound; lia).
  rewrite 3!pretty_N_go_step by lia.
  etransitivity; [|apply pretty_N_go_length]. simpl. lia.
Qed.

Lemma format_02d_large (n : Z) :
  100 <= n ->
  PyStr.format_02d n = pretty n /\ (3 <= String.length (pretty n))%nat.
Proof.
  intros Hn. pose proof (pretty_three_digits n Hn) as Hlen.
  split; [|done]. unfold PyStr.format_02d.
  destruct (Z.ltb_spec n 0) as [?|_]; [lia|].
  by replace (2 - String.length (pretty n))%nat with 0%nat by lia.
Qed.

Lemma format_02d_small (n : Z) :
  0 <= n < 100 -> PyStr.format_02d n = PyStr.two_digits n.
Proof.
  intros Hn.
  assert (Hall : forallb (fun k => String.eqb
                   (PyStr.format_02d (Z.of_nat k))
                   (PyStr.two_digits (Z.of_nat k))) (seq 0 100) = true)
    by (vm_compute; reflexivity).
  rewrite forallb_forall in Hall.
  specialize (Hall (Z.to_nat n)). rewrite Z2Nat.id in Hall by lia.
  apply String.eqb_eq, Hall, in_seq. lia.
Qed.

Lemma two_digits_length (n : Z) : String.length (PyStr.two_digits n) = 2%nat.
Proof. reflexivity. Qed.

Lemma digit_is_digit (d : Z) :
  0 <= d <= 9 -> PyStr.is_digit (PyStr.digit d) = true.
Proof.
  intros Hd.
  assert (d = 0 \/ d = 1 \/ d = 2 \/ d = 3 \/ d = 4 \/
          d = 5 \/ d = 6 \/ d = 7 \/ d = 8 \/ d = 9) as Hcases by lia.
  repeat (destruct Hcases as [->|Hcases]; [reflexivity|]). by subst.
Qed.

Lemma two_digits_MM_SS (a b : Z) :
  0 <= a < 100 -> 0 <= b < 100 ->
  PyStr.is_MM_SS (PyStr.two_digits a +:+ ":" +:+ PyStr.two_digits b) = true.
Proof.
  intros Ha Hb. unfold PyStr.two_digits.
  repeat (rewrite app_String || rewrite app_empty). simpl.
  rewrite !digit_is_digit; [done|..].
  - pose proof (Z.mod_pos_bound b 10). lia.
  - split; [apply Z.div_pos; lia|]. apply Z.lt_succ_r.
    apply Z.div_lt_upper_bound; lia.
  - pose proof (Z.mod_pos_bound a 10). lia.
  - split; [apply Z.div_pos; lia|]. apply Z.lt_succ_r.
    apply Z.div_lt_upper_bound; lia.
Qed.

Lemma app_assoc_str (a b c : string) : (a +:+ b) +:+ c = a +:+ b +:+ c.
Proof.
  induction a as [|x a IH]; [done|]. rewrite !app_String. by rewrite IH.
Qed.

Lemma app_nil_r_str (a : string) : a +:+ "" = a.
Proof. induction a as [|x a IH]; [done|]. rewrite app_String. by rewrite IH. Qed.

End PyFacts.

(** * Properties of the detector *)

Module TimestampsFacts.

Import Timestamps PyFacts.

Lemma label_prefix_total (t : string) :
  label_prefix t =
  Ok (PyStr.slice_to 60 (List.hd "" (PyStr.split "."%char (PyStr.strip t)))).
Proof.
  unfold label_prefix, getitem.
  destruct (split_cons "."%char (PyStr.strip t)) as (p & ps & ->).
  reflexivity.
Qed.

Section detector_facts.

Context {Embedding : Type}.
Variable cos_sim : Embedding -> Embedding -> Q.
Variable segments : list Segment.
Variable embeddings : list Embedding.
Hypothesis same_length : length embeddings = length segments.

Abbreviation body := (body cos_sim segments embeddings).
Abbreviation for_range := (for_range cos_sim segments embeddings).
Abbreviation detect := (detect cos_sim segments embeddings).
Abbreviation spec_is_boundary := (spec_is_boundary cos_sim embeddings).
Abbreviation spec_boundaries := (spec_boundaries cos_sim embeddings).
Abbreviation markers_at := (markers_at segments).
Abbreviation emitted := (emitted cos_sim segments embeddings).
Abbreviation step := (step cos_sim segments embeddings).
Abbreviation runs := (runs cos_sim segments embeddings).

Lemma body_emitted (i : nat) (timestamps : list Marker) :
  (i < length embeddings)%nat ->
  body i timestamps = Ok (timestamps ++ emitted i).
Proof using same_length.
  intros Hi. unfold body, emitted, getitem.
  destruct (lookup_lt_is_Some_2 segments i) as [seg Hseg]; [lia|].
  destruct i as [|j]; simpl.
  - rewrite Hseg. simpl. by rewrite label_prefix_total.
  - destruct (lookup_lt_is_Some_2 embeddings (S j)) as [e_i He]; [lia|].
    destruct (lookup_lt_is_Some_2 embeddings j) as [e_prev Hp]; [lia|].
    rewrite Nat.sub_0_r, He, Hp, Hseg. simpl.
    destruct (Qlt_le_dec _ _); simpl.
    + by rewrite label_prefix_total.
    + by rewrite app_nil_r.
Qed.

Lemma for_range_emitted (idx : list nat) (timestamps : list Marker) :
  Forall (fun i => i < length embeddings)%nat idx ->
  for_range idx timestamps = Ok (timestamps ++ flat_map emitted idx).
Proof using same_length.
  revert timestamps.
  induction idx as [|i idx IH]; intros timestamps Hidx; simpl.
  - by rewrite app_nil_r.
  - inversion Hidx as [|? ? Hi Hrest]; subst.
    rewrite body_emitted by done. simpl.
    rewrite IH by done. by rewrite <- app_assoc.
Qed.

Lemma flat_map_emitted (idx : list nat) :
  flat_map emitted idx = markers_at (List.filter spec_is_boundary idx).
Proof using Type.
  clear same_length.
  induction idx as [|i idx IH]; [done|].
  simpl. unfold emitted at 1.
  destruct (spec_is_boundary i); simpl; [|done].
  unfold markers_at in *. simpl.
  destruct (segments !! i); simpl; by rewrite IH.
Qed.

(** The loop computes the markers of the boundaries, and does not raise. *)
Lemma detect_refines_spec : detect = Ok (markers_at spec_boundaries).
Proof using same_length.
  unfold detect. rewrite for_range_emitted.
  - by rewrite flat_map_emitted.
  - apply Forall_forall. intros i Hi. apply elem_of_seq in Hi. lia.
Qed.

Lemma spec_boundaries_in_range (i : nat) :
  i ∈ spec_boundaries -> (i < length embeddings)%nat.
Proof using Type.
  clear same_length.
  unfold spec_boundaries. rewrite list_elem_of_In, filter_In.
  intros [Hi _]. rewrite <- list_elem_of_In, elem_of_seq in Hi. lia.
Qed.

Lemma markers_at_lookup (idx : list nat) (k : nat) :
  Forall (fun i => i < length segments)%nat idx ->
  markers_at idx !! k = idx !! k ≫= (fun i => marker_of <$> segments !! i).
Proof using Type.
  clear same_length.
  revert k. induction idx as [|i idx IH]; intros k Hidx; [done|].
  inversion Hidx as [|? ? Hi Hrest]; subst.
  destruct (lookup_lt_is_Some_2 segments i) as [seg Hseg]; [done|].
  unfold markers_at in *. simpl. rewrite Hseg. simpl.
  destruct k as [|k]; simpl; [by rewrite Hseg|]. by apply IH.
Qed.

(** Every marker of the output is the marker of a boundary segment, at the
    same rank. *)
Lemma detect_marker_lookup (out : list Marker) (k : nat) (m : Marker) :
  detect = Ok out -> out !! k = Some m ->
  exists i seg,
    spec_boundaries !! k = Some i /\ segments !! i = Some seg /\
    m = marker_of seg.
Proof using same_length.
  rewrite detect_refines_spec. intros [= <-] Hk.
  rewrite markers_at_lookup in Hk.
  - destruct (spec_boundaries !! k) as [i|] eqn:Hi; simpl in Hk; [|done].
    destruct (segments !! i) as [seg|] eqn:Hseg; simpl in Hk; [|done].
    exists i, seg. by simplify_eq.
  - apply Forall_forall. intros i Hi. rewrite <- same_length.
    by apply spec_boundaries_in_range.
Qed.

Lemma markers_at_length (idx : list nat) :
  (length (markers_at idx) <= length idx)%nat.
Proof using Type.
  clear same_length.
  unfold Timestamps.markers_at.
  induction idx as [|i idx IH]; simpl; [lia|].
  destruct (segments !! i); simpl.
  - apply le_n_S, IH.
  - apply Nat.le_le_succ_r, IH.
Qed.

Lemma spec_boundaries_length : (length spec_boundaries <= length embeddings)%nat.
Proof using Type.
  clear same_length.
  unfold spec_boundaries.
  etransitivity; [apply filter_length_le|]. by rewrite length_seq.
Qed.

Lemma spec_boundaries_head :
  (1 <= length embeddings)%nat ->
  spec_boundaries =
  0%nat :: List.filter spec_is_boundary (seq 1 (length embeddings - 1)).
Proof using Type.
  clear same_length.
  unfold spec_boundaries. destruct (length embeddings) as [|n]; [lia|].
  intros _. simpl. by rewrite Nat.sub_0_r.
Qed.

Lemma spec_is_boundary_iff (i : nat) (e_i e_prev : Embedding) :
  (1 <= i)%nat ->
  embeddings !! i = Some e_i -> embeddings !! (i - 1)%nat = Some e_prev ->
  spec_is_boundary i = true <-> (cos_sim e_i e_prev < SIMILARITY_THRESHOLD)%Q.
Proof using Type.
  clear same_length.
  intros Hi He Hp. destruct i as [|j]; [lia|].
  simpl in Hp. rewrite Nat.sub_0_r in Hp.
  unfold Timestamps.spec_is_boundary. rewrite He, Hp.
  destruct (Qlt_le_dec _ _) as [Hlt|Hle]; split; try done.
  intros Hlt. by apply Qle_not_lt in Hle.
Qed.

Lemma elem_of_spec_boundaries (i : nat) :
  i ∈ spec_boundaries <->
  (i < length embeddings)%nat /\ spec_is_boundary i = true.
Proof using Type.
  clear same_length.
  unfold spec_boundaries. rewrite list_elem_of_In, filter_In.
  rewrite <- list_elem_of_In, elem_of_seq. intuition lia.
Qed.

(** C1. For N >= 1 segments with their embeddings, the detector returns
    between 1 and N markers, and the first one is the marker of segment 0
    (the boundary of rank 0 is index 0). *)
Theorem detect_emits_between_1_and_N_first_is_segment_0 :
  (1 <= length segments)%nat ->
  exists out seg0,
    detect = Ok out /\
    (1 <= length out <= length segments)%nat /\
    segments !! 0%nat = Some seg0 /\
    out !! 0%nat = Some (marker_of seg0) /\
    spec_boundaries !! 0%nat = Some 0%nat.
Proof using same_length.
  intros HN.
  destruct (lookup_lt_is_Some_2 segments 0) as [seg0 Hseg0]; [lia|].
  exists (markers_at spec_boundaries), seg0.
  split; [apply detect_refines_spec|].
  pose proof (markers_at_length spec_boundaries) as Hlen.
  pose proof spec_boundaries_length as Hlen'.
  rewrite spec_boundaries_head in * by lia.
  unfold Timestamps.markers_at in *. simpl in *. rewrite Hseg0 in *. simpl in *.
  repeat split; try done; lia.
Qed.

(** The iteration at an index i >= 1 appends the marker of segment i when
    the similarity is below the threshold, and nothing otherwise. *)
Lemma body_appends_iff_below (i : nat) (e_i e_prev : Embedding)
    (seg : Segment) (timestamps : list Marker) :
  (1 <= i)%nat ->
  embeddings !! i = Some e_i -> embeddings !! (i - 1)%nat = Some e_prev ->
  segments !! i = Some seg ->
  ((cos_sim e_i e_prev < SIMILARITY_THRESHOLD)%Q ->
   body i timestamps = Ok (timestamps ++ [marker_of seg])) /\
  ((SIMILARITY_THRESHOLD <= cos_sim e_i e_prev)%Q ->
   body i timestamps = Ok timestamps).
Proof using Type.
  clear same_length.
  intros Hi He Hp Hseg. unfold Timestamps.body, getitem.
  destruct i as [|j]; [lia|]. simpl in *. rewrite He, Hp, Hseg. simpl.
  destruct (Qlt_le_dec _ _) as [Hlt|Hle]; simpl; split; intros H.
  - by rewrite label_prefix_total.
  - by apply Qle_not_lt in H.
  - by apply Qle_not_lt in Hle.
  - done.
Qed.

(** C2. The output is the list of markers of the boundary indices, and an
    index i >= 1 is a boundary exactly when the similarity of embedding i
    and embedding i-1 is strictly below the threshold; at or above the
    threshold, index i yields no marker: the iteration at i appends the
    marker of segment i in the first case and leaves the list as it is in
    the second. *)
Theorem marker_iff_similarity_below_threshold :
  detect = Ok (markers_at spec_boundaries) /\
  length (markers_at spec_boundaries) = length spec_boundaries /\
  forall (i : nat) (e_i e_prev : Embedding),
    (1 <= i)%nat ->
    embeddings !! i = Some e_i -> embeddings !! (i - 1)%nat = Some e_prev ->
    (i ∈ spec_boundaries <->
     (cos_sim e_i e_prev < SIMILARITY_THRESHOLD)%Q) /\
    ((SIMILARITY_THRESHOLD <= cos_sim e_i e_prev)%Q -> i ∉ spec_boundaries) /\
    exists seg,
      segments !! i = Some seg /\
      forall timestamps,
        ((cos_sim e_i e_prev < SIMILARITY_THRESHOLD)%Q ->
         body i timestamps = Ok (timestamps ++ [marker_of seg])) /\
        ((SIMILARITY_THRESHOLD <= cos_sim e_i e_prev)%Q ->
         body i timestamps = Ok timestamps).
Proof using same_length.
  split; [apply detect_refines_spec|]. split.
  { apply Nat.le_antisymm; [apply markers_at_length|].
    assert (Hall : Forall (fun i => i < length segments)%nat spec_boundaries).
    { apply Forall_forall. intros i Hi. rewrite <- same_length.
      by apply spec_boundaries_in_range. }
    apply Nat.nlt_ge. intros Hlt.
    destruct (lookup_lt_is_Some_2 spec_boundaries
                (length (markers_at spec_boundaries))) as [i Hi]; [done|].
    pose proof (markers_at_lookup spec_boundaries
                  (length (markers_at spec_boundaries)) Hall) as Hk.
    rewrite lookup_ge_None_2 in Hk by lia. rewrite Hi in Hk. simpl in Hk.
    rewrite Forall_forall in Hall.
    destruct (lookup_lt_is_Some_2 segments i) as [seg Hseg].
    { apply Hall. by eapply list_elem_of_lookup_2. }
    by rewrite Hseg in Hk. }
  intros i e_i e_prev Hi He Hp.
  pose proof (spec_is_boundary_iff i e_i e_prev Hi He Hp) as Hiff.
  pose proof (lookup_lt_Some _ _ _ He) as Hlt.
  rewrite elem_of_spec_boundaries. split; [intuition|]. split.
  - intros Hle [_ Hb]. apply Hiff in Hb. by apply Qle_not_lt in Hle.
  - destruct (lookup_lt_is_Some_2 segments i) as [seg Hseg]; [lia|].
    exists seg. split; [done|]. intros timestamps.
    by apply (body_appends_iff_below i e_i e_prev).
Qed.

Lemma body_step (i : nat) (timestamps timestamps' : list Marker) :
  (i < length embeddings)%nat ->
  body i timestamps = Ok timestamps' ->
  step (i, timestamps) (S i, timestamps').
Proof using Type.
  clear same_length.
  intros Hi. unfold Timestamps.body, getitem.
  destruct i as [|j]; simpl.
  - destruct (segments !! 0%nat) as [seg|] eqn:Hseg; simpl; [|done].
    destruct (label_prefix (text seg)) as [lab|] eqn:Hlab; simpl; [|done].
    intros [= <-]. by eapply step_first.
  - destruct (lookup_lt_is_Some_2 embeddings (S j)) as [e_i He]; [lia|].
    destruct (lookup_lt_is_Some_2 embeddings j) as [e_prev Hp]; [lia|].
    rewrite Nat.sub_0_r, He, Hp. simpl.
    destruct (Qlt_le_dec _ _) as [Hlt|Hle]; simpl.
    + destruct (segments !! S j) as [seg|] eqn:Hseg; simpl; [|done].
      destruct (label_prefix (text seg)) as [lab|] eqn:Hlab; simpl; [|done].
      intros [= <-]. eapply step_emit; eauto. simpl. by rewrite Nat.sub_0_r.
    + intros [= <-]. eapply step_skip; eauto.
      * simpl. by rewrite Nat.sub_0_r.
      * by apply Qle_not_lt.
Qed.

Lemma step_body (i j : nat) (timestamps timestamps' : list Marker) :
  step (i, timestamps) (j, timestamps') ->
  j = S i /\ body i timestamps = Ok timestamps'.
Proof using Type.
  clear same_length.
  unfold Timestamps.body, getitem.
  inversion 1 as [? seg lab Hseg Hlab|? ? e_i e_prev seg lab Hne He Hp Hlt Hseg Hlab
                  |? ? e_i e_prev Hne He Hp Hge]; subst; split; try done.
  - simpl. rewrite Hseg. simpl. by rewrite Hlab.
  - destruct i as [|i']; [done|]. simpl. simpl in Hp. rewrite He, Hp. simpl.
    destruct (Qlt_le_dec _ _) as [?|Hle]; simpl.
    + rewrite Hseg. simpl. by rewrite Hlab.
    + by apply Qle_not_lt in Hle.
  - destruct i as [|i']; [done|]. simpl. simpl in Hp. rewrite He, Hp. simpl.
    by destruct (Qlt_le_dec _ _).
Qed.

Lemma step_deterministic (s s1 s2 : nat * list Marker) :
  step s s1 -> step s s2 -> s1 = s2.
Proof using Type.
  clear same_length.
  destruct s as [i ts], s1 as [j1 ts1], s2 as [j2 ts2].
  intros [-> H1]%step_body [-> H2]%step_body. congruence.
Qed.

Lemma runs_deterministic (s : nat * list Marker) (out1 out2 : list Marker) :
  runs s out1 -> runs s out2 -> out1 = out2.
Proof using Type.
  clear same_length.
  intros H1. revert out2.
  induction H1 as [ts|s s' out Hlt Hstep Hruns IH]; intros out2 H2.
  - inversion H2 as [|? ? ? Hlt' ? ?]; subst; [done|]. simpl in Hlt'. lia.
  - inversion H2 as [|? s'' ? Hlt' Hstep' Hruns']; subst.
    + simpl in Hlt. lia.
    + apply IH. by rewrite (step_deterministic _ _ _ Hstep Hstep').
Qed.

Lemma for_range_runs (n i : nat) (timestamps out : list Marker) :
  (i + n = length embeddings)%nat ->
  for_range (seq i n) timestamps = Ok out -> runs (i, timestamps) out.
Proof using Type.
  clear same_length.
  revert i timestamps. induction n as [|n IH]; intros i ts Hlen; simpl.
  - intros [= <-]. replace i with (length embeddings) by lia. constructor.
  - destruct (body i ts) as [ts'|] eqn:Hbody; simpl; [|done].
    intros Hrest. eapply runs_step with (s' := (S i, ts')).
    + simpl. lia.
    + apply body_step; [lia|done].
    + apply IH; [lia|done].
Qed.

Lemma runs_for_range (s : nat * list Marker) (out : list Marker) :
  runs s out ->
  for_range (seq (fst s) (length embeddings - fst s)) (snd s) = Ok out.
Proof using Type.
  clear same_length.
  induction 1 as [ts|[i ts] [j ts'] out Hlt Hstep Hruns IH]; simpl in *.
  - by rewrite Nat.sub_diag.
  - apply step_body in Hstep as [-> Hbody].
    replace (length embeddings - i)%nat with (S (length embeddings - S i)) by lia.
    simpl. by rewrite Hbody.
Qed.

(** The function and the transition system are the same program. *)
Lemma detect_runs (out : list Marker) :
  detect = Ok out <-> runs (0%nat, []) out.
Proof using Type.
  clear same_length.
  unfold Timestamps.detect. split.
  - apply for_range_runs. lia.
  - intros Hruns%runs_for_range. simpl in Hruns.
    by rewrite Nat.sub_0_r in Hruns.
Qed.

(** C7. Two runs of the detector on the same segments and embeddings end
    with the same list of markers, the one the function computes. *)
Theorem detect_twice_same_markers (out1 out2 : list Marker) :
  runs (0%nat, []) out1 -> runs (0%nat, []) out2 ->
  out1 = out2 /\ detect = Ok out1.
Proof using Type.
  clear same_length.
  intros H1 H2. split.
  - by eapply runs_deterministic.
  - by apply detect_runs.
Qed.

(** C3, as amended. The label of every emitted marker is built from the
    segment's text with the whitespace at both ends removed: the part of
    the stripped text before its first full stop, cut to at most 60
    characters (exactly 60 when that part is longer), then the ellipsis.
    An empty text gives the ellipsis alone.  Here [stripped] is the text
    without the longest runs of whitespace at its two ends, [sentence] has
    no full stop and is all of [stripped] or is followed by one, and
    [kept] is a prefix of [sentence]. *)
Theorem label_is_stripped_first_sentence
    (out : list Marker) (k : nat) (m : Marker) :
  detect = Ok out -> out !! k = Some m ->
  exists i seg,
    spec_boundaries !! k = Some i /\ segments !! i = Some seg /\
    let stripped := PyStr.strip (text seg) in
    let sentence := List.hd "" (PyStr.split "."%char stripped) in
    let kept := PyStr.slice_to 60 sentence in
    label m = kept +:+ "..." /\
    (exists l r,
       text seg = l +:+ stripped +:+ r /\
       PyStr.all_space l /\ PyStr.all_space r /\
       (stripped = "" \/
        (exists c t, stripped = String c t /\ PyStr.isspace c = false) /\
        (exists p c, stripped = p +:+ String c "" /\
                     PyStr.isspace c = false))) /\
    ~ In "."%char (String.list_ascii_of_string sentence) /\
    (stripped = sentence \/
     exists r, stripped = sentence +:+ String "."%char r) /\
    (exists r, sentence = kept +:+ r) /\
    (String.length kept <= 60)%nat /\
    ((60 < String.length sentence)%nat -> String.length kept = 60%nat) /\
    ((String.length sentence <= 60)%nat -> kept = sentence) /\
    (text seg = "" -> label m = "...").
Proof using same_length.
  intros Hout Hk.
  destruct (detect_marker_lookup out k m Hout Hk) as (i & seg & Hi & Hseg & ->).
  exists i, seg. split; [done|]. split; [done|]. cbv zeta.
  destruct (split_hd "."%char (PyStr.strip (text seg))) as [Hno Hcut].
  split; [reflexivity|]. split; [apply strip_spec|].
  split; [done|]. split; [done|].
  split; [eexists; apply slice_to_prefix|].
  rewrite slice_to_length.
  split; [lia|]. split; [lia|]. split; [apply slice_to_all|].
  intros Hempty. unfold marker_of. cbn [label]. by rewrite Hempty.
Qed.

(** C4, as amended. The time of every emitted marker of a segment with a
    non-negative start is the minutes floor(start / 60), in decimal and
    zero-padded to at least two digits, a colon, and the seconds
    floor(start mod 60) as exactly two digits.  The minutes take exactly
    two digits when start < 6000, so that the time has the form MM:SS, and
    three or more, unpadded, from 6000 on. *)
Theorem time_is_minutes_colon_seconds
    (out : list Marker) (k : nat) (m : Marker) :
  detect = Ok out -> out !! k = Some m ->
  exists i seg,
    spec_boundaries !! k = Some i /\ segments !! i = Some seg /\
    ((0 <= start seg)%Q ->
     let minutes := Qfloor (start seg / 60) in
     let seconds := Qfloor (start seg - 60 * inject_Z minutes) in
     0 <= minutes /\ 0 <= seconds < 60 /\
     time m = PyStr.format_02d minutes +:+ ":" +:+ PyStr.two_digits seconds /\
     ((start seg < 6000)%Q ->
      PyStr.format_02d minutes = PyStr.two_digits minutes /\
      PyStr.is_MM_SS (time m) = true) /\
     ((6000 <= start seg)%Q ->
      PyStr.format_02d minutes = pretty minutes /\
      (3 <= String.length (pretty minutes))%nat)).
Proof using same_length.
  intros Hout Hk.
  destruct (detect_marker_lookup out k m Hout Hk) as (i & seg & Hi & Hseg & ->).
  exists i, seg. split; [done|]. split; [done|]. intros Hstart. cbv zeta.
  destruct (seconds_range (start seg)) as [Hsec Hsec'].
  unfold marker_of, fmt_time. cbn [time]. rewrite minutes_floor, Hsec' in *.
  unfold PyFloat.mod_ in *.
  set (minutes := Qfloor (start seg / 60)) in *.
  set (seconds := Qfloor (start seg - 60 * inject_Z minutes)) in *.
  assert (Hmin : 0 <= minutes).
  { unfold minutes. rewrite <- (Qfloor_Z 0). apply Qfloor_resp_le.
    apply Qle_shift_div_l; [done|]. change (inject_Z 0) with 0%Q. lra. }
  split; [done|]. split; [done|].
  rewrite (format_02d_small seconds) by lia.
  split; [done|]. split.
  - intros Hlt.
    assert (0 <= minutes < 100) as Hm.
    { apply (minutes_range (start seg) 0 100).
      - by change (inject_Z (60 * 0)) with 0%Q.
      - by change (inject_Z (60 * 100)) with 6000%Q. }
    rewrite (format_02d_small minutes) by done.
    split; [done|]. apply two_digits_MM_SS; lia.
  - intros Hge. apply format_02d_large.
    destruct (Z_lt_le_dec minutes 100) as [Hlt|?]; [|done].
    exfalso.
    assert (HF : (inject_Z minutes <= 99)%Q).
    { change 99%Q with (inject_Z 99). rewrite <- Zle_Qle. lia. }
    pose proof (Qlt_floor (start seg / 60)) as Hfl.
    rewrite inject_Z_plus in Hfl. change (inject_Z 1) with 1%Q in Hfl.
    assert (Hx : (start seg == 60 * (start seg / 60))%Q) by (field; done).
    fold minutes in Hfl. clearbody minutes.
    set (y := (start seg / 60)%Q) in *. lra.
Qed.

End detector_facts.

(** *** Concrete runs *)

Lemma example_detect :
  detect example_sim example_segments [0; 1; 2]%nat = Ok example_markers.
Proof. vm_compute. reflexivity. Qed.

Lemma detect_emits_between_1_and_N_first_is_segment_0_witness :
  exists out seg0,
    detect example_sim example_segments [0; 1; 2]%nat = Ok out /\
    (1 <= length out <= length example_segments)%nat /\
    example_segments !! 0%nat = Some seg0 /\
    out !! 0%nat = Some (marker_of seg0) /\
    spec_boundaries example_sim [0; 1; 2]%nat !! 0%nat = Some 0%nat.
Proof.
  apply (detect_emits_between_1_and_N_first_is_segment_0
           example_sim example_segments [0; 1; 2]%nat).
  - reflexivity.
  - simpl. lia.
Defined.

Lemma marker_iff_similarity_below_threshold_witness :
  2%nat ∈ spec_boundaries example_sim [0; 1; 2]%nat /\
  1%nat ∉ spec_boundaries example_sim [0; 1; 2]%nat.
Proof.
  pose proof (marker_iff_similarity_below_threshold
                example_sim example_segments [0; 1; 2]%nat eq_refl)
    as (_ & _ & Hiff).
  split.
  - apply (Hiff 2%nat 2%nat 1%nat); [lia|reflexivity|reflexivity|].
    vm_compute. reflexivity.
  - refine (proj1 (proj2 (Hiff 1%nat 1%nat 0%nat _ eq_refl eq_refl)) _);
      [lia|]. vm_compute. discriminate.
Defined.

Lemma detect_twice_same_markers_witness :
  example_markers = example_markers /\
  detect example_sim example_segments [0; 1; 2]%nat = Ok example_markers.
Proof.
  apply (detect_twice_same_markers example_sim example_segments
           [0; 1; 2]%nat example_markers example_markers);
    apply detect_runs, example_detect.
Defined.

Lemma label_is_stripped_first_sentence_witness :
  exists i seg,
    spec_boundaries example_sim [0; 1; 2]%nat !! 1%nat = Some i /\
    example_segments !! i = Some seg /\
    let stripped := PyStr.strip (text seg) in
    let sentence := List.hd "" (PyStr.split "."%char stripped) in
    let kept := PyStr.slice_to 60 sentence in
    "Now let's talk about files..." = kept +:+ "..." /\
    (exists l r,
       text seg = l +:+ stripped +:+ r /\
       PyStr.all_space l /\ PyStr.all_space r /\
       (stripped = "" \/
        (exists c t, stripped = String c t /\ PyStr.isspace c = false) /\
        (exists p c, stripped = p +:+ String c "" /\
                     PyStr.isspace c = false))) /\
    ~ In "."%char (String.list_ascii_of_string sentence) /\
    (stripped = sentence \/
     exists r, stripped = sentence +:+ String "."%char r) /\
    (exists r, sentence = kept +:+ r) /\
    (String.length kept <= 60)%nat /\
    ((60 < String.length sentence)%nat -> String.length kept = 60%nat) /\
    ((String.length sentence <= 60)%nat -> kept = sentence) /\
    (text seg = "" -> "Now let's talk about files..." = "...").
Proof.
  apply (label_is_stripped_first_sentence example_sim example_segments
           [0; 1; 2]%nat eq_refl example_markers 1%nat
           {| time := "00:40"; label := "Now let's talk about files..." |}).
  - apply example_detect.
  - reflexivity.
Defined.

Lemma time_is_minutes_colon_seconds_witness :
  exists i seg,
    spec_boundaries example_sim [0; 1; 2]%nat !! 1%nat = Some i /\
    example_segments !! i = Some seg /\
    ((0 <= start seg)%Q ->
     let minutes := Qfloor (start seg / 60) in
     let seconds := Qfloor (start seg - 60 * inject_Z minutes) in
     0 <= minutes /\ 0 <= seconds < 60 /\
     "00:40" = PyStr.format_02d minutes +:+ ":" +:+ PyStr.two_digits seconds /\
     ((start seg < 6000)%Q ->
      PyStr.format_02d minutes = PyStr.two_digits minutes /\
      PyStr.is_MM_SS "00:40" = true) /\
     ((6000 <= start seg)%Q ->
      PyStr.format_02d minutes = pretty minutes /\
      (3 <= String.length (pretty minutes))%nat)).
Proof.
  apply (time_is_minutes_colon_seconds example_sim example_segments
           [0; 1; 2]%nat eq_refl example_markers 1%nat
           {| time := "00:40"; label := "Now let's talk about files..." |}).
  - apply example_detect.
  - reflexivity.
Defined.

(** *** Where the claims as worded fail *)

(** C3 as worded: a text that starts with a space.  The detector removes
    the space; the text cut at its first full stop keeps it. *)
Lemma label_drops_leading_space :
  let seg := {| start := 0; text := " Hi there. Bye" |} in
  detect (fun _ _ : unit => 1%Q) [seg] [tt] =
    Ok [ {| time := "00:00"; label := "Hi there..." |} ] /\
  spec_label (text seg) = " Hi there..." /\
  "Hi there..." <> spec_label (text seg).
Proof. vm_compute. repeat split; discriminate. Qed.

(** C4 as worded: a segment that starts 100 minutes into the video.  The
    minutes take three digits, so the time is not of the form MM:SS. *)
Lemma time_of_minute_100_has_three_digits :
  let seg := {| start := 6000; text := "Late." |} in
  exists m,
    detect (fun _ _ : unit => 1%Q) [seg] [tt] = Ok [m] /\
    time m = "100:00" /\
    PyStr.is_MM_SS (time m) = false /\
    String.length (time m) = 6%nat.
Proof.
  eexists. split; [vm_compute; reflexivity|]. vm_compute.
  by repeat split.
Qed.

End TimestampsFacts.

(** * Properties of the matcher: fuel and empty matches *)

Module ReFacts.

Import Re.

Section fuel.

Variable ignorecase : bool.

Lemma repeat_plus_ext one (fuel : nat) (st : mstate)
    (k1 k2 : mstate -> option mstate) :
  respects one -> (forall st', k1 st' = k2 st') ->
  repeat_plus one fuel st k1 = repeat_plus one fuel st k2.
Proof.
  intros Hone Hk. revert st.
  induction fuel as [|fuel IH]; intros st; simpl; [done|].
  apply Hone. intros st1. rewrite IH, Hk. done.
Qed.

Lemma run_ext (r : regex) : respects (run ignorecase r).
Proof.
  induction r as [|c|cs| | | |cs|r1 IH1 r2 IH2|r1 IH1 r2 IH2|r1 IH1|n r1 IH1|n];
    intros st k1 k2 Hk; simpl;
    try (by repeat case_match; rewrite ?Hk).
  - apply IH1. intros st1. by apply IH2.
  - by rewrite (IH1 st k1 k2 Hk), (IH2 st k1 k2 Hk).
  - exact (repeat_plus_ext (run ignorecase r1) (S (String.length (rest st)))
             st k1 k2 IH1 Hk).
  - apply IH1. intros st1. apply Hk.
Qed.

(** Any fuel above the number of characters left gives the same result:
    the repetition never stops for lack of fuel. *)
Lemma repeat_plus_fuel one (fuel1 fuel2 : nat) (st : mstate)
    (k : mstate -> option mstate) :
  respects one ->
  (String.length (rest st) < fuel1)%nat ->
  (String.length (rest st) < fuel2)%nat ->
  repeat_plus one fuel1 st k = repeat_plus one fuel2 st k.
Proof.
  intros Hone. revert fuel2 st.
  induction fuel1 as [|fuel1 IH]; intros fuel2 st H1 H2; [lia|].
  destruct fuel2 as [|fuel2]; [lia|]. simpl.
  apply Hone. intros st1.
  destruct (Nat.ltb_spec (String.length (rest st1)) (String.length (rest st)));
    [|done].
  rewrite (IH fuel2 st1) by lia. done.
Qed.

Lemma sub_from_fuel (r : regex) (template : list piece)
    (fuel1 fuel2 : nat) (before : option ascii) (s : string) :
  (String.length s < fuel1)%nat -> (String.length s < fuel2)%nat ->
  sub_from ignorecase r template fuel1 before s =
  sub_from ignorecase r template fuel2 before s.
Proof.
  revert fuel2 before s.
  induction fuel1 as [|fuel1 IH]; intros fuel2 before s H1 H2; [lia|].
  destruct fuel2 as [|fuel2]; [lia|]. simpl.
  assert (Hskip :
    match s with
    | String c s' =>
        String c (sub_from ignorecase r template fuel1 (Some c) s')
    | EmptyString => EmptyString
    end =
    match s with
    | String c s' =>
        String c (sub_from ignorecase r template fuel2 (Some c) s')
    | EmptyString => EmptyString
    end).
  { destruct s as [|c s']; [done|]. simpl in *. f_equal. apply IH; lia. }
  rewrite Hskip.
  destruct (match_at ignorecase r before s) as [st|]; [|done].
  destruct (Nat.ltb_spec (String.length (rest st)) (String.length s));
    [|done].
  f_equal. apply IH; lia.
Qed.

Lemma split_from_fuel (r : regex) (fuel1 fuel2 : nat)
    (before : option ascii) (cur : list ascii) (s : string) :
  (String.length s < fuel1)%nat -> (String.length s < fuel2)%nat ->
  split_from ignorecase r fuel1 before cur s =
  split_from ignorecase r fuel2 before cur s.
Proof.
  revert fuel2 before cur s.
  induction fuel1 as [|fuel1 IH]; intros fuel2 before cur s H1 H2; [lia|].
  destruct fuel2 as [|fuel2]; [lia|]. simpl.
  assert (Hskip :
    match s with
    | String c s' =>
        split_from ignorecase r fuel1 (Some c) (c :: cur) s'
    | EmptyString => [String.string_of_list_ascii (rev cur)]
    end =
    match s with
    | String c s' =>
        split_from ignorecase r fuel2 (Some c) (c :: cur) s'
    | EmptyString => [String.string_of_list_ascii (rev cur)]
    end).
  { destruct s as [|c s']; [done|]. simpl in *. apply IH; lia. }
  rewrite Hskip.
  destruct (match_at ignorecase r before s) as [st|]; [|done].
  destruct (Nat.ltb_spec (String.length (rest st)) (String.length s));
    [|done].
  f_equal. apply IH; lia.
Qed.

(** *** No pattern of the program matches the empty string *)

Lemma read_shorter (p : ascii -> bool) (st st' : mstate) :
  read p st = Some st' ->
  (String.length (rest st') < String.length (rest st))%nat.
Proof.
  unfold read. destruct (rest st) as [|c s'] eqn:Hrest; [done|].
  destruct (p c); [|done]. intros [= <-]. simpl. lia.
Qed.

Lemma read_string_le (s : string) (st st' : mstate) :
  read_string ignorecase s st = Some st' ->
  (String.length (rest st') <= String.length (rest st))%nat.
Proof.
  revert st. induction s as [|c s IH]; intros st; simpl.
  - by intros [= <-].
  - destruct (read _ st) as [st1|] eqn:Hread; [|done].
    intros Hs%IH. apply read_shorter in Hread. lia.
Qed.

Lemma repeat_plus_hands_over (strict : bool) one (fuel : nat) :
  hands_over strict one -> hands_over strict (repeat_plus one fuel).
Proof.
  intros Hone. induction fuel as [|fuel IH]; intros st k out; simpl; [done|].
  intros (st1 & Hk & Hle & Hlt)%Hone.
  destruct (Nat.ltb_spec (String.length (rest st1)) (String.length (rest st)))
    as [Hshort|_].
  - destruct (repeat_plus one fuel st1 k) as [out'|] eqn:Hrep; simpl in Hk.
    + injection Hk as ->. apply IH in Hrep as (st2 & Hk2 & Hle2 & _).
      exists st2. repeat split; [done|lia|lia].
    + exists st1. repeat split; [done|lia|lia].
  - by exists st1.
Qed.

Lemma run_hands_over (r : regex) :
  hands_over (nonempty r) (run ignorecase r).
Proof.
  induction r as [|c|cs| | | |cs|r1 IH1 r2 IH2|r1 IH1 r2 IH2|r1 IH1|n r1 IH1|n];
    intros st k out; simpl.
  - intros Hk. exists st. by repeat split.
  - destruct (read _ st) as [st1|] eqn:Hread; [|done]. intros Hk.
    apply read_shorter in Hread. exists st1. repeat split; [done|lia|lia].
  - destruct (read _ st) as [st1|] eqn:Hread; [|done]. intros Hk.
    apply read_shorter in Hread. exists st1. repeat split; [done|lia|lia].
  - destruct (read _ st) as [st1|] eqn:Hread; [|done]. intros Hk.
    apply read_shorter in Hread. exists st1. repeat split; [done|lia|lia].
  - destruct (read _ st) as [st1|] eqn:Hread; [|done]. intros Hk.
    apply read_shorter in Hread. exists st1. repeat split; [done|lia|lia].
  - destruct (at_boundary st); [|done]. intros Hk. exists st. by repeat split.
  - destruct (prev st) as [c|]; [|done].
    destruct (mem ignorecase c cs); [|done].
    intros Hk. exists st. by repeat split.
  - intros (st1 & (st2 & Hk & Hle2 & Hlt2)%IH2 & Hle1 & Hlt1)%IH1.
    exists st2. repeat split; [done|lia|].
    intros [H|H]%orb_true_iff; [specialize (Hlt1 H)|specialize (Hlt2 H)]; lia.
  - destruct (run ignorecase r1 st k) as [out'|] eqn:H1; simpl.
    + intros [= ->]. apply IH1 in H1 as (st1 & Hk & Hle & Hlt).
      exists st1. repeat split; [done|lia|].
      intros [H _]%andb_true_iff. by apply Hlt.
    + intros (st1 & Hk & Hle & Hlt)%IH2.
      exists st1. repeat split; [done|lia|].
      intros [_ H]%andb_true_iff. by apply Hlt.
  - apply (repeat_plus_hands_over (nonempty r1) (run ignorecase r1)
             (S (String.length (rest st))) IH1).
  - intros (st1 & Hk & Hle & Hlt)%IH1.
    eexists. split; [apply Hk|]. simpl. by split.
  - destruct (group n (caps st)) as [s|]; [|done].
    destruct (read_string ignorecase s st) as [st1|] eqn:Hread; [|done].
    intros Hk. apply read_string_le in Hread. exists st1. by repeat split.
Qed.

(** A match of a pattern that cannot be empty reads something. *)
Lemma match_at_reads (r : regex) (before : option ascii) (s : string)
    (st : mstate) :
  nonempty r = true ->
  match_at ignorecase r before s = Some st ->
  (String.length (rest st) < String.length s)%nat.
Proof.
  intros Hr (st1 & [= ->] & _ & Hlt)%run_hands_over. by apply Hlt.
Qed.

Lemma sub_from_S (r : regex) (template : list piece) (fuel : nat)
    (before : option ascii) (s : string) :
  sub_from ignorecase r template (S fuel) before s =
  let skip :=
    match s with
    | String c s' =>
        String c (sub_from ignorecase r template fuel (Some c) s')
    | EmptyString => EmptyString
    end in
  match match_at ignorecase r before s with
  | Some st =>
      if (String.length (rest st) <? String.length s)%nat
      then expand template (caps st) +:+
           sub_from ignorecase r template fuel (prev st) (rest st)
      else skip
  | None => skip
  end.
Proof. reflexivity. Qed.

(** [re.sub], one match at a time: at a match that reads something, the
    expanded template and the substitution of what follows; elsewhere the
    next character and the substitution of what follows. *)
Lemma sub_from_step (r : regex) (template : list piece)
    (before : option ascii) (s : string) :
  sub_from ignorecase r template (S (String.length s)) before s =
  let skip :=
    match s with
    | String c s' =>
        String c (sub_from ignorecase r template
                    (S (String.length s')) (Some c) s')
    | EmptyString => EmptyString
    end in
  match match_at ignorecase r before s with
  | Some st =>
      if (String.length (rest st) <? String.length s)%nat
      then expand template (caps st) +:+
           sub_from ignorecase r template
             (S (String.length (rest st))) (prev st) (rest st)
      else skip
  | None => skip
  end.
Proof.
  etransitivity; [apply sub_from_S|]. cbv zeta.
  assert (Hskip :
    match s with
    | String c s' =>
        String c (sub_from ignorecase r template (String.length s) (Some c) s')
    | EmptyString => EmptyString
    end =
    match s with
    | String c s' =>
        String c (sub_from ignorecase r template
                    (S (String.length s')) (Some c) s')
    | EmptyString => EmptyString
    end).
  { by destruct s. }
  rewrite Hskip.
  destruct (match_at ignorecase r before s) as [st|]; [|done].
  destruct (Nat.ltb_spec (String.length (rest st)) (String.length s));
    [|done].
  f_equal. apply sub_from_fuel; lia.
Qed.

(** For a pattern that cannot match the empty string, every match is
    replaced. *)
Lemma sub_from_step_nonempty (r : regex) (template : list piece)
    (before : option ascii) (s : string) :
  nonempty r = true ->
  sub_from ignorecase r template (S (String.length s)) before s =
  match match_at ignorecase r before s with
  | Some st =>
      expand template (caps st) +:+
      sub_from ignorecase r template
        (S (String.length (rest st))) (prev st) (rest st)
  | None =>
      match s with
      | String c s' =>
          String c (sub_from ignorecase r template
                      (S (String.length s')) (Some c) s')
      | EmptyString => EmptyString
      end
  end.
Proof.
  intros Hr. rewrite sub_from_step. cbv zeta.
  destruct (match_at ignorecase r before s) as [st|] eqn:Hm; [|done].
  apply match_at_reads in Hm; [|done].
  by destruct (Nat.ltb_spec (String.length (rest st)) (String.length s));
    [|lia].
Qed.

End fuel.

End ReFacts.

(** * Properties of the pipeline *)

Module MainFacts.

Import Main PyFacts.

(** ** The steps, one at a time *)

Section pipeline_facts.

Variable write_audiofile : string -> write_outcome.
Variable asr_pipeline : string -> result string.
Variable summarizer : string -> Z -> Z -> result string.

Abbreviation extract_audio := (extract_audio write_audiofile).
Abbreviation transcribe_audio := (transcribe_audio asr_pipeline).
Abbreviation summarize_text := (summarize_text summarizer).
Abbreviation summarize_video :=
  (summarize_video write_audiofile asr_pipeline summarizer).

Ltac run_step :=
  unfold Main.extract_audio, Main.transcribe_audio, Main.summarize_text,
    call_write_audiofile, call_asr_pipeline, call_summarizer,
    try_except, bind, ret, print, emit; simpl.

Lemma extract_audio_written (video_path : string) (w : World) :
  write_audiofile video_path = Written ->
  extract_audio video_path w =
  (Ok (Some temp_audio),
   {| files := files w ∪ {[temp_audio]};
      trace := trace w ++ [EvWriteAudio video_path temp_audio] |}).
Proof. intros H. run_step. by rewrite H. Qed.

Lemma extract_audio_failed (video_path : string) (w : World)
    (e : exc) (file_left : bool) :
  write_audiofile video_path = WriteFailed e file_left ->
  extract_audio video_path w =
  (Ok None,
   {| files := if file_left then files w ∪ {[temp_audio]} else files w;
      trace := trace w ++
        [EvWriteAudio video_path temp_audio;
         EvPrint ("Audio extraction failed: " +:+ exc_str e)] |}).
Proof. intros H. run_step. rewrite H. simpl. by rewrite <- app_assoc. Qed.

Lemma transcribe_audio_ok (audio_path raw_text : string) (w : World) :
  asr_pipeline audio_path = Ok raw_text ->
  transcribe_audio audio_path w =
  (Ok (Some (_correct_transcript raw_text)),
   {| files := files w; trace := trace w ++ [EvTranscribe audio_path] |}).
Proof. intros H. run_step. by rewrite H. Qed.

Lemma transcribe_audio_failed (audio_path : string) (e : exc) (w : World) :
  asr_pipeline audio_path = Raise e ->
  transcribe_audio audio_path w =
  (Ok None,
   {| files := files w;
      trace := trace w ++
        [EvTranscribe audio_path;
         EvPrint ("Transcription failed: " +:+ exc_str e)] |}).
Proof. intros H. run_step. rewrite H. simpl. by rewrite <- app_assoc. Qed.

Lemma summarize_text_short (text : option string) (w : World) :
  truthy text = false \/ (exists t, text = Some t /\ word_count t < 50) ->
  summarize_text text w = (Ok text, w).
Proof.
  intros Hshort. unfold Main.summarize_text.
  destruct text as [t|]; [|done].
  assert (negb (truthy (Some t)) || (word_count t <? 50) = true) as ->; [|done].
  destruct Hshort as [->|(t' & [= <-] & Hlt)]; [done|].
  apply orb_true_iff. right. by apply Z.ltb_lt.
Qed.

Lemma summarize_text_long_ok (t summary : string) (w : World) :
  50 <= word_count t ->
  summarizer t (max_len_of (word_count t)) (min_len_of (word_count t))
    = Ok summary ->
  summarize_text (Some t) w =
  (Ok (Some (_clean_summary summary)),
   {| files := files w;
      trace := trace w ++
        [EvSummarize t (max_len_of (word_count t))
           (min_len_of (word_count t))] |}).
Proof.
  intros Hlen Hsum. unfold Main.summarize_text.
  assert (truthy (Some t) = true) as ->.
  { destruct t; [|done]. vm_compute in Hlen. by destruct Hlen. }
  destruct (Z.ltb_spec (word_count t) 50) as [?|_]; [lia|]. simpl.
  run_step. fold (max_len_of (word_count t)).
  fold (min_len_of (word_count t)). by rewrite Hsum.
Qed.

Lemma summarize_text_long_failed (t : string) (e : exc) (w : World) :
  50 <= word_count t ->
  summarizer t (max_len_of (word_count t)) (min_len_of (word_count t))
    = Raise e ->
  summarize_text (Some t) w =
  (Ok (Some (_fallback_summary t)),
   {| files := files w;
      trace := trace w ++
        [EvSummarize t (max_len_of (word_count t))
           (min_len_of (word_count t));
         EvPrint ("Summarization failed: " +:+ exc_str e)] |}).
Proof.
  intros Hlen Hsum. unfold Main.summarize_text.
  assert (truthy (Some t) = true) as ->.
  { destruct t; [|done]. vm_compute in Hlen. by destruct Hlen. }
  destruct (Z.ltb_spec (word_count t) 50) as [?|_]; [lia|]. simpl.
  run_step. fold (max_len_of (word_count t)).
  fold (min_len_of (word_count t)). rewrite Hsum. simpl.
  by rewrite <- app_assoc.
Qed.

#[local] Arguments Main.summarize_text : simpl never.
#[local] Arguments Main.transcribe_audio : simpl never.
#[local] Arguments Main.extract_audio : simpl never.

Lemma temp_audio_written (fs : gset string) : temp_audio ∈ fs ∪ {[temp_audio]}.
Proof. set_solver. Qed.

Lemma temp_audio_removed (fs : gset string) :
  temp_audio ∉ (fs ∪ {[temp_audio]}) ∖ {[temp_audio]}.
Proof. rewrite elem_of_difference, elem_of_singleton. tauto. Qed.

Lemma long_text_truthy (t : string) :
  50 <= word_count t -> exists c t', t = String c t'.
Proof.
  destruct t as [|c t']; [|by eauto].
  intros Hlen. vm_compute in Hlen. by destruct Hlen.
Qed.

(** ** The whole run, by the step that fails *)

Lemma summarize_video_extraction_failed (video_path : string) (w : World)
    (e : exc) (file_left : bool) :
  write_audiofile video_path = WriteFailed e file_left ->
  summarize_video video_path w =
  (Ok None,
   {| files := if file_left then files w ∪ {[temp_audio]} else files w;
      trace := trace w ++
        [EvPrint line_start; EvPrint line_step1;
         EvWriteAudio video_path temp_audio;
         EvPrint ("Audio extraction failed: " +:+ exc_str e)] |}).
Proof.
  intros H. unfold Main.summarize_video, bind at 1 2 3, print, emit. simpl.
  rewrite (extract_audio_failed _ _ _ _ H). simpl.
  by rewrite <- !app_assoc.
Qed.

Lemma summarize_video_transcription_failed (video_path : string) (w : World)
    (e : exc) :
  write_audiofile video_path = Written ->
  asr_pipeline temp_audio = Raise e ->
  summarize_video video_path w =
  (Ok None,
   {| files := (files w ∪ {[temp_audio]}) ∖ {[temp_audio]};
      trace := trace w ++
        [EvPrint line_start; EvPrint line_step1;
         EvWriteAudio video_path temp_audio; EvPrint line_step2;
         EvTranscribe temp_audio;
         EvPrint ("Transcription failed: " +:+ exc_str e);
         EvRemove temp_audio] |}).
Proof.
  intros Hw Ha. unfold Main.summarize_video, bind at 1 2 3, print, emit. simpl.
  rewrite (extract_audio_written _ _ Hw). simpl.
  unfold bind at 1 2. simpl.
  rewrite (transcribe_audio_failed _ _ _ Ha). simpl.
  unfold bind, os_remove. simpl.
  rewrite decide_True by apply temp_audio_written. simpl.
  by rewrite <- !app_assoc.
Qed.

Lemma summarize_video_transcribed (video_path raw_text : string) (w : World) :
  write_audiofile video_path = Written ->
  asr_pipeline temp_audio = Ok raw_text ->
  _correct_transcript raw_text <> "" ->
  summarize_video video_path w =
  let text := _correct_transcript raw_text in
  let '(r, w') :=
    summarize_text (Some text)
      {| files := (files w ∪ {[temp_audio]}) ∖ {[temp_audio]};
         trace := trace w ++
           [EvPrint line_start; EvPrint line_step1;
            EvWriteAudio video_path temp_audio; EvPrint line_step2;
            EvTranscribe temp_audio; EvRemove temp_audio;
            EvPrint line_step3] |} in
  (match r with
   | Ok summary => Ok (Some {| transcription := text; summary := summary |})
   | Raise e => Raise e
   end, w').
Proof.
  intros Hw Ha Hne. unfold Main.summarize_video, bind at 1 2 3, print, emit.
  simpl. rewrite (extract_audio_written _ _ Hw). simpl.
  unfold bind at 1 2. simpl.
  rewrite (transcribe_audio_ok _ _ _ Ha). simpl.
  unfold bind at 1, os_remove. simpl.
  rewrite decide_True by apply temp_audio_written. simpl.
  destruct (_correct_transcript raw_text) as [|c t']; [done|].
  unfold bind. simpl. rewrite <- !app_assoc. simpl.
  unfold line_start, line_step1, line_step2, line_step3.
  match goal with |- context [Main.summarize_text ?f ?v ?w0] =>
    by destruct (Main.summarize_text f v w0) as [[summary|e] w'] end.
Qed.

Lemma summarize_video_empty_transcript (video_path raw_text : string)
    (w : World) :
  write_audiofile video_path = Written ->
  asr_pipeline temp_audio = Ok raw_text ->
  _correct_transcript raw_text = "" ->
  summarize_video video_path w =
  (Ok None,
   {| files := (files w ∪ {[temp_audio]}) ∖ {[temp_audio]};
      trace := trace w ++
        [EvPrint line_start; EvPrint line_step1;
         EvWriteAudio video_path temp_audio; EvPrint line_step2;
         EvTranscribe temp_audio; EvRemove temp_audio] |}).
Proof.
  intros Hw Ha Hempty. unfold Main.summarize_video, bind at 1 2 3, print, emit.
  simpl. rewrite (extract_audio_written _ _ Hw). simpl.
  unfold bind at 1 2. simpl.
  rewrite (transcribe_audio_ok _ _ _ Ha). simpl.
  unfold bind at 1, os_remove. simpl.
  rewrite decide_True by apply temp_audio_written. simpl.
  rewrite Hempty. unfold ret. by rewrite <- !app_assoc.
Qed.

Lemma summarize_video_summarization_failed (video_path raw_text : string)
    (w : World) (e : exc) :
  let text := _correct_transcript raw_text in
  write_audiofile video_path = Written ->
  asr_pipeline temp_audio = Ok raw_text ->
  50 <= word_count text ->
  summarizer text (max_len_of (word_count text)) (min_len_of (word_count text))
    = Raise e ->
  summarize_video video_path w =
  (Ok (Some {| transcription := text;
               summary := Some (_fallback_summary text) |}),
   {| files := (files w ∪ {[temp_audio]}) ∖ {[temp_audio]};
      trace := trace w ++
        [EvPrint line_start; EvPrint line_step1;
         EvWriteAudio video_path temp_audio; EvPrint line_step2;
         EvTranscribe temp_audio; EvRemove temp_audio; EvPrint line_step3;
         EvSummarize text (max_len_of (word_count text))
           (min_len_of (word_count text));
         EvPrint ("Summarization failed: " +:+ exc_str e)] |}).
Proof.
  intros text Hw Ha Hlen Hs.
  rewrite (summarize_video_transcribed _ _ _ Hw Ha).
  - cbv zeta. fold text.
    rewrite (summarize_text_long_failed _ _ _ Hlen Hs). simpl.
    by rewrite <- !app_assoc.
  - fold text. by destruct (long_text_truthy _ Hlen) as (c & t' & ->).
Qed.

(** [summarize_text] leaves the files alone and does not raise. *)
Lemma summarize_text_frame (text : option string) (w : World) :
  files (snd (summarize_text text w)) = files w /\
  exists r, fst (summarize_text text w) = Ok r.
Proof.
  unfold Main.summarize_text. destruct text as [t|]; [|by eauto].
  destruct (negb _ || _); [by eauto|].
  unfold try_except, bind, ret, print, emit, call_summarizer. simpl.
  destruct (summarizer _ _ _); by eauto.
Qed.

(** When the audio is written, the run ends without it, and does not
    raise. *)
Lemma summarize_video_removes_written_audio (video_path : string) (w : World) :
  write_audiofile video_path = Written ->
  (temp_audio ∉ files (snd (summarize_video video_path w))) /\
  exists r, fst (summarize_video video_path w) = Ok r.
Proof.
  intros Hw. destruct (asr_pipeline temp_audio) as [raw_text|e] eqn:Ha.
  - destruct (decide (_correct_transcript raw_text = "")) as [Hempty|Hne].
    + rewrite (summarize_video_empty_transcript _ _ _ Hw Ha Hempty). simpl.
      split; [apply temp_audio_removed|by eauto].
    + rewrite (summarize_video_transcribed _ _ _ Hw Ha Hne). cbv zeta.
      match goal with |- context [Main.summarize_text ?f ?v ?w0] =>
        destruct (summarize_text_frame v w0) as [Hfiles [r Hr]];
        destruct (Main.summarize_text f v w0) as [r' w'] end.
      simpl in *. subst r'. rewrite Hfiles.
      split; [apply temp_audio_removed|by eauto].
  - rewrite (summarize_video_transcription_failed _ _ _ Hw Ha). simpl.
    split; [apply temp_audio_removed|by eauto].
Qed.

(** The events of one call of [summarize_text]: none for a short text;
    for a long one the call of the model, then the line printed when the
    model raises. *)
Lemma summarize_text_events (text : option string) (w : World) :
  exists evs,
    trace (snd (summarize_text text w)) = trace w ++ evs /\
    ((truthy text = false \/ (exists t, text = Some t /\ word_count t < 50)) /\
     evs = []
     \/
     exists t tail,
       text = Some t /\ 50 <= word_count t /\
       evs = EvSummarize t (max_len_of (word_count t))
               (min_len_of (word_count t)) :: tail /\
       (tail = [] \/ exists line, tail = [EvPrint line])).
Proof.
  destruct text as [t|].
  - destruct (Z_lt_le_dec (word_count t) 50) as [Hlt|Hge].
    + exists []. rewrite summarize_text_short by eauto.
      simpl. rewrite app_nil_r. by eauto 10.
    + destruct (summarizer t (max_len_of (word_count t))
                  (min_len_of (word_count t))) as [summary|e] eqn:Hs.
      * eexists. rewrite (summarize_text_long_ok _ _ _ Hge Hs). simpl.
        split; [done|]. right. by eauto 10.
      * eexists. rewrite (summarize_text_long_failed _ _ _ Hge Hs). simpl.
        split; [done|]. right. by eauto 10.
  - exists []. rewrite summarize_text_short by eauto.
    simpl. rewrite app_nil_r. by eauto.
Qed.

Lemma length_window (n : Z) :
  50 <= max_len_of n <= 130 /\ min_len_of n <= 30 /\
  min_len_of n <= max_len_of n /\ 25 <= min_len_of n.
Proof.
  unfold min_len_of, max_len_of.
  set (M := Z.min 130 (Z.max 50 (n / 4))).
  assert (50 <= M <= 130) by lia.
  assert (25 <= M / 2 <= M).
  { split; [apply Z.div_le_lower_bound; lia|apply Z.div_le_upper_bound; lia]. }
  lia.
Qed.

(** C5, as amended. An exception raised while extracting the audio or
    while transcribing is caught in that step and printed, the step
    returns None, and [summarize_video] returns None without calling a
    later model.  An exception raised by the summarization model is
    caught and printed too, but the step then returns the extractive
    fallback summary, and [summarize_video] returns the transcription with
    that summary. *)
Theorem step_exceptions_are_caught (video_path : string) (w : World) :
  (forall e file_left,
     write_audiofile video_path = WriteFailed e file_left ->
     exists w',
       summarize_video video_path w = (Ok None, w') /\
       trace w' = trace w ++
         [EvPrint line_start; EvPrint line_step1;
          EvWriteAudio video_path temp_audio;
          EvPrint ("Audio extraction failed: " +:+ exc_str e)]) /\
  (forall e,
     write_audiofile video_path = Written ->
     asr_pipeline temp_audio = Raise e ->
     exists w',
       summarize_video video_path w = (Ok None, w') /\
       trace w' = trace w ++
         [EvPrint line_start; EvPrint line_step1;
          EvWriteAudio video_path temp_audio; EvPrint line_step2;
          EvTranscribe temp_audio;
          EvPrint ("Transcription failed: " +:+ exc_str e);
          EvRemove temp_audio]) /\
  (forall raw_text e,
     let text := _correct_transcript raw_text in
     write_audiofile video_path = Written ->
     asr_pipeline temp_audio = Ok raw_text ->
     50 <= word_count text ->
     summarizer text (max_len_of (word_count text))
       (min_len_of (word_count text)) = Raise e ->
     exists w',
       summarize_video video_path w =
         (Ok (Some {| transcription := text;
                      summary := Some (_fallback_summary text) |}), w') /\
       trace w' = trace w ++
         [EvPrint line_start; EvPrint line_step1;
          EvWriteAudio video_path temp_audio; EvPrint line_step2;
          EvTranscribe temp_audio; EvRemove temp_audio; EvPrint line_step3;
          EvSummarize text (max_len_of (word_count text))
            (min_len_of (word_count text));
          EvPrint ("Summarization failed: " +:+ exc_str e)]).
Proof.
  split; [|split].
  - intros e file_left H. eexists.
    by rewrite (summarize_video_extraction_failed _ _ _ _ H).
  - intros e Hw Ha. eexists.
    by rewrite (summarize_video_transcription_failed _ _ _ Hw Ha).
  - intros raw_text e text Hw Ha Hlen Hs. eexists.
    by rewrite (summarize_video_summarization_failed _ _ _ _ Hw Ha Hlen Hs).
Qed.

(** C9. [summarize_text] returns its argument, and leaves the world as it
    is, when the argument is None, empty or shorter than 50 words; every
    call of the model it makes is for its argument, which then has at
    least 50 words. *)
Theorem summarize_text_short_returns_input (text : option string) (w : World) :
  (truthy text = false \/ (exists t, text = Some t /\ word_count t < 50) ->
   summarize_text text w = (Ok text, w)) /\
  exists evs,
    trace (snd (summarize_text text w)) = trace w ++ evs /\
    forall t max_len min_len,
      EvSummarize t max_len min_len ∈ evs ->
      text = Some t /\ 50 <= word_count t.
Proof.
  split; [apply summarize_text_short|].
  destruct (summarize_text_events text w)
    as (evs & Htrace & [[_ ->]|(t & tail & -> & Hlen & -> & Htail)]).
  - exists []. split; [done|]. intros t a b Hin. by apply elem_of_nil in Hin.
  - eexists. split; [done|]. intros t' a b Hin.
    apply elem_of_cons in Hin as [[= -> -> ->]|Hin]; [done|].
    destruct Htail as [->|[line ->]].
    + by apply elem_of_nil in Hin.
    + apply elem_of_cons in Hin as [[=]|Hin]. by apply elem_of_nil in Hin.
Qed.

(** C10. Every call of the model that [summarize_text] makes has
    50 <= max_length <= 130, min_length <= 30 and min_length <= max_length;
    a text of at least 50 words gets such a call. *)
Theorem summarizer_length_window (text : option string) (w : World) :
  exists evs,
    trace (snd (summarize_text text w)) = trace w ++ evs /\
    (forall t max_len min_len,
       EvSummarize t max_len min_len ∈ evs ->
       50 <= max_len <= 130 /\ min_len <= 30 /\ min_len <= max_len) /\
    (forall t,
       text = Some t -> 50 <= word_count t ->
       EvSummarize t (max_len_of (word_count t)) (min_len_of (word_count t))
         ∈ evs).
Proof.
  destruct (summarize_text_events text w)
    as (evs & Htrace & [[Hshort ->]|(t & tail & -> & Hlen & -> & Htail)]).
  - exists []. split; [done|]. split.
    + intros t a b Hin. by apply elem_of_nil in Hin.
    + intros t -> Hlen. destruct Hshort as [Hf|(t' & [= <-] & Hlt)]; [|lia].
      by destruct (long_text_truthy t Hlen) as (c & t' & ->).
  - eexists. split; [done|]. split.
    + intros t' a b Hin. pose proof (length_window (word_count t)).
      apply elem_of_cons in Hin as [[= -> -> ->]|Hin]; [lia|].
      destruct Htail as [->|[line ->]].
      * by apply elem_of_nil in Hin.
      * apply elem_of_cons in Hin as [[=]|Hin]. by apply elem_of_nil in Hin.
    + intros t' [= <-] _. by left.
Qed.

End pipeline_facts.

(** ** The correction table *)

(** Every pattern of the program reads at least one character when it
    matches. *)
Lemma patterns_nonempty :
  Forall (fun entry => Re.nonempty (fst entry) = true) correction_patterns /\
  Re.nonempty re_space_before = true /\
  Re.nonempty re_no_space_after = true /\
  Re.nonempty re_sentence_gap = true /\
  Re.nonempty re_duplicate = true.
Proof. repeat split; repeat constructor. Qed.

Lemma apply_corrections_app (t1 t2 : list (Re.regex * list Re.piece))
    (text : string) :
  apply_corrections (t1 ++ t2) text =
  apply_corrections t2 (apply_corrections t1 text).
Proof.
  revert text. induction t1 as [|[pattern replacement] t1 IH]; intros text.
  - done.
  - simpl. apply IH.
Qed.

Lemma apply_corrections_fold (table : list (Re.regex * list Re.piece))
    (text : string) :
  apply_corrections table text = spec_fold_corrections table text.
Proof.
  unfold spec_fold_corrections. revert text.
  induction table as [|[pattern replacement] table IH]; intros text.
  - done.
  - simpl. apply IH.
Qed.

(** C6. The corrections are the left-to-right fold of the substitutions
    over the text in table order, each applied to the output of the ones
    before it; the punctuation fixes and the capitalization of sentences
    follow, and act on what the table produced: in the example the table
    corrects two misheard words and removes a repeated word, the first fix
    removes the space before three punctuation marks, the second puts a
    space after three of them, and four sentences get their capital and a
    single space before them.  The order matters: the table in reverse
    order corrects "PITON PYTHEN" to another text. *)
Theorem corrections_fold_in_table_order :
  (forall table text,
     apply_corrections table text = spec_fold_corrections table text) /\
  (forall t1 t2 text,
     apply_corrections (t1 ++ t2) text =
     apply_corrections t2 (apply_corrections t1 text)) /\
  (forall text,
     _correct_transcript text =
     PyStr.join " "
       (List.map capitalize_sentence
          (Re.split false re_sentence_gap
             (Re.sub false re_no_space_after
                [Re.Ref 1; Re.Text " "; Re.Ref 2]
                (Re.sub false re_space_before [Re.Ref 1]
                   (spec_fold_corrections correction_patterns text)))))) /\
  spec_fold_corrections correction_patterns
    "we use piton ,it works.next we open the cote editor !is is it ready ?   yes" =
    "we use Python ,it works.next we open the code editor !is it ready ?   yes" /\
  _correct_transcript
    "we use piton ,it works.next we open the cote editor !is is it ready ?   yes" =
    "We use Python, it works. Next we open the code editor! Is it ready? Yes" /\
  (exists table text,
     Permutation correction_patterns table /\
     _correct_transcript text = "Python" /\
     correct_with table text = "Python Python" /\
     correct_with table text <> _correct_transcript text).
Proof.
  split; [apply apply_corrections_fold|].
  split; [apply apply_corrections_app|].
  split; [|split; [|split]].
  - intros text. unfold _correct_transcript, correct_with.
    by rewrite apply_corrections_fold.
  - vm_compute. reflexivity.
  - vm_compute. reflexivity.
  - exists (rev correction_patterns), "PITON PYTHEN".
    split; [apply Permutation_rev|].
    assert (H1 : _correct_transcript "PITON PYTHEN" = "Python")
      by (vm_compute; reflexivity).
    assert (H2 : correct_with (rev correction_patterns) "PITON PYTHEN"
                 = "Python Python") by (vm_compute; reflexivity).
    rewrite H1, H2. repeat split. discriminate.
Qed.

(** ** Concrete runs *)

Lemma example_text_long :
  50 <= word_count (_correct_transcript example_raw_text).
Proof. vm_compute. discriminate. Qed.

Lemma step_exceptions_are_caught_witness :
  (exists w',
     summarize_video disk_full hears_example summarizer_fails
       "video.mp4" empty_world = (Ok None, w') /\
     trace w' = trace empty_world ++
       [EvPrint line_start; EvPrint line_step1;
        EvWriteAudio "video.mp4" temp_audio;
        EvPrint ("Audio extraction failed: " +:+
                 "[Errno 28] No space left on device")]) /\
  (exists w',
     summarize_video writes_audio asr_fails summarizer_fails
       "video.mp4" empty_world = (Ok None, w') /\
     trace w' = trace empty_world ++
       [EvPrint line_start; EvPrint line_step1;
        EvWriteAudio "video.mp4" temp_audio; EvPrint line_step2;
        EvTranscribe temp_audio;
        EvPrint ("Transcription failed: " +:+
                 "Soundfile is either not in the correct format or is malformed");
        EvRemove temp_audio]) /\
  (exists w',
     let text := _correct_transcript example_raw_text in
     summarize_video writes_audio hears_example summarizer_fails
       "video.mp4" empty_world =
       (Ok (Some {| transcription := text;
                    summary := Some (_fallback_summary text) |}), w') /\
     trace w' = trace empty_world ++
       [EvPrint line_start; EvPrint line_step1;
        EvWriteAudio "video.mp4" temp_audio; EvPrint line_step2;
        EvTranscribe temp_audio; EvRemove temp_audio; EvPrint line_step3;
        EvSummarize text (max_len_of (word_count text))
          (min_len_of (word_count text));
        EvPrint ("Summarization failed: " +:+ "CUDA out of memory")]).
Proof.
  split; [|split].
  - apply (proj1 (step_exceptions_are_caught disk_full hears_example
                    summarizer_fails "video.mp4" empty_world)
             (ExternalError "[Errno 28] No space left on device") true).
    reflexivity.
  - apply (proj1 (proj2 (step_exceptions_are_caught writes_audio asr_fails
                           summarizer_fails "video.mp4" empty_world))
             (ExternalError
                "Soundfile is either not in the correct format or is malformed")).
    + reflexivity.
    + reflexivity.
  - apply (proj2 (proj2 (step_exceptions_are_caught writes_audio hears_example
                           summarizer_fails "video.mp4" empty_world))
             example_raw_text (ExternalError "CUDA out of memory")).
    + reflexivity.
    + reflexivity.
    + apply example_text_long.
    + reflexivity.
Defined.

Lemma summarize_text_short_returns_input_witness :
  summarize_text summarizer_fails (Some "Hello world.") empty_world =
  (Ok (Some "Hello world."), empty_world).
Proof.
  apply (proj1 (summarize_text_short_returns_input summarizer_fails
                  (Some "Hello world.") empty_world)).
  right. exists "Hello world.". split; [reflexivity|].
  vm_compute. reflexivity.
Defined.

Lemma summarizer_length_window_witness :
  let n := word_count (_correct_transcript example_raw_text) in
  50 <= max_len_of n <= 130 /\ min_len_of n <= 30 /\
  min_len_of n <= max_len_of n.
Proof.
  destruct (summarizer_length_window summarizer_echo
              (Some (_correct_transcript example_raw_text)) empty_world)
    as (evs & _ & Hwindow & Hcalled).
  apply (Hwindow (_correct_transcript example_raw_text)).
  apply Hcalled; [reflexivity|apply example_text_long].
Defined.

(** ** Where the claims as worded fail *)

(** C5 as worded: the summarization model raises, and [summarize_video]
    still returns a result, with the fallback summary. *)
Lemma failed_summarization_is_not_none :
  exists s w',
    summarize_video writes_audio hears_example summarizer_fails
      "video.mp4" empty_world = (Ok (Some s), w') /\
    summary s = Some (_fallback_summary (transcription s)) /\
    EvPrint ("Summarization failed: " +:+ "CUDA out of memory") ∈ trace w' /\
    Ok (Some s) <> @Ok (option Summary) None.
Proof.
  eexists. eexists.
  rewrite (summarize_video_summarization_failed writes_audio hears_example
             summarizer_fails "video.mp4" example_raw_text empty_world
             (ExternalError "CUDA out of memory") eq_refl eq_refl
             example_text_long eq_refl).
  split; [reflexivity|]. unfold empty_world.
  cbn [summary transcription trace app].
  split; [reflexivity|]. split; [|discriminate].
  rewrite !elem_of_cons. tauto.
Qed.

(** C8: the audio writer fails after it has begun the file.  The run
    returns None, never removes the file, and ends with it on disk. *)
Lemma failed_extraction_leaves_audio_file :
  let run := summarize_video disk_full hears_example summarizer_fails
               "video.mp4" empty_world in
  fst run = Ok None /\
  temp_audio ∈ files (snd run) /\
  (forall path, EvRemove path ∉ trace (snd run)).
Proof.
  cbv zeta.
  rewrite (summarize_video_extraction_failed disk_full hears_example
             summarizer_fails "video.mp4" empty_world _ true eq_refl).
  simpl. split; [done|]. split; [apply temp_audio_written|].
  intros path. rewrite !elem_of_cons, elem_of_nil.
  intros [?|[?|[?|[?|[]]]]]; discriminate.
Qed.

End MainFacts.

(** * More properties of the detector *)

Module DetectorFacts.

Import Timestamps PyFacts TimestampsFacts.

Lemma filter_all {A : Type} (f : A -> bool) (l : list A) :
  (forall x, In x l -> f x = true) -> List.filter f l = l.
Proof.
  induction l as [|x l IH]; intros Hall; simpl; [done|].
  rewrite (Hall x) by (by left). f_equal. apply IH.
  intros y Hy. apply Hall. by right.
Qed.

Lemma filter_none {A : Type} (f : A -> bool) (l : list A) :
  (forall x, In x l -> f x = false) -> List.filter f l = [].
Proof.
  induction l as [|x l IH]; intros Hall; simpl; [done|].
  rewrite (Hall x) by (by left). apply IH.
  intros y Hy. apply Hall. by right.
Qed.

Section more_detector_facts.

Context {Embedding : Type}.
Variable cos_sim : Embedding -> Embedding -> Q.

Lemma spec_is_boundary_app (embs embs' : list Embedding) (i : nat) :
  (i < length embs)%nat ->
  spec_is_boundary cos_sim (embs ++ embs') i = spec_is_boundary cos_sim embs i.
Proof.
  intros Hi. destruct i as [|j]; [done|]. simpl.
  by rewrite !lookup_app_l by lia.
Qed.

Lemma markers_at_app_l (segs segs' : list Segment) (idx : list nat) :
  Forall (fun i => i < length segs)%nat idx ->
  markers_at (segs ++ segs') idx = markers_at segs idx.
Proof.
  unfold markers_at. induction 1 as [|i idx Hi _ IH]; [done|].
  simpl. rewrite lookup_app_l by done.
  destruct (segs !! i); simpl; [f_equal|]; apply IH.
Qed.

Lemma markers_at_app (segs : list Segment) (idx idx' : list nat) :
  markers_at segs (idx ++ idx') = markers_at segs idx ++ markers_at segs idx'.
Proof. unfold markers_at. apply omap_app. Qed.

Lemma markers_at_all (segs : list Segment) :
  markers_at segs (seq 0 (length segs)) = marker_of <$> segs.
Proof.
  apply list_eq. intros k.
  rewrite markers_at_lookup, list_lookup_fmap.
  - destruct (decide (k < length segs)%nat) as [Hk|Hk].
    + by rewrite lookup_seq_lt.
    + rewrite lookup_seq_ge by lia. simpl.
      by rewrite lookup_ge_None_2 by lia.
  - apply Forall_forall. intros i Hi. apply elem_of_seq in Hi. lia.
Qed.

Lemma markers_at_filter_sublist (segs : list Segment) (f : nat -> bool)
    (idx : list nat) :
  markers_at segs (List.filter f idx) `sublist_of` markers_at segs idx.
Proof.
  unfold markers_at. induction idx as [|i idx IH]; simpl; [done|].
  destruct (f i); simpl.
  - destruct (segs !! i); simpl; [by apply sublist_skip|done].
  - destruct (segs !! i); simpl; [by apply sublist_cons|done].
Qed.

(** X1. The detector is a single left-to-right pass: the markers of the
    first n segments are a prefix of the markers of any longer input that
    starts with them, and the segments that follow add at most one marker
    each. *)
Theorem detect_prefix_stable
    (segs segs' : list Segment) (embs embs' : list Embedding) :
  length embs = length segs -> length embs' = length segs' ->
  exists out more,
    detect cos_sim segs embs = Ok out /\
    detect cos_sim (segs ++ segs') (embs ++ embs') = Ok (out ++ more) /\
    (length more <= length segs')%nat.
Proof.
  intros Hlen Hlen'.
  exists (markers_at segs (spec_boundaries cos_sim embs)),
    (markers_at (segs ++ segs')
       (List.filter (spec_is_boundary cos_sim (embs ++ embs'))
          (seq (length embs) (length embs')))).
  split; [by apply detect_refines_spec|]. split.
  - rewrite detect_refines_spec by (rewrite !length_app; lia).
    f_equal. unfold spec_boundaries.
    rewrite length_app, seq_app, List.filter_app, markers_at_app. simpl.
    f_equal.
    rewrite (filter_ext_in _ (spec_is_boundary cos_sim embs)).
    + apply markers_at_app_l. apply Forall_forall. intros i Hi.
      apply list_elem_of_In, filter_In in Hi as [Hi _].
      apply in_seq in Hi. lia.
    + intros i Hi. apply in_seq in Hi. apply spec_is_boundary_app. lia.
  - etransitivity; [apply markers_at_length|].
    etransitivity; [apply filter_length_le|]. rewrite length_seq. lia.
Qed.

(** X2. The markers come out in segment order, at most one per segment:
    the output is a sublist of the list of all segments' markers. *)
Theorem detect_sublist_of_segments
    (segs : list Segment) (embs : list Embedding) (out : list Marker) :
  length embs = length segs ->
  detect cos_sim segs embs = Ok out ->
  out `sublist_of` (marker_of <$> segs).
Proof.
  intros Hlen. rewrite detect_refines_spec by done. intros [= <-].
  rewrite <- markers_at_all. unfold spec_boundaries. rewrite Hlen.
  apply markers_at_filter_sublist.
Qed.

(** X3. The two extremes.  When every segment is at least as similar to
    its predecessor as the threshold, the only marker is that of segment
    0; when every segment is less similar than the threshold, every
    segment gets a marker. *)
Theorem detect_extremes
    (segs : list Segment) (embs : list Embedding) (seg0 : Segment) :
  length embs = length segs -> segs !! 0%nat = Some seg0 ->
  ((forall i e_i e_prev,
      embs !! S i = Some e_i -> embs !! i = Some e_prev ->
      (SIMILARITY_THRESHOLD <= cos_sim e_i e_prev)%Q) ->
   detect cos_sim segs embs = Ok [marker_of seg0]) /\
  ((forall i e_i e_prev,
      embs !! S i = Some e_i -> embs !! i = Some e_prev ->
      (cos_sim e_i e_prev < SIMILARITY_THRESHOLD)%Q) ->
   detect cos_sim segs embs = Ok (marker_of <$> segs)).
Proof.
  intros Hlen Hseg0.
  assert (HN : (1 <= length embs)%nat).
  { apply lookup_lt_Some in Hseg0. lia. }
  rewrite detect_refines_spec by done. split; intros Hall; f_equal.
  - rewrite spec_boundaries_head by done.
    rewrite filter_none.
    + unfold markers_at. simpl. by rewrite Hseg0.
    + intros i Hi. apply in_seq in Hi. destruct i as [|j]; [lia|]. simpl.
      destruct (embs !! S j) as [e_i|] eqn:He; [|done].
      destruct (embs !! j) as [e_prev|] eqn:Hp; [|done].
      destruct (Qlt_le_dec _ _) as [Hlt|_]; [|done].
      specialize (Hall j e_i e_prev He Hp). by apply Qle_not_lt in Hall.
  - unfold spec_boundaries. rewrite filter_all.
    + rewrite Hlen. apply markers_at_all.
    + intros i Hi. apply in_seq in Hi. destruct i as [|j]; [done|]. simpl.
      destruct (lookup_lt_is_Some_2 embs (S j)) as [e_i He]; [lia|].
      destruct (lookup_lt_is_Some_2 embs j) as [e_prev Hp]; [lia|].
      rewrite He, Hp.
      destruct (Qlt_le_dec _ _) as [_|Hle]; [done|].
      specialize (Hall j e_i e_prev He Hp). by apply Qle_not_lt in Hle.
Qed.

(** *** Without one embedding per segment *)

Lemma body_any (segs : list Segment) (embs : list Embedding) (i : nat)
    (timestamps : list Marker) :
  (i < length embs)%nat ->
  body cos_sim segs embs i timestamps =
  if spec_is_boundary cos_sim embs i then
    match segs !! i with
    | Some seg => Ok (timestamps ++ [marker_of seg])
    | None => Raise IndexError
    end
  else Ok timestamps.
Proof.
  intros Hi. unfold body, getitem. destruct i as [|j]; simpl.
  - destruct (segs !! 0%nat) as [seg|]; simpl; [|done].
    by rewrite label_prefix_total.
  - destruct (lookup_lt_is_Some_2 embs (S j)) as [e_i He]; [lia|].
    destruct (lookup_lt_is_Some_2 embs j) as [e_prev Hp]; [lia|].
    rewrite Nat.sub_0_r, He, Hp. simpl.
    destruct (Qlt_le_dec _ _); simpl; [|done].
    destruct (segs !! S j) as [seg|]; simpl; [|done].
    by rewrite label_prefix_total.
Qed.

Lemma markers_at_cons (segs : list Segment) (i : nat) (idx : list nat)
    (seg : Segment) :
  segs !! i = Some seg ->
  markers_at segs (i :: idx) = marker_of seg :: markers_at segs idx.
Proof.
  intros Hseg.
  transitivity (match marker_of <$> segs !! i with
                | Some m => m :: markers_at segs idx
                | None => markers_at segs idx
                end); [reflexivity|].
  by rewrite Hseg.
Qed.

Lemma for_range_any (segs : list Segment) (embs : list Embedding)
    (idx : list nat) (timestamps : list Marker) :
  Forall (fun i => i < length embs)%nat idx ->
  match for_range cos_sim segs embs idx timestamps with
  | Ok out =>
      out = timestamps ++
            markers_at segs (List.filter (spec_is_boundary cos_sim embs) idx) /\
      Forall (fun i => i < length segs)%nat
        (List.filter (spec_is_boundary cos_sim embs) idx)
  | Raise e =>
      e = IndexError /\
      Exists (fun i => length segs <= i)%nat
        (List.filter (spec_is_boundary cos_sim embs) idx)
  end.
Proof.
  intros Hidx. revert timestamps.
  induction Hidx as [|i idx Hi _ IH]; intros timestamps.
  - simpl. by rewrite app_nil_r.
  - cbn [Timestamps.for_range List.filter]. rewrite body_any by done.
    destruct (spec_is_boundary cos_sim embs i) eqn:Hb; [|apply IH].
    destruct (segs !! i) as [seg|] eqn:Hseg.
    + change (Ok (timestamps ++ [marker_of seg]) ≫=
                (fun timestamps' => for_range cos_sim segs embs idx timestamps'))
        with (for_range cos_sim segs embs idx (timestamps ++ [marker_of seg])).
      specialize (IH (timestamps ++ [marker_of seg])).
      destruct (for_range cos_sim segs embs idx _) as [out|e].
      * destruct IH as [-> Hall]. split.
        -- rewrite (markers_at_cons segs i _ seg Hseg).
           by rewrite <- app_assoc.
        -- constructor; [by apply lookup_lt_Some in Hseg|done].
      * destruct IH as [-> Hex]. split; [done|]. by apply Exists_cons_tl.
    + split; [done|]. apply Exists_cons_hd. by apply lookup_ge_None.
Qed.

(** X25. Without the assumption of one embedding per segment, the loop
    runs over the embeddings.  It raises IndexError exactly when a boundary
    index has no segment; otherwise it returns the markers of the
    boundaries.  So with fewer embeddings than segments nothing is raised
    and the segments without an embedding get no marker, and with no
    embedding at all the result is the empty list. *)
Theorem detect_without_same_length
    (segs : list Segment) (embs : list Embedding) :
  match detect cos_sim segs embs with
  | Ok out =>
      out = markers_at segs (spec_boundaries cos_sim embs) /\
      Forall (fun i => i < length segs)%nat (spec_boundaries cos_sim embs)
  | Raise e =>
      e = IndexError /\
      Exists (fun i => length segs <= i < length embs)%nat
        (spec_boundaries cos_sim embs)
  end.
Proof.
  unfold detect.
  assert (Hidx : Forall (fun i => i < length embs)%nat
                   (seq 0 (length embs))).
  { apply Forall_forall. intros i Hi. apply elem_of_seq in Hi. lia. }
  pose proof (for_range_any segs embs (seq 0 (length embs)) [] Hidx) as Hrun.
  destruct (for_range cos_sim segs embs (seq 0 (length embs)) []) as [out|e].
  - exact Hrun.
  - destruct Hrun as [-> Hex].
    split; [done|]. apply Exists_exists in Hex as (i & Hi & Hge).
    apply Exists_exists. exists i. split; [done|]. split; [done|].
    by apply (spec_boundaries_in_range cos_sim embs).
Qed.

End more_detector_facts.


(** ** Concrete runs *)

Lemma detect_prefix_stable_witness :
  exists out more,
    detect example_sim (take 2 example_segments) [0; 1]%nat = Ok out /\
    detect example_sim (take 2 example_segments ++ drop 2 example_segments)
      ([0; 1] ++ [2])%nat = Ok (out ++ more) /\
    (length more <= length (drop 2 example_segments))%nat.
Proof.
  apply (detect_prefix_stable example_sim (take 2 example_segments)
           (drop 2 example_segments) [0; 1]%nat [2]%nat).
  - reflexivity.
  - reflexivity.
Defined.

Lemma detect_sublist_of_segments_witness :
  example_markers `sublist_of` (marker_of <$> example_segments).
Proof.
  apply (detect_sublist_of_segments example_sim example_segments
           [0; 1; 2]%nat example_markers).
  - reflexivity.
  - vm_compute. reflexivity.
Defined.

Lemma detect_extremes_witness :
  detect (fun _ _ : nat => 1%Q) example_segments [0; 1; 2]%nat =
    Ok [marker_of {| start := 0; text := "Intro to loops." |}] /\
  detect (fun _ _ : nat => 0%Q) example_segments [0; 1; 2]%nat =
    Ok (marker_of <$> example_segments).
Proof.
  split.
  - apply (proj1 (detect_extremes (fun _ _ : nat => 1%Q) example_segments
                    [0; 1; 2]%nat _ eq_refl eq_refl)).
    intros i e_i e_prev _ _. vm_compute. discriminate.
  - apply (proj2 (detect_extremes (fun _ _ : nat => 0%Q) example_segments
                    [0; 1; 2]%nat
                    {| start := 0; text := "Intro to loops." |}
                    eq_refl eq_refl)).
    intros i e_i e_prev _ _. vm_compute. reflexivity.
Defined.

End DetectorFacts.

(** * The time string and the whole seconds *)

Module TimeFacts.

Import Timestamps PyFacts.

Lemma Qfloor_unique (q : Q) (n : Z) :
  (inject_Z n <= q)%Q -> (q < inject_Z (n + 1))%Q -> Qfloor q = n.
Proof.
  intros Hle Hlt. pose proof (Qfloor_range q n (n + 1) Hle Hlt). lia.
Qed.

Lemma floor_split (x : Q) :
  Qfloor x = 60 * Qfloor (x / 60) + Qfloor (PyFloat.mod_ x 60).
Proof.
  unfold PyFloat.mod_.
  set (m := Qfloor (x / 60)). set (r := (x - 60 * inject_Z m)%Q).
  pose proof (Qfloor_le r) as Hle. pose proof (Qlt_floor r) as Hlt.
  apply Qfloor_unique.
  - rewrite inject_Z_plus, inject_Z_mult. change (inject_Z 60) with 60%Q.
    set (F := inject_Z (Qfloor r)) in *. unfold r in Hle. lra.
  - rewrite !inject_Z_plus, inject_Z_mult. change (inject_Z 60) with 60%Q.
    rewrite inject_Z_plus in Hlt.
    set (F := inject_Z (Qfloor r)) in *. unfold r in Hlt. lra.
Qed.

(** The minutes and the seconds are the quotient and the remainder of the
    whole seconds by 60. *)
Lemma minutes_seconds_of_floor (x : Q) :
  PyFloat.int (PyFloat.floordiv x 60) = Qfloor x / 60 /\
  PyFloat.int (PyFloat.mod_ x 60) = Qfloor x mod 60.
Proof.
  destruct (seconds_range x) as [Hs Heq]. rewrite Heq in *.
  rewrite minutes_floor. pose proof (floor_split x) as Hsplit.
  split.
  - apply (Z.div_unique_pos _ 60 _ (Qfloor (PyFloat.mod_ x 60))); lia.
  - apply (Z.mod_unique_pos _ 60 (Qfloor (x / 60))); lia.
Qed.

Lemma fmt_time_of_floor (x : Q) :
  fmt_time x =
  PyStr.format_02d (Qfloor x / 60) +:+ ":" +:+
  PyStr.format_02d (Qfloor x mod 60).
Proof.
  unfold fmt_time. by destruct (minutes_seconds_of_floor x) as [-> ->].
Qed.

Lemma digit_inj (a b : Z) :
  0 <= a <= 9 -> 0 <= b <= 9 -> PyStr.digit a = PyStr.digit b -> a = b.
Proof.
  intros Ha Hb H. apply (f_equal N_of_ascii) in H. unfold PyStr.digit in H.
  rewrite !N_ascii_embedding in H by lia. lia.
Qed.

Lemma two_digits_inj (a b : Z) :
  0 <= a < 100 -> 0 <= b < 100 ->
  PyStr.two_digits a = PyStr.two_digits b -> a = b.
Proof.
  intros Ha Hb [= Htens Hunits].
  pose proof (Z.mod_pos_bound a 10). pose proof (Z.mod_pos_bound b 10).
  assert (0 <= a / 10 <= 9).
  { split; [apply Z.div_pos; lia|]. apply Z.lt_succ_r.
    apply Z.div_lt_upper_bound; lia. }
  assert (0 <= b / 10 <= 9).
  { split; [apply Z.div_pos; lia|]. apply Z.lt_succ_r.
    apply Z.div_lt_upper_bound; lia. }
  apply digit_inj in Htens; [|lia..]. apply digit_inj in Hunits; [|lia..].
  rewrite (Z.div_mod a 10), (Z.div_mod b 10) by lia. lia.
Qed.

Lemma format_02d_inj (a b : Z) :
  0 <= a -> 0 <= b -> PyStr.format_02d a = PyStr.format_02d b -> a = b.
Proof.
  intros Ha Hb.
  destruct (Z_lt_le_dec a 100) as [Ha'|Ha'];
    destruct (Z_lt_le_dec b 100) as [Hb'|Hb'].
  - rewrite !format_02d_small by lia. apply two_digits_inj; lia.
  - rewrite (format_02d_small a) by lia.
    destruct (format_02d_large b Hb') as [-> Hlen]. intros H.
    apply (f_equal String.length) in H. rewrite two_digits_length in H. lia.
  - rewrite (format_02d_small b) by lia.
    destruct (format_02d_large a Ha') as [-> Hlen]. intros H.
    apply (f_equal String.length) in H. rewrite two_digits_length in H. lia.
  - destruct (format_02d_large a Ha') as [-> _].
    destruct (format_02d_large b Hb') as [-> _]. apply (inj pretty).
Qed.

Lemma app_inj_tail (s1 s2 t1 t2 : string) :
  String.length t1 = String.length t2 ->
  s1 +:+ t1 = s2 +:+ t2 -> s1 = s2 /\ t1 = t2.
Proof.
  revert s2. induction s1 as [|c s1 IH]; intros [|d s2] Hlen;
    rewrite ?app_String, ?app_empty.
  - done.
  - intros ->. simpl in Hlen. rewrite append_length in Hlen. lia.
  - intros <-. simpl in Hlen. rewrite append_length in Hlen. lia.
  - intros [= -> H]. by destruct (IH s2 Hlen H) as [-> ->].
Qed.

(** X4. The time of a marker is a faithful rendering of the whole seconds
    of the start: two non-negative starts get the same time string exactly
    when they have the same whole number of seconds. *)
Theorem fmt_time_same_iff_same_second (a b : Q) :
  (0 <= a)%Q -> (0 <= b)%Q ->
  fmt_time a = fmt_time b <-> Qfloor a = Qfloor b.
Proof.
  intros Ha Hb. rewrite !fmt_time_of_floor. split; [|by intros ->].
  assert (0 <= Qfloor a) by (rewrite <- (Qfloor_Z 0); by apply Qfloor_resp_le).
  assert (0 <= Qfloor b) by (rewrite <- (Qfloor_Z 0); by apply Qfloor_resp_le).
  pose proof (Z.mod_pos_bound (Qfloor a) 60).
  pose proof (Z.mod_pos_bound (Qfloor b) 60).
  rewrite (format_02d_small (Qfloor a mod 60)) by lia.
  rewrite (format_02d_small (Qfloor b mod 60)) by lia.
  intros Heq.
  apply (app_inj_tail _ _ (":" +:+ _) (":" +:+ _)) in Heq as [Hm Hs];
    [|done].
  injection Hs as Htens Hunits.
  assert (0 <= Qfloor a / 60) by (apply Z.div_pos; lia).
  assert (0 <= Qfloor b / 60) by (apply Z.div_pos; lia).
  assert (Hdiv : Qfloor a / 60 = Qfloor b / 60) by (by apply format_02d_inj).
  assert (Qfloor a mod 60 = Qfloor b mod 60) as Hmod.
  { apply two_digits_inj; [lia|lia|]. unfold PyStr.two_digits. congruence. }
  rewrite (Z.div_mod (Qfloor a) 60), (Z.div_mod (Qfloor b) 60) by lia. lia.
Qed.

Lemma fmt_time_same_iff_same_second_witness :
  fmt_time (251 # 2) = fmt_time (503 # 4).
Proof.
  apply (fmt_time_same_iff_same_second (251 # 2) (503 # 4));
    [done|done|reflexivity].
Defined.

End TimeFacts.

(** * More properties of the pipeline *)

Module PipelineFacts.

Import Main MainShape PyFacts MainFacts.

Section more_pipeline_facts.

Variable write_audiofile : string -> write_outcome.
Variable asr_pipeline : string -> result string.
Variable summarizer : string -> Z -> Z -> result string.

Abbreviation summarize_text := (summarize_text summarizer).
Abbreviation summarize_video :=
  (summarize_video write_audiofile asr_pipeline summarizer).

Lemma summarize_video_short (video_path raw_text : string) (w : World) :
  let text := _correct_transcript raw_text in
  write_audiofile video_path = Written ->
  asr_pipeline temp_audio = Ok raw_text ->
  text <> "" -> word_count text < 50 ->
  summarize_video video_path w =
  (Ok (Some {| transcription := text; summary := Some text |}),
   {| files := (files w ∪ {[temp_audio]}) ∖ {[temp_audio]};
      trace := trace w ++ until_removed video_path ++ [EvPrint line_step3] |}).
Proof.
  intros text Hw Ha Hne Hlen.
  rewrite (summarize_video_transcribed _ _ _ _ _ _ Hw Ha Hne). cbv zeta.
  fold text. rewrite summarize_text_short by eauto. done.
Qed.

Lemma summarize_video_long_ok (video_path raw_text sm : string) (w : World) :
  let text := _correct_transcript raw_text in
  write_audiofile video_path = Written ->
  asr_pipeline temp_audio = Ok raw_text ->
  50 <= word_count text ->
  summarizer text (max_len_of (word_count text)) (min_len_of (word_count text))
    = Ok sm ->
  summarize_video video_path w =
  (Ok (Some {| transcription := text;
               summary := Some (_clean_summary sm) |}),
   {| files := (files w ∪ {[temp_audio]}) ∖ {[temp_audio]};
      trace := trace w ++ until_removed video_path ++
        [EvPrint line_step3;
         EvSummarize text (max_len_of (word_count text))
           (min_len_of (word_count text))] |}).
Proof.
  intros text Hw Ha Hlen Hs.
  rewrite (summarize_video_transcribed _ _ _ _ _ _ Hw Ha).
  - cbv zeta. fold text.
    rewrite (summarize_text_long_ok _ _ _ _ Hlen Hs). simpl.
    by rewrite <- !app_assoc.
  - fold text. by destruct (long_text_truthy _ Hlen) as (c & t' & ->).
Qed.

Lemma summarize_video_cases (video_path : string) (w : World) :
  run_case write_audiofile asr_pipeline summarizer video_path w
    (summarize_video video_path w).
Proof.
  destruct (write_audiofile video_path) as [|e file_left] eqn:Hw.
  2: { rewrite (summarize_video_extraction_failed _ _ _ _ _ _ _ Hw).
       by constructor. }
  destruct (asr_pipeline temp_audio) as [raw_text|e] eqn:Ha.
  2: { rewrite (summarize_video_transcription_failed _ _ _ _ _ _ Hw Ha).
       by constructor. }
  destruct (decide (_correct_transcript raw_text = "")) as [Hempty|Hne].
  { rewrite (summarize_video_empty_transcript _ _ _ _ _ _ Hw Ha Hempty).
    by apply case_empty_transcript with raw_text. }
  destruct (Z_lt_le_dec (word_count (_correct_transcript raw_text)) 50)
    as [Hshort|Hlong].
  { rewrite (summarize_video_short _ _ _ Hw Ha Hne Hshort).
    by apply case_short. }
  destruct (summarizer (_correct_transcript raw_text)
              (max_len_of (word_count (_correct_transcript raw_text)))
              (min_len_of (word_count (_correct_transcript raw_text))))
    as [sm|e] eqn:Hs.
  - rewrite (summarize_video_long_ok _ _ _ _ Hw Ha Hlong Hs).
    by apply case_summarized.
  - rewrite (summarize_video_summarization_failed _ _ _ _ _ _ _ Hw Ha Hlong Hs).
    by apply case_summarization_failed.
Qed.

Lemma files_after_removal (fs : gset string) :
  (fs ∪ {[temp_audio]}) ∖ {[temp_audio]} = fs ∖ {[temp_audio]}.
Proof.
  apply set_eq. intros p.
  rewrite !elem_of_difference, elem_of_union, elem_of_singleton. tauto.
Qed.

(** X5. [summarize_video] never lets an exception out: every run returns
    None or a result.  In particular [os.remove] never fails for a missing
    file, because it is reached only after the file was written. *)
Theorem summarize_video_never_raises (video_path : string) (w : World) :
  exists r, fst (summarize_video video_path w) = Ok r.
Proof. destruct (summarize_video_cases video_path w); simpl; by eauto. Qed.

(** X6. The only file a run touches is temp_audio.wav.  When the audio is
    written the run ends without that file, also when a file of that name
    was there before the run; when the writer fails the other files are as
    before, and the audio file is there if the writer left it or it was
    there before. *)
Theorem summarize_video_files (video_path : string) (w : World) :
  files (snd (summarize_video video_path w)) =
  match write_audiofile video_path with
  | Written => files w ∖ {[temp_audio]}
  | WriteFailed _ true => files w ∪ {[temp_audio]}
  | WriteFailed _ false => files w
  end.
Proof.
  destruct (summarize_video_cases video_path w) as
    [e file_left Hw|e Hw _|raw Hw _ _|raw Hw _ _ _|raw sm Hw _ _ _
    |raw e Hw _ _ _]; rewrite Hw; simpl;
    try apply files_after_removal.
  by destruct file_left.
Qed.

(** X7. A run calls the audio writer once, then the speech model at most
    once, then the summarization model at most once, in this order: the
    calls of a run are a non-empty prefix of these three. *)
Theorem summarize_video_calls_in_order (video_path : string) (w : World) :
  exists evs text max_len min_len,
    trace (snd (summarize_video video_path w)) = trace w ++ evs /\
    List.filter is_model_call evs <> [] /\
    List.filter is_model_call evs `prefix_of`
      [EvWriteAudio video_path temp_audio; EvTranscribe temp_audio;
       EvSummarize text max_len min_len].
Proof.
  destruct (summarize_video_cases video_path w) as
    [e file_left Hw|e Hw _|raw Hw _ _|raw Hw _ _ _|raw sm Hw _ _ _
    |raw e Hw _ _ _]; simpl.
  - eexists _, "", 0, 0. split; [done|]. simpl. split; [done|].
    by eexists [_; _].
  - eexists _, "", 0, 0. split; [done|]. simpl. split; [done|].
    by eexists [_].
  - eexists _, "", 0, 0. split; [done|]. simpl. split; [done|].
    by eexists [_].
  - eexists _, "", 0, 0. split; [done|]. simpl. split; [done|].
    by eexists [_].
  - eexists _, _, _, _. split; [done|]. simpl. split; [done|].
    by eexists [].
  - eexists _, _, _, _. split; [done|]. simpl. split; [done|].
    by eexists [].
Qed.

(** X8. A transcript of fewer than 50 words is its own summary: the run
    returns the corrected transcript twice and does not call the
    summarization model. *)
Theorem short_transcript_is_its_summary
    (video_path raw_text : string) (w : World) :
  let text := _correct_transcript raw_text in
  write_audiofile video_path = Written ->
  asr_pipeline temp_audio = Ok raw_text ->
  text <> "" -> word_count text < 50 ->
  exists evs,
    summarize_video video_path w =
      (Ok (Some {| transcription := text; summary := Some text |}),
       {| files := files w ∖ {[temp_audio]}; trace := trace w ++ evs |}) /\
    List.filter is_model_call evs =
      [EvWriteAudio video_path temp_audio; EvTranscribe temp_audio].
Proof.
  intros text Hw Ha Hne Hlen. eexists.
  rewrite (summarize_video_short _ _ _ Hw Ha Hne Hlen).
  rewrite files_after_removal. split; reflexivity.
Qed.

(** X9. The length window as a function of the number n of words of a
    text of at least 50 words: (max 50, min 25) below 204 words,
    (max n/4, min of 30 and n/8) from 204 to 519 words, and (max 130,
    min 30) from 520 words on. *)
Theorem summarizer_window_by_word_count (t : string) (w : World) :
  let n := word_count t in
  50 <= n ->
  exists max_len min_len tail,
    trace (snd (summarize_text (Some t) w)) =
      trace w ++ EvSummarize t max_len min_len :: tail /\
    (n < 204 -> max_len = 50 /\ min_len = 25) /\
    (204 <= n < 520 -> max_len = n / 4 /\ min_len = Z.min 30 (n / 8)) /\
    (520 <= n -> max_len = 130 /\ min_len = 30).
Proof.
  intros n Hn.
  destruct (summarize_text_events summarizer (Some t) w)
    as (evs & Htrace & [[Hshort _]|(t' & tail & [= <-] & _ & -> & _)]).
  { destruct Hshort as [Hf|(t' & [= <-] & Hlt)]; [|exfalso; subst n; lia].
    by destruct (long_text_truthy t Hn) as (c & t' & ->). }
  exists (max_len_of n), (min_len_of n), tail. split; [done|].
  unfold min_len_of, max_len_of.
  assert (n / 4 / 2 = n / 8) as Hdiv by (by rewrite Z.div_div by lia).
  assert (n < 204 -> n / 4 <= 50).
  { intros. apply Z.lt_succ_r, Z.div_lt_upper_bound; lia. }
  assert (204 <= n -> 51 <= n / 4).
  { intros. apply Z.div_le_lower_bound; lia. }
  assert (n < 520 -> n / 4 < 130).
  { intros. apply Z.div_lt_upper_bound; lia. }
  assert (520 <= n -> 130 <= n / 4).
  { intros. apply Z.div_le_lower_bound; lia. }
  repeat split; intros.
  - lia.
  - replace (Z.min 130 (Z.max 50 (n / 4))) with 50 by lia. done.
  - lia.
  - replace (Z.min 130 (Z.max 50 (n / 4))) with (n / 4) by lia.
    by rewrite Hdiv.
  - lia.
  - replace (Z.min 130 (Z.max 50 (n / 4))) with 130 by lia. done.
Qed.

End more_pipeline_facts.


(** ** Concrete runs *)

Lemma short_transcript_is_its_summary_witness :
  exists evs,
    summarize_video writes_audio (fun _ => Ok "hello  world .")
      summarizer_fails "video.mp4" empty_world =
      (Ok (Some {| transcription := _correct_transcript "hello  world .";
                   summary := Some (_correct_transcript "hello  world .") |}),
       {| files := files empty_world ∖ {[temp_audio]};
          trace := trace empty_world ++ evs |}) /\
    List.filter is_model_call evs =
      [EvWriteAudio "video.mp4" temp_audio; EvTranscribe temp_audio].
Proof.
  apply (short_transcript_is_its_summary writes_audio
           (fun _ => Ok "hello  world .") summarizer_fails
           "video.mp4" "hello  world ." empty_world).
  - reflexivity.
  - reflexivity.
  - vm_compute. discriminate.
  - vm_compute. reflexivity.
Defined.

Lemma summarizer_window_by_word_count_witness :
  let t := _correct_transcript example_raw_text in
  exists max_len min_len tail,
    trace (snd (summarize_text summarizer_echo (Some t) empty_world)) =
      trace empty_world ++ EvSummarize t max_len min_len :: tail /\
    (word_count t < 204 -> max_len = 50 /\ min_len = 25) /\
    (204 <= word_count t < 520 ->
     max_len = word_count t / 4 /\ min_len = Z.min 30 (word_count t / 8)) /\
    (520 <= word_count t -> max_len = 130 /\ min_len = 30).
Proof.
  apply (summarizer_window_by_word_count summarizer_echo
           (_correct_transcript example_raw_text) empty_world).
  apply example_text_long.
Defined.

End PipelineFacts.

(** * Properties of the summaries *)

Module SummaryFacts.

Import Main MainShape PyFacts.

Lemma filter_sublist {A : Type} (f : A -> bool) (l : list A) :
  List.filter f l `sublist_of` l.
Proof.
  induction l as [|x l IH]; simpl; [done|].
  destruct (f x); by constructor.
Qed.

Lemma filter_Forall {A : Type} (f : A -> bool) (l : list A) :
  Forall (fun x => f x = true) (List.filter f l).
Proof.
  apply Forall_forall. intros x Hx.
  by apply list_elem_of_In, filter_In in Hx as [_ Hx].
Qed.

Lemma join_cons_nonempty (sep x : string) (l : list string) :
  x <> "" -> PyStr.join sep (x :: l) <> "".
Proof.
  intros Hx. destruct x as [|c x]; [done|].
  simpl. destruct l; [done|]. by rewrite app_String.
Qed.

Lemma many_words_nonempty (s : string) : 5 < word_count s -> s <> "".
Proof. intros Hs ->. vm_compute in Hs. discriminate. Qed.

(** X10. The fallback summary consists of at most three sentences of the
    text, in their order, each with more than five words, joined by single
    spaces; it is the empty string exactly when no sentence of the text
    has more than five words. *)
Theorem fallback_summary_key_sentences (text : string) :
  let sentences := Re.split false re_sentence_gap text in
  exists key,
    _fallback_summary text = PyStr.join " " key /\
    (length key <= 3)%nat /\
    key `sublist_of` sentences /\
    Forall (fun s => 5 < word_count s) key /\
    (_fallback_summary text = "" <->
     Forall (fun s => word_count s <= 5) sentences).
Proof.
  intros sentences. unfold _fallback_summary. fold sentences.
  set (long := List.filter (fun s => 5 <? word_count s) sentences).
  assert (Hlong : Forall (fun s => 5 < word_count s) long).
  { eapply Forall_impl; [apply filter_Forall|].
    intros s Hs. by apply Z.ltb_lt. }
  exists (take 3 long). split; [done|].
  split; [rewrite length_take; lia|].
  split; [etransitivity; [apply sublist_take|apply filter_sublist]|].
  split; [by apply Forall_take|].
  split.
  - intros Hempty. destruct long as [|s long'] eqn:Hl.
    + apply Forall_forall. intros s Hs.
      destruct (Z.ltb_spec 5 (word_count s)) as [Hgt|]; [|done].
      assert (In s long) as Hin.
      { apply filter_In. split; [by apply list_elem_of_In|by apply Z.ltb_lt]. }
      by rewrite Hl in Hin.
    + exfalso. simpl in Hempty. revert Hempty. apply join_cons_nonempty.
      apply many_words_nonempty. by inversion Hlong.
  - intros Hall. replace long with (@nil string); [done|].
    symmetry. unfold long. clear Hlong long.
    induction Hall as [|s l Hs _ IH]; simpl; [done|].
    destruct (Z.ltb_spec 5 (word_count s)); [lia|done].
Qed.

(** A character that is not the end of a sentence, or no character. *)
Lemma match_at_gap_none (before : option ascii) (s : string) :
  match before with
  | Some c => Re.mem false c sentence_end = false
  | None => True
  end ->
  Re.match_at false re_sentence_gap before s = None.
Proof.
  unfold Re.match_at, re_sentence_gap. simpl.
  destruct before as [c|]; [|done]. by intros ->.
Qed.

Lemma split_from_no_gap (fuel : nat) (before : option ascii)
    (cur : list ascii) (s : string) :
  (String.length s < fuel)%nat ->
  match before with
  | Some c => Re.mem false c sentence_end = false
  | None => True
  end ->
  none_of sentence_end s ->
  Re.split_from false re_sentence_gap fuel before cur s =
  [String.string_of_list_ascii (rev cur ++ String.list_ascii_of_string s)].
Proof.
  revert before cur s.
  induction fuel as [|fuel IH]; intros before cur s Hfuel Hb Hs; [lia|].
  cbn [Re.split_from]. rewrite match_at_gap_none by done.
  destruct s as [|c s']; simpl.
  - by rewrite app_nil_r.
  - destruct Hs as [Hc Hs']. rewrite IH; [|simpl in Hfuel; lia|done|done].
    simpl. by rewrite <- app_assoc.
Qed.

(** A text without [.], [!] and [?] is one sentence. *)
Lemma split_unpunctuated (text : string) :
  none_of sentence_end text ->
  Re.split false re_sentence_gap text = [text].
Proof.
  intros Hs. unfold Re.split. rewrite split_from_no_gap; [|lia|done|done].
  simpl. by rewrite String.string_of_list_ascii_of_string.
Qed.

(** X11. For a text of more than five words without a full stop, an
    exclamation mark or a question mark, the fallback summary is the whole
    text. *)
Theorem fallback_summary_of_unpunctuated (text : string) :
  none_of sentence_end text -> 5 < word_count text ->
  _fallback_summary text = text.
Proof.
  intros Hs Hlen. unfold _fallback_summary.
  rewrite split_unpunctuated by done. simpl.
  by destruct (Z.ltb_spec 5 (word_count text)); [|lia].
Qed.

Lemma fallback_summary_of_unpunctuated_witness :
  _fallback_summary "one two three four five six seven" =
  "one two three four five six seven".
Proof.
  apply fallback_summary_of_unpunctuated.
  - vm_compute. tauto.
  - vm_compute. reflexivity.
Defined.

(** *** [_clean_summary] *)

Lemma lower_char_not_upper (c : ascii) :
  PyStr.is_upper (PyStr.lower_char c) = false.
Proof.
  unfold PyStr.lower_char. destruct (PyStr.is_upper c) eqn:Hc; [|done].
  unfold PyStr.is_upper in *.
  apply andb_true_iff in Hc as [H1%N.leb_le H2%N.leb_le].
  rewrite N_ascii_embedding by lia.
  apply andb_false_iff. right. apply N.leb_gt. lia.
Qed.

Lemma upper_char_not_lower (c : ascii) :
  PyStr.is_lower (PyStr.upper_char c) = false.
Proof.
  unfold PyStr.upper_char. destruct (PyStr.is_lower c) eqn:Hc; [|done].
  unfold PyStr.is_lower in *.
  apply andb_true_iff in Hc as [H1%N.leb_le H2%N.leb_le].
  rewrite N_ascii_embedding by lia.
  apply andb_false_iff. left. apply N.leb_gt. lia.
Qed.

Lemma lower_no_upper (s : string) : no_upper (PyStr.lower s).
Proof.
  induction s as [|c s IH]; simpl; [done|].
  split; [apply lower_char_not_upper|done].
Qed.

(** X12. For an answer of ASCII characters, the cleaned summary does not
    start with one of the letters a to z and has none of the letters A to Z
    after its first character: whatever capitals the model wrote after the
    first character are lowered. *)
Theorem clean_summary_capitalized (summary : string) :
  ascii_text summary ->
  match _clean_summary summary with
  | EmptyString => True
  | String c rest => PyStr.is_lower c = false /\ no_upper rest
  end.
Proof.
  intros _. unfold _clean_summary, PyStr.capitalize.
  destruct (Re.sub false re_duplicate [Re.Ref 1] summary) as [|c rest];
    [done|].
  split; [apply upper_char_not_lower|apply lower_no_upper].
Qed.

Lemma clean_summary_capitalized_witness :
  PyStr.is_lower "T" = false /\ no_upper "he cat sat on the mat".
Proof.
  assert (Hanswer : ascii_text "the the Cat SAT on the Mat")
    by (vm_compute; tauto).
  pose proof (clean_summary_capitalized "the the Cat SAT on the Mat" Hanswer)
    as H.
  assert (Hclean : _clean_summary "the the Cat SAT on the Mat" =
                   "The cat sat on the mat") by (vm_compute; reflexivity).
  rewrite Hclean in H. exact H.
Defined.

End SummaryFacts.

(** * The corrected transcript is empty only for an empty text *)

Module CorrectFacts.

Import Re Main MainShape PyFacts ReFacts.

Lemma read_caps (p : ascii -> bool) (st st' : mstate) :
  read p st = Some st' -> caps st' = caps st.
Proof.
  unfold read. destruct (rest st) as [|c s']; [done|].
  destruct (p c); [|done]. by intros [= <-].
Qed.

Lemma read_string_caps (ignorecase : bool) (s : string) (st st' : mstate) :
  read_string ignorecase s st = Some st' -> caps st' = caps st.
Proof.
  revert st. induction s as [|c s IH]; intros st; simpl.
  - by intros [= <-].
  - destruct (read _ st) as [st1|] eqn:Hread; [|done].
    intros Hs%IH. apply read_caps in Hread. congruence.
Qed.

Lemma repeat_plus_keeps_caps
    (one : mstate -> (mstate -> option mstate) -> option mstate)
    (fuel : nat) :
  (forall st k out,
     one st k = Some out -> exists st1, k st1 = Some out /\ caps st1 = caps st) ->
  forall st k out,
    repeat_plus one fuel st k = Some out ->
    exists st1, k st1 = Some out /\ caps st1 = caps st.
Proof.
  intros Hone. induction fuel as [|fuel IH]; intros st k out; simpl; [done|].
  intros (st1 & Hk & Hcaps)%Hone.
  destruct (String.length (rest st1) <? String.length (rest st))%nat.
  - destruct (repeat_plus one fuel st1 k) as [out'|] eqn:Hrep; simpl in Hk.
    + injection Hk as ->. apply IH in Hrep as (st2 & Hk2 & Hcaps2).
      exists st2. split; [done|congruence].
    + by exists st1.
  - by exists st1.
Qed.

(** Reading a pattern without groups leaves the captures as they are. *)
Lemma run_keeps_caps (ignorecase : bool) (r : regex) :
  groupless r = true ->
  forall st k out,
    run ignorecase r st k = Some out ->
    exists st1, k st1 = Some out /\ caps st1 = caps st.
Proof.
  induction r as [|c|cs| | | |cs|r1 IH1 r2 IH2|r1 IH1 r2 IH2|r1 IH1|n r1 IH1|n];
    intros Hr st k out; simpl in *.
  - intros Hk. by exists st.
  - destruct (read _ st) as [st1|] eqn:Hread; [|done]. intros Hk.
    apply read_caps in Hread. by exists st1.
  - destruct (read _ st) as [st1|] eqn:Hread; [|done]. intros Hk.
    apply read_caps in Hread. by exists st1.
  - destruct (read _ st) as [st1|] eqn:Hread; [|done]. intros Hk.
    apply read_caps in Hread. by exists st1.
  - destruct (read _ st) as [st1|] eqn:Hread; [|done]. intros Hk.
    apply read_caps in Hread. by exists st1.
  - destruct (at_boundary st); [|done]. intros Hk. by exists st.
  - destruct (prev st) as [c|]; [|done].
    destruct (mem ignorecase c cs); [|done]. intros Hk. by exists st.
  - apply andb_true_iff in Hr as [Hr1 Hr2].
    intros (st1 & (st2 & Hk & Hcaps2)%(IH2 Hr2) & Hcaps1)%(IH1 Hr1).
    exists st2. split; [done|congruence].
  - apply andb_true_iff in Hr as [Hr1 Hr2].
    destruct (run ignorecase r1 st k) as [out'|] eqn:H1; simpl.
    + intros [= ->]. by apply (IH1 Hr1) in H1.
    + by apply IH2.
  - exact (repeat_plus_keeps_caps (run ignorecase r1)
             (S (String.length (rest st))) (IH1 Hr) st k out).
  - done.
  - destruct (group n (caps st)) as [s|]; [|done].
    destruct (read_string ignorecase s st) as [st1|] eqn:Hread; [|done].
    intros Hk. apply read_string_caps in Hread. by exists st1.
Qed.

Lemma slice_to_nonempty (n : nat) (s : string) :
  (0 < n)%nat -> s <> "" -> PyStr.slice_to n s <> "".
Proof. destruct n as [|n]; [lia|]. by destruct s. Qed.

Lemma consumed_nonempty (before after : string) :
  (String.length after < String.length before)%nat ->
  consumed before after <> "".
Proof.
  intros Hlt. unfold consumed. apply slice_to_nonempty; [lia|].
  intros ->. simpl in Hlt. lia.
Qed.

Lemma append_nonempty_l (a b : string) : a <> "" -> a +:+ b <> "".
Proof. destruct a as [|c a]; [done|]. by rewrite app_String. Qed.

Lemma append_nonempty_r (a b : string) : b <> "" -> a +:+ b <> "".
Proof.
  intros Hb Heq. apply (f_equal String.length) in Heq.
  rewrite append_length in Heq. destruct b; [done|]. simpl in Heq. lia.
Qed.

(** What [\s+([.,!?])] captures is a character. *)
Lemma space_before_capture (before : option ascii) (s : string)
    (st : mstate) :
  match_at false re_space_before before s = Some st ->
  expand [Ref 1] (caps st) <> "".
Proof.
  unfold match_at, re_space_before. cbn [cat run].
  intros (st1 & Hk & _)%(repeat_plus_hands_over true);
    [|apply (run_hands_over false Space)].
  cbn [run] in Hk.
  destruct (read _ st1) as [st2|] eqn:Hread; [|done].
  injection Hk as <-. cbn [expand caps group Nat.eqb default].
  apply append_nonempty_l, consumed_nonempty.
  by apply read_shorter in Hread.
Qed.

(** What [\b(\w+)\s+\1\b] captures is a word. *)
Lemma duplicate_capture (ignorecase : bool) (before : option ascii)
    (s : string) (st : mstate) :
  match_at ignorecase re_duplicate before s = Some st ->
  expand [Ref 1] (caps st) <> "".
Proof.
  unfold match_at, re_duplicate. cbn [cat].
  set (tail := Seq (Plus Space) (Seq (Backref 1) Boundary)).
  set (st0 := {| prev := before; rest := s; caps := [] |}).
  change (run ignorecase (Seq Boundary (Seq (Group 1 (Plus Word)) tail))
            st0 Some)
    with (if at_boundary st0
          then run ignorecase (Plus Word) st0 (fun st1 =>
                 run ignorecase tail
                   {| prev := prev st1; rest := rest st1;
                      caps := (1%nat, consumed (rest st0) (rest st1))
                              :: caps st1 |} Some)
          else None).
  destruct (at_boundary st0); [|done].
  intros (st1 & Hk & _ & Hlt)%(run_hands_over ignorecase (Plus Word)).
  apply (run_keeps_caps ignorecase tail eq_refl) in Hk
    as (st2 & [= <-] & Hcaps).
  rewrite Hcaps. cbn [expand caps group Nat.eqb default].
  apply append_nonempty_l, consumed_nonempty. by apply Hlt.
Qed.

(** A substitution whose replacements are never empty keeps a text from
    becoming empty. *)
Lemma sub_nonempty (ignorecase : bool) (r : regex) (template : list piece)
    (text : string) :
  (forall before s st,
     match_at ignorecase r before s = Some st ->
     expand template (caps st) <> "") ->
  text <> "" -> sub ignorecase r template text <> "".
Proof.
  intros Hexpand Htext. unfold sub. cbn [sub_from].
  destruct (match_at ignorecase r None text) as [st|] eqn:Hm.
  - destruct (String.length (rest st) <? String.length text)%nat.
    + by apply append_nonempty_l, (Hexpand None text).
    + by destruct text.
  - by destruct text.
Qed.

Lemma expand_text (s : string) (rest : list piece) (cs : list (nat * string)) :
  s <> "" -> expand (Text s :: rest) cs <> "".
Proof. intros Hs. cbn [expand]. by apply append_nonempty_l. Qed.

Lemma apply_corrections_nonempty (text : string) :
  text <> "" -> apply_corrections correction_patterns text <> "".
Proof.
  intros Htext. unfold correction_patterns. cbn [apply_corrections].
  apply sub_nonempty; [intros before s st; apply duplicate_capture|].
  apply sub_nonempty.
  { intros before s st _. cbn [expand].
    by apply append_nonempty_r, append_nonempty_l. }
  do 9 (apply sub_nonempty; [intros before s st _; by apply expand_text|]).
  done.
Qed.

(** [re.split] returns at least one piece, and a single piece is the whole
    text. *)
Lemma split_from_not_nil (ignorecase : bool) (r : regex) (fuel : nat)
    (before : option ascii) (cur : list ascii) (s : string) :
  split_from ignorecase r fuel before cur s <> [].
Proof.
  revert before cur s.
  induction fuel as [|fuel IH]; intros before cur s; cbn [split_from]; [done|].
  destruct (match_at ignorecase r before s) as [st|].
  - destruct (String.length (rest st) <? String.length s)%nat; [done|].
    destruct s; [done|apply IH].
  - destruct s; [done|apply IH].
Qed.

Lemma split_from_single (ignorecase : bool) (r : regex) (fuel : nat)
    (before : option ascii) (cur : list ascii) (s x : string) :
  (String.length s < fuel)%nat ->
  split_from ignorecase r fuel before cur s = [x] ->
  x = String.string_of_list_ascii (rev cur ++ String.list_ascii_of_string s).
Proof.
  revert before cur s.
  induction fuel as [|fuel IH]; intros before cur s Hfuel; [lia|].
  cbn [split_from].
  assert (Hskip :
    match s with
    | String c s' => split_from ignorecase r fuel (Some c) (c :: cur) s'
    | EmptyString => [String.string_of_list_ascii (rev cur)]
    end = [x] ->
    x = String.string_of_list_ascii
          (rev cur ++ String.list_ascii_of_string s)).
  { destruct s as [|c s']; simpl.
    - rewrite app_nil_r. by intros [= <-].
    - intros Hx%IH; [|simpl in Hfuel; lia]. subst x. simpl.
      by rewrite <- app_assoc. }
  destruct (match_at ignorecase r before s) as [st|]; [|done].
  destruct (String.length (rest st) <? String.length s)%nat; [|done].
  intros [= _ Hnil]. by apply split_from_not_nil in Hnil.
Qed.

Lemma join_empty (sep : string) (l : list string) :
  sep <> "" -> PyStr.join sep l = "" -> l = [] \/ l = [""].
Proof.
  intros Hsep. destruct l as [|x [|y l]]; simpl.
  - by left.
  - intros ->. by right.
  - intros Heq. exfalso. revert Heq.
    by apply append_nonempty_r, append_nonempty_l.
Qed.

Lemma capitalize_sentence_empty (sentence : string) :
  capitalize_sentence sentence = "" -> sentence = "".
Proof. by destruct sentence. Qed.

Lemma sentences_nonempty (fixed : string) :
  fixed <> "" ->
  PyStr.join " "
    (List.map capitalize_sentence (split false re_sentence_gap fixed)) <> "".
Proof.
  intros Hfixed Hjoin.
  apply join_empty in Hjoin as [Hnil|Hone]; [| |done].
  - apply map_eq_nil in Hnil. by apply split_from_not_nil in Hnil.
  - unfold split in Hone.
    destruct (split_from false re_sentence_gap _ None [] fixed)
      as [|x [|y l]] eqn:Hsplit; [done| |done].
    injection Hone as Hx%capitalize_sentence_empty. subst x.
    apply split_from_single in Hsplit; [|lia]. simpl in Hsplit.
    rewrite String.string_of_list_ascii_of_string in Hsplit. done.
Qed.

Lemma correct_with_nonempty (table : list (regex * list piece))
    (text : string) :
  apply_corrections table text <> "" -> correct_with table text <> "".
Proof.
  intros Htext. unfold correct_with.
  apply sentences_nonempty.
  apply sub_nonempty.
  { intros before s st _. cbn [expand].
    by apply append_nonempty_r, append_nonempty_l. }
  by apply sub_nonempty; [apply space_before_capture|].
Qed.

Lemma correct_transcript_of_empty : _correct_transcript "" = "".
Proof. vm_compute. reflexivity. Qed.

Lemma correct_transcript_nonempty (text : string) :
  text <> "" -> _correct_transcript text <> "".
Proof.
  intros Hne. unfold _correct_transcript.
  apply correct_with_nonempty. by apply apply_corrections_nonempty.
Qed.

(** X20. The corrected transcript is empty only when the text is: no
    substitution, and neither the spacing fixes nor the capitalisation,
    deletes a non-empty text. *)
Theorem correct_transcript_empty_iff (text : string) :
  _correct_transcript text = "" <-> text = "".
Proof.
  split.
  - intros Hempty. destruct (decide (text = "")) as [|Hne]; [done|].
    by apply correct_transcript_nonempty in Hne.
  - intros ->. apply correct_transcript_of_empty.
Qed.

Lemma clean_summary_of_empty : _clean_summary "" = "".
Proof. vm_compute. reflexivity. Qed.

Lemma clean_summary_nonempty (summary : string) :
  summary <> "" -> _clean_summary summary <> "".
Proof.
  intros Hne. unfold _clean_summary.
  assert (Hsub : sub false re_duplicate [Ref 1] summary <> "").
  { apply sub_nonempty; [|done]. intros before s st.
    apply duplicate_capture. }
  by destruct (sub false re_duplicate [Ref 1] summary).
Qed.

(** X26. The cleaned summary is empty only when the answer of the model
    is: removing repeated words never deletes the whole text. *)
Theorem clean_summary_empty_iff (summary : string) :
  _clean_summary summary = "" <-> summary = "".
Proof.
  split.
  - intros Hempty. destruct (decide (summary = "")) as [|Hne]; [done|].
    by apply clean_summary_nonempty in Hne.
  - intros ->. apply clean_summary_of_empty.
Qed.

Section results.

Variable write_audiofile : string -> write_outcome.
Variable asr_pipeline : string -> result string.
Variable summarizer : string -> Z -> Z -> result string.

Abbreviation summarize_video :=
  (summarize_video write_audiofile asr_pipeline summarizer).

(** X21. [summarize_video] returns None in three cases only: the audio
    writer failed, the speech model raised, or the speech model returned
    the empty text.  Any other text, also one of white space only, gives a
    result. *)
Theorem summarize_video_none_iff (video_path : string) (w : World) :
  fst (summarize_video video_path w) = Ok None <->
  match write_audiofile video_path with
  | WriteFailed _ _ => True
  | Written =>
      match asr_pipeline temp_audio with
      | Raise _ => True
      | Ok raw_text => raw_text = ""
      end
  end.
Proof.
  destruct (PipelineFacts.summarize_video_cases write_audiofile asr_pipeline
              summarizer video_path w) as
    [e file_left Hw|e Hw Ha|raw Hw Ha Hempty|raw Hw Ha Hne _|raw sm Hw Ha Hlen _
    |raw e Hw Ha Hlen _]; rewrite Hw; try rewrite Ha; simpl.
  - done.
  - done.
  - split; [intros _|done].
    destruct (decide (raw = "")) as [|Hne]; [done|].
    by apply correct_transcript_nonempty in Hne.
  - split; [done|]. intros ->. exfalso.
    apply Hne, correct_transcript_of_empty.
  - split; [done|]. intros ->.
    rewrite correct_transcript_of_empty in Hlen. vm_compute in Hlen.
    by destruct Hlen.
  - split; [done|]. intros ->.
    rewrite correct_transcript_of_empty in Hlen. vm_compute in Hlen.
    by destruct Hlen.
Qed.

(** A result has a summary. *)
Lemma summarize_video_result_complete_or_none
    (video_path : string) (w : World) :
  match fst (summarize_video video_path w) with
  | Ok (Some s) => exists sm, summary s = Some sm
  | Ok None => True
  | Raise _ => False
  end.
Proof.
  destruct (PipelineFacts.summarize_video_cases write_audiofile asr_pipeline
              summarizer video_path w); simpl; by eauto.
Qed.

(** X22. A result is always complete: its transcription is not empty and
    its summary is a string, never None; the summary is the transcription
    itself, a cleaned answer of the summarization model, or the fallback
    summary of the transcription. *)
Theorem summarize_video_result_complete
    (video_path : string) (w : World) (s : Summary) :
  fst (summarize_video video_path w) = Ok (Some s) ->
  transcription s <> "" /\
  exists sm,
    summary s = Some sm /\
    (sm = transcription s \/
     (exists answer, sm = _clean_summary answer) \/
     sm = _fallback_summary (transcription s)).
Proof.
  destruct (PipelineFacts.summarize_video_cases write_audiofile asr_pipeline
              summarizer video_path w) as
    [e file_left Hw|e Hw Ha|raw Hw Ha Hempty|raw Hw Ha Hne _|raw sm Hw Ha Hlen _
    |raw e Hw Ha Hlen _]; simpl; try done; intros [= <-]; simpl.
  - split; [done|]. eexists. split; [done|]. by left.
  - split.
    + by destruct (MainFacts.long_text_truthy _ Hlen) as (c & t' & ->).
    + eexists. split; [done|]. right. left. by eexists.
  - split.
    + by destruct (MainFacts.long_text_truthy _ Hlen) as (c & t' & ->).
    + eexists. split; [done|]. by right; right.
Qed.

End results.

Lemma summarize_video_result_complete_witness :
  let s := {| transcription := _correct_transcript example_raw_text;
              summary :=
                Some (_fallback_summary
                        (_correct_transcript example_raw_text)) |} in
  transcription s <> "" /\
  exists sm,
    summary s = Some sm /\
    (sm = transcription s \/
     (exists answer, sm = _clean_summary answer) \/
     sm = _fallback_summary (transcription s)).
Proof.
  intros s.
  apply (summarize_video_result_complete writes_audio hears_example
           summarizer_fails "video.mp4" empty_world s).
  rewrite (MainFacts.summarize_video_summarization_failed writes_audio
             hears_example summarizer_fails "video.mp4" example_raw_text
             empty_world (ExternalError "CUDA out of memory") eq_refl
             eq_refl MainFacts.example_text_long eq_refl).
  subst s. cbn [fst]. reflexivity.
Defined.

End CorrectFacts.

(** * The sentences of the corrected transcript *)

Module SentenceFacts.

Import Re Main MainShape PyFacts ReFacts CorrectFacts.

Lemma space_not_end (p : ascii) :
  PyStr.isspace p = true -> mem false p sentence_end = false.
Proof.
  intros Hp. unfold mem, sentence_end, char_eq. simpl.
  destruct (Ascii.eqb_spec p ".") as [->|_]; [done|].
  destruct (Ascii.eqb_spec p "!") as [->|_]; [done|].
  destruct (Ascii.eqb_spec p "?") as [->|_]; [done|]. done.
Qed.

Lemma lstrip_length (s : string) :
  (String.length (PyStr.lstrip s) <= String.length s)%nat.
Proof.
  induction s as [|c s IH]; simpl; [done|].
  destruct (PyStr.isspace c); simpl; lia.
Qed.

Lemma lstrip_starts (s : string) :
  match PyStr.lstrip s with
  | EmptyString => True
  | String d _ => PyStr.isspace d = false
  end.
Proof.
  induction s as [|c s IH]; simpl; [done|].
  by destruct (PyStr.isspace c) eqn:Hc.
Qed.

(** [\s+] before the end of the pattern reads all the white space there
    is. *)
Lemma spaces_greedy (fuel : nat) (st : mstate) (c : ascii) (s' : string) :
  (String.length (rest st) < fuel)%nat ->
  rest st = String c s' -> PyStr.isspace c = true ->
  exists p,
    PyStr.isspace p = true /\
    repeat_plus (run false Space) fuel st Some =
      Some {| prev := Some p; rest := PyStr.lstrip s'; caps := caps st |}.
Proof.
  set (one := run false Space). revert st c s'.
  induction fuel as [|fuel IH]; intros st c s' Hfuel Hrest Hc; [lia|].
  cbn [repeat_plus]. unfold one at 1. cbn [run]. unfold read at 1.
  rewrite Hrest, Hc. cbn [rest]. rewrite Hrest in Hfuel. simpl in Hfuel.
  destruct (Nat.ltb_spec (String.length s') (String.length (String c s')))
    as [_|Hge]; [|simpl in Hge; lia].
  destruct s' as [|c2 s''].
  - exists c. split; [done|]. by destruct fuel.
  - destruct (PyStr.isspace c2) eqn:Hc2.
    + destruct (IH {| prev := Some c; rest := String c2 s''; caps := caps st |}
                  c2 s'') as (p & Hp & ->); [simpl in *; lia|done|done|].
      exists p. split; [done|]. simpl. by rewrite Hc2.
    + exists c. split; [done|]. simpl. rewrite Hc2.
      destruct fuel as [|fuel]; [done|].
      cbn [repeat_plus]. unfold one at 1. cbn [run]. unfold read at 1.
      cbn [rest]. by rewrite Hc2.
Qed.

Lemma match_at_gap_unfold (before : option ascii) (s : string) :
  match_at false re_sentence_gap before s =
  if is_end before then
    repeat_plus (run false Space) (S (String.length s))
      {| prev := before; rest := s; caps := [] |} Some
  else None.
Proof. by destruct before. Qed.

Lemma match_at_gap_some (before : option ascii) (c : ascii) (s' : string) :
  is_end before = true -> PyStr.isspace c = true ->
  exists p,
    PyStr.isspace p = true /\
    match_at false re_sentence_gap before (String c s') =
      Some {| prev := Some p; rest := PyStr.lstrip s'; caps := [] |}.
Proof.
  intros Hend Hc. rewrite match_at_gap_unfold, Hend.
  apply (spaces_greedy _
           {| prev := before; rest := String c s'; caps := [] |} c s');
    [simpl; lia|done|done].
Qed.

Lemma match_at_gap_not_space (before : option ascii) (s : string) :
  match s with
  | EmptyString => True
  | String c _ => PyStr.isspace c = false
  end ->
  match_at false re_sentence_gap before s = None.
Proof.
  intros Hs. rewrite match_at_gap_unfold.
  destruct (is_end before); [|done].
  cbn [repeat_plus run]. unfold read at 1. cbn [rest].
  destruct s as [|c s']; [done|]. by rewrite Hs.
Qed.

Lemma string_of_list_app (l1 l2 : list ascii) :
  String.string_of_list_ascii (l1 ++ l2) =
  String.string_of_list_ascii l1 +:+ String.string_of_list_ascii l2.
Proof.
  induction l1 as [|x l1 IH]; simpl; [done|]. by rewrite IH, app_String.
Qed.

(** What has been read of the current piece goes in front of the first
    piece. *)
Lemma split_from_cur (r : regex) (fuel : nat) (before : option ascii)
    (cur : list ascii) (s : string) :
  split_from false r fuel before cur s =
  match split_from false r fuel before [] s with
  | x :: xs => (String.string_of_list_ascii (rev cur) +:+ x) :: xs
  | [] => []
  end.
Proof.
  revert before cur s.
  induction fuel as [|fuel IH]; intros before cur s; cbn [split_from].
  - simpl. by rewrite app_nil_r_str.
  - assert (Hskip :
      match s with
      | String c s' => split_from false r fuel (Some c) (c :: cur) s'
      | EmptyString => [String.string_of_list_ascii (rev cur)]
      end =
      match
        match s with
        | String c s' => split_from false r fuel (Some c) [c] s'
        | EmptyString => [String.string_of_list_ascii (rev [])]
        end
      with
      | x :: xs => (String.string_of_list_ascii (rev cur) +:+ x) :: xs
      | [] => []
      end).
    { destruct s as [|c s']; [simpl; by rewrite app_nil_r_str|].
      rewrite (IH (Some c) (c :: cur)), (IH (Some c) [c]).
      destruct (split_from false r fuel (Some c) [] s') as [|x xs]; [done|].
      f_equal. simpl. rewrite string_of_list_app. simpl.
      by rewrite app_assoc_str. }
    destruct (match_at false r before s) as [st|]; [|done].
    destruct (String.length (rest st) <? String.length s)%nat; [|done].
    simpl. by rewrite app_nil_r_str.
Qed.

Lemma capitalize_join (y : string) (l : list string) :
  capitalize_sentence (PyStr.join " " (y :: l)) =
  PyStr.join " " (capitalize_sentence y :: l).
Proof.
  destruct y as [|d y'], l as [|z l']; try done.
Qed.

(** [re.split], one step at a time. *)
Lemma split_from_end (r : regex) (fuel : nat) (before : option ascii)
    (cur : list ascii) :
  match_at false r before "" = None ->
  split_from false r (S fuel) before cur "" =
  [String.string_of_list_ascii (rev cur)].
Proof. intros Hm. cbn [split_from]. by rewrite Hm. Qed.

Lemma split_from_none (r : regex) (fuel : nat) (before : option ascii)
    (cur : list ascii) (c : ascii) (s' : string) :
  match_at false r before (String c s') = None ->
  split_from false r (S fuel) before cur (String c s') =
  split_from false r fuel (Some c) (c :: cur) s'.
Proof. intros Hm. cbn [split_from]. by rewrite Hm. Qed.

Lemma split_from_some (r : regex) (fuel : nat) (before : option ascii)
    (cur : list ascii) (s : string) (st : mstate) :
  match_at false r before s = Some st ->
  (String.length (rest st) < String.length s)%nat ->
  split_from false r (S fuel) before cur s =
  String.string_of_list_ascii (rev cur) ::
  split_from false r fuel (prev st) [] (rest st).
Proof.
  intros Hm Hlt. cbn [split_from]. rewrite Hm.
  by destruct (Nat.ltb_spec (String.length (rest st)) (String.length s));
    [|lia].
Qed.

Lemma joined_nil (before : option ascii) : joined_sentences before "" = "".
Proof.
  unfold joined_sentences.
  by rewrite split_from_end by (by apply match_at_gap_not_space).
Qed.

Lemma joined_skip (before : option ascii) (c : ascii) (s' : string) :
  is_end before && PyStr.isspace c = false ->
  joined_sentences before (String c s') =
  String c (joined_sentences (Some c) s').
Proof.
  intros Hno. unfold joined_sentences.
  assert (Hnone : match_at false re_sentence_gap before (String c s') = None).
  { apply andb_false_iff in Hno as [Hend|Hc].
    - rewrite match_at_gap_unfold. by rewrite Hend.
    - by apply match_at_gap_not_space. }
  rewrite (split_from_none _ _ _ _ _ _ Hnone), split_from_cur.
  change (String.length (String c s')) with (S (String.length s')).
  destruct (split_from false re_sentence_gap _ (Some c) [] s') as [|x xs]
    eqn:Hsplit; [by apply split_from_not_nil in Hsplit|].
  simpl. destruct xs; [done|]. by rewrite !app_String.
Qed.

Lemma joined_gap (before : option ascii) (c : ascii) (s' : string) :
  is_end before = true -> PyStr.isspace c = true ->
  exists p,
    PyStr.isspace p = true /\
    joined_sentences before (String c s') =
    " " +:+ capitalize_sentence (joined_sentences (Some p) (PyStr.lstrip s')).
Proof.
  intros Hend Hc.
  destruct (match_at_gap_some before c s' Hend Hc) as (p & Hp & Hm).
  exists p. split; [done|].
  unfold joined_sentences.
  pose proof (lstrip_length s') as Hle.
  rewrite (split_from_some _ _ _ _ _ _ Hm) by (simpl; lia).
  cbn [rest prev].
  change (String.length (String c s')) with (S (String.length s')).
  rewrite (split_from_fuel false re_sentence_gap (S (String.length s'))
             (S (String.length (PyStr.lstrip s')))) by lia.
  destruct (split_from false re_sentence_gap _ (Some p) [] (PyStr.lstrip s'))
    as [|y ys] eqn:Hsplit; [by apply split_from_not_nil in Hsplit|].
  rewrite capitalize_join. reflexivity.
Qed.

Lemma is_end_upper (d : ascii) :
  is_end (Some (PyStr.upper_char d)) = is_end (Some d).
Proof.
  unfold PyStr.upper_char. destruct (PyStr.is_lower d) eqn:Hd; [|done].
  unfold PyStr.is_lower in Hd.
  apply andb_true_iff in Hd as [H1%N.leb_le H2%N.leb_le].
  rewrite <- (ascii_N_embedding d) at 2.
  set (n := N_of_ascii d) in *.
  assert (Hcases : forall m, (m < 128)%N ->
            m <> 46%N -> m <> 33%N -> m <> 63%N ->
            is_end (Some (ascii_of_N m)) = false).
  { intros m Hm H46 H33 H63. unfold is_end, mem, sentence_end. simpl.
    unfold char_eq.
    destruct (Ascii.eqb_spec (ascii_of_N m) ".") as [He|_].
    { apply (f_equal N_of_ascii) in He. rewrite N_ascii_embedding in He by lia.
      done. }
    destruct (Ascii.eqb_spec (ascii_of_N m) "!") as [He|_].
    { apply (f_equal N_of_ascii) in He. rewrite N_ascii_embedding in He by lia.
      done. }
    destruct (Ascii.eqb_spec (ascii_of_N m) "?") as [He|_].
    { apply (f_equal N_of_ascii) in He. rewrite N_ascii_embedding in He by lia.
      done. }
    done. }
  rewrite !Hcases by lia. done.
Qed.

Lemma isspace_upper (d : ascii) :
  PyStr.isspace (PyStr.upper_char d) = PyStr.isspace d.
Proof.
  unfold PyStr.upper_char. destruct (PyStr.is_lower d) eqn:Hd; [|done].
  unfold PyStr.is_lower in Hd.
  apply andb_true_iff in Hd as [H1%N.leb_le H2%N.leb_le].
  unfold PyStr.isspace. rewrite N_ascii_embedding by lia.
  transitivity false; [|symmetry];
    apply orb_false_iff; split; apply andb_false_iff;
    first [left; apply N.leb_gt; lia | right; apply N.leb_gt; lia].
Qed.

Lemma tidy_before (b1 b2 : option ascii) (s : string) :
  is_end b1 = is_end b2 -> tidy b1 s -> tidy b2 s.
Proof. intros Hb. destruct s as [|c s']; [done|]. simpl. by rewrite Hb. Qed.

Lemma tidy_capitalize (b : option ascii) (s : string) :
  tidy b s -> tidy b (capitalize_sentence s).
Proof.
  destruct s as [|d s']; [done|]. simpl. intros [Hfirst Hrest]. split.
  - rewrite isspace_upper. intros Hend Hd.
    destruct (Hfirst Hend Hd) as [-> Hs]. by split.
  - revert Hrest. apply tidy_before. by rewrite is_end_upper.
Qed.

Lemma starts_capitalized (t : string) :
  match t with
  | EmptyString => True
  | String d _ => PyStr.isspace d = false
  end ->
  forall before, starts_sentence (capitalize_sentence (joined_sentences before t)).
Proof.
  intros Ht before. destruct t as [|d t']; [by rewrite joined_nil|].
  rewrite joined_skip by (rewrite Ht; apply andb_false_r).
  simpl. split; [by rewrite isspace_upper|].
  apply SummaryFacts.upper_char_not_lower.
Qed.

(** The joined sentences are tidy. *)
Lemma joined_tidy (n : nat) (s : string) (before b' : option ascii) :
  (String.length s <= n)%nat ->
  is_end b' = is_end before -> tidy b' (joined_sentences before s).
Proof.
  revert s before b'.
  induction n as [|n IH]; intros s before b' Hn Hb.
  { destruct s; [by rewrite joined_nil|simpl in Hn; lia]. }
  destruct s as [|c s']; [by rewrite joined_nil|]. simpl in Hn.
  destruct (is_end before && PyStr.isspace c) eqn:Hgap.
  - apply andb_true_iff in Hgap as [Hend Hc].
    destruct (joined_gap before c s' Hend Hc) as (p & Hp & ->).
    rewrite app_String, app_empty. simpl. split.
    + intros _ _. split; [done|]. apply starts_capitalized, lstrip_starts.
    + apply tidy_capitalize, IH.
      * pose proof (lstrip_length s'). lia.
      * unfold is_end. by rewrite (space_not_end p Hp).
  - rewrite joined_skip by done. simpl. split.
    + rewrite Hb. intros Hend Hc. rewrite Hend, Hc in Hgap. done.
    + apply IH; [lia|done].
Qed.

Lemma tidy_spec (b : option ascii) (s a : string) (p c : ascii)
    (rest : string) :
  tidy b s -> s = a +:+ String p (String c rest) ->
  mem false p sentence_end = true -> PyStr.isspace c = true ->
  c = " "%char /\ starts_sentence rest.
Proof.
  revert b s. induction a as [|x a IH]; intros b s Htidy -> Hp Hc.
  - rewrite app_empty in Htidy. simpl in Htidy.
    destruct Htidy as (_ & Hgap & _). by apply Hgap.
  - rewrite app_String in Htidy. simpl in Htidy.
    destruct Htidy as [_ Htidy]. by apply (IH _ _ Htidy).
Qed.

Lemma correct_with_joined (table : list (regex * list piece))
    (text : string) :
  exists fixed,
    correct_with table text =
    capitalize_sentence (joined_sentences None fixed).
Proof.
  unfold correct_with. set (fixed := sub false re_no_space_after _ _).
  exists fixed. clearbody fixed. unfold split, joined_sentences.
  destruct (split_from false re_sentence_gap _ None [] _) as [|y ys] eqn:Hsplit;
    [by apply split_from_not_nil in Hsplit|].
  by rewrite capitalize_join.
Qed.

(** X23. The corrected transcript has its sentences capitalised and set
    one space apart: it does not start with one of the letters a to z, and
    wherever a full stop, an exclamation mark or a question mark is
    followed by white space, that white space is a single space character
    and what follows it is the end of the text or a character that is
    neither white space nor one of the letters a to z. *)
Theorem corrected_sentences_capitalized (text : string) :
  let out := _correct_transcript text in
  match out with
  | EmptyString => True
  | String c _ => PyStr.is_lower c = false
  end /\
  forall (a : string) (p c : ascii) (rest : string),
    out = a +:+ String p (String c rest) ->
    mem false p sentence_end = true -> PyStr.isspace c = true ->
    c = " "%char /\ starts_sentence rest.
Proof.
  cbv zeta. unfold _correct_transcript.
  destruct (correct_with_joined correction_patterns text) as [fixed ->].
  split.
  - destruct (joined_sentences None fixed) as [|d j]; [done|].
    apply SummaryFacts.upper_char_not_lower.
  - intros a p c rest Hout.
    refine (tidy_spec None _ a p c rest _ Hout).
    apply tidy_capitalize, (joined_tidy (String.length fixed)); [lia|done].
Qed.

Lemma corrected_sentences_capitalized_witness :
  " "%char = " "%char /\ starts_sentence "World".
Proof.
  assert (Hout : _correct_transcript "hello.   world" =
                 "Hello" +:+ String "." (String " " "World"))
    by (vm_compute; reflexivity).
  pose proof (corrected_sentences_capitalized "hello.   world") as H.
  cbv zeta in H.
  destruct H as [_ H].
  specialize (H "Hello" "."%char " "%char "World" Hout).
  apply H; reflexivity.
Defined.

End SentenceFacts.

(** * Punctuation and spacing of the corrected transcript *)

Module SpacingFacts.

Import Re Main MainShape PyFacts ReFacts CorrectFacts SentenceFacts.

(** ** Character classes *)

Lemma punct_cases (c : ascii) :
  mem false c punctuation = true ->
  c = "."%char \/ c = ","%char \/ c = "!"%char \/ c = "?"%char.
Proof.
  unfold mem, punctuation, char_eq. simpl.
  destruct (Ascii.eqb_spec c ".") as [->|_]; [by left|].
  destruct (Ascii.eqb_spec c ",") as [->|_]; [by right; left|].
  destruct (Ascii.eqb_spec c "!") as [->|_]; [by right; right; left|].
  destruct (Ascii.eqb_spec c "?") as [->|_]; [by right; right; right|].
  done.
Qed.

Lemma punct_not_space (c : ascii) :
  mem false c punctuation = true -> PyStr.isspace c = false.
Proof. by intros [->|[->|[->| ->]]]%punct_cases. Qed.

Lemma punct_not_word (c : ascii) :
  mem false c punctuation = true -> is_word c = false.
Proof. by intros [->|[->|[->| ->]]]%punct_cases. Qed.

Lemma punct_not_lower (c : ascii) :
  mem false c punctuation = true -> PyStr.is_lower c = false.
Proof. by intros [->|[->|[->| ->]]]%punct_cases. Qed.

Lemma punct_not_upper (c : ascii) :
  mem false c punctuation = true -> PyStr.is_upper c = false.
Proof. by intros [->|[->|[->| ->]]]%punct_cases. Qed.

Lemma space_not_punct (c : ascii) :
  PyStr.isspace c = true -> mem false c punctuation = false.
Proof.
  intros Hc. destruct (mem false c punctuation) eqn:Hp; [|done].
  apply punct_not_space in Hp. congruence.
Qed.

Lemma word_not_punct (c : ascii) :
  is_word c = true -> mem false c punctuation = false.
Proof.
  intros Hc. destruct (mem false c punctuation) eqn:Hp; [|done].
  apply punct_not_word in Hp. congruence.
Qed.

Lemma upper_of_lower (c : ascii) :
  PyStr.is_lower c = true -> PyStr.is_upper (PyStr.upper_char c) = true.
Proof.
  intros Hc. unfold PyStr.upper_char. rewrite Hc.
  unfold PyStr.is_lower in Hc.
  apply andb_true_iff in Hc as [H1%N.leb_le H2%N.leb_le].
  unfold PyStr.is_upper. rewrite N_ascii_embedding by lia.
  apply andb_true_iff. split; apply N.leb_le; lia.
Qed.

Lemma punct_upper (d : ascii) :
  mem false (PyStr.upper_char d) punctuation = mem false d punctuation.
Proof.
  destruct (PyStr.is_lower d) eqn:Hd.
  - destruct (mem false d punctuation) eqn:H1.
    { apply punct_not_lower in H1. congruence. }
    destruct (mem false (PyStr.upper_char d) punctuation) eqn:H2; [|done].
    apply punct_not_upper in H2. rewrite upper_of_lower in H2; done.
  - unfold PyStr.upper_char. by rewrite Hd.
Qed.

Lemma word_upper (d : ascii) : is_word (PyStr.upper_char d) = is_word d.
Proof.
  destruct (PyStr.is_lower d) eqn:Hd.
  - unfold is_word. rewrite Hd, (upper_of_lower d Hd). simpl.
    by rewrite orb_true_r.
  - unfold PyStr.upper_char. by rewrite Hd.
Qed.

(** ** [\s+([.,!?])] *)

Lemma orelse_none {A : Type} (x : option A) : orelse x None = x.
Proof. by destruct x. Qed.

(** [\s+] before a pattern that does not start with white space reads all
    the white space there is. *)
Lemma spaces_then (fuel : nat) (st : mstate)
    (K : mstate -> option mstate) (c : ascii) (s' : string) :
  (String.length (rest st) < fuel)%nat ->
  rest st = String c s' -> PyStr.isspace c = true ->
  (forall st1 x r,
     rest st1 = String x r -> PyStr.isspace x = true -> K st1 = None) ->
  exists p,
    PyStr.isspace p = true /\
    repeat_plus (run false Space) fuel st K =
      K {| prev := Some p; rest := PyStr.lstrip s'; caps := caps st |}.
Proof.
  set (one := run false Space). revert st c s'.
  induction fuel as [|fuel IH]; intros st c s' Hfuel Hrest Hc HK; [lia|].
  cbn [repeat_plus]. unfold one at 1. cbn [run]. unfold read at 1.
  rewrite Hrest, Hc. cbn [rest]. rewrite Hrest in Hfuel. simpl in Hfuel.
  destruct (Nat.ltb_spec (String.length s') (String.length (String c s')))
    as [_|Hge]; [|simpl in Hge; lia].
  destruct s' as [|c2 s''].
  - exists c. split; [done|]. by destruct fuel.
  - destruct (PyStr.isspace c2) eqn:Hc2.
    + destruct (IH {| prev := Some c; rest := String c2 s''; caps := caps st |}
                  c2 s'') as (p & Hp & ->); [simpl in *; lia|done|done|done|].
      exists p. split; [done|].
      rewrite (HK {| prev := Some c; rest := String c2 s''; caps := caps st |}
                 c2 s'' eq_refl Hc2).
      rewrite orelse_none. simpl. by rewrite Hc2.
    + exists c. split; [done|]. simpl PyStr.lstrip. rewrite Hc2.
      destruct fuel as [|fuel]; [done|].
      cbn [repeat_plus]. unfold one at 1. cbn [run]. unfold read at 1.
      cbn [rest]. by rewrite Hc2.
Qed.

Lemma spaces_none (fuel : nat) (st : mstate) (K : mstate -> option mstate) :
  match rest st with
  | String c _ => PyStr.isspace c = false
  | EmptyString => True
  end ->
  repeat_plus (run false Space) fuel st K = None.
Proof.
  intros Hst. destruct fuel as [|fuel]; [done|].
  cbn [repeat_plus run]. unfold read at 1.
  destruct (rest st) as [|c s']; [done|]. by rewrite Hst.
Qed.

Lemma match_space_before_unfold (before : option ascii) (s : string) :
  match_at false re_space_before before s =
  repeat_plus (run false Space) (S (String.length s))
    {| prev := before; rest := s; caps := [] |}
    (fun st1 => run false (Group 1 (OneOf punctuation)) st1 Some).
Proof. reflexivity. Qed.

Lemma consumed_one (c : ascii) (s : string) :
  consumed (String c s) s = String c "".
Proof.
  unfold consumed. simpl String.length.
  by replace (S (String.length s) - String.length s)%nat with 1%nat by lia.
Qed.

Lemma group_punct_reads (st1 : mstate) (p : ascii) (r : string) :
  rest st1 = String p r -> mem false p punctuation = true ->
  run false (Group 1 (OneOf punctuation)) st1 Some =
  Some {| prev := Some p; rest := r;
          caps := (1%nat, String p "") :: caps st1 |}.
Proof.
  intros Hrest Hp. cbn [run]. unfold read at 1. rewrite Hrest, Hp.
  cbn [prev rest caps]. by rewrite consumed_one.
Qed.

Lemma group_punct_other (st1 : mstate) :
  match rest st1 with
  | String p _ => mem false p punctuation = false
  | EmptyString => True
  end ->
  run false (Group 1 (OneOf punctuation)) st1 Some = None.
Proof.
  intros Hst. cbn [run]. unfold read at 1.
  destruct (rest st1) as [|p r]; [done|]. by rewrite Hst.
Qed.

Lemma match_space_before_some (before : option ascii) (c : ascii)
    (s' : string) (p : ascii) (s'' : string) :
  PyStr.isspace c = true -> PyStr.lstrip s' = String p s'' ->
  mem false p punctuation = true ->
  match_at false re_space_before before (String c s') =
  Some {| prev := Some p; rest := s''; caps := [(1%nat, String p "")] |}.
Proof.
  intros Hc Hl Hp. rewrite match_space_before_unfold.
  destruct (spaces_then (S (String.length (String c s')))
              {| prev := before; rest := String c s'; caps := [] |}
              (fun st1 => run false (Group 1 (OneOf punctuation)) st1 Some)
              c s') as (q & Hq & ->); [simpl; lia|done|done| |].
  - intros st1 x r Hrest Hx. apply group_punct_other. rewrite Hrest.
    by apply space_not_punct.
  - by apply group_punct_reads.
Qed.

Lemma match_space_before_none (before : option ascii) (s : string) :
  space_before_here s = false ->
  match_at false re_space_before before s = None.
Proof.
  intros Hhere. rewrite match_space_before_unfold.
  destruct s as [|c s']; [by apply spaces_none|].
  simpl in Hhere. destruct (PyStr.isspace c) eqn:Hc.
  - destruct (spaces_then (S (String.length (String c s')))
                {| prev := before; rest := String c s'; caps := [] |}
                (fun st1 => run false (Group 1 (OneOf punctuation)) st1 Some)
                c s') as (q & Hq & ->); [simpl; lia|done|done| |].
    + intros st1 x r Hrest Hx. apply group_punct_other. rewrite Hrest.
      by apply space_not_punct.
    + apply group_punct_other. cbn [rest]. simpl in Hhere.
      unfold punct_ahead in Hhere. by destruct (PyStr.lstrip s').
  - apply spaces_none. by cbn [rest].
Qed.

Lemma squeezed_nil (before : option ascii) : squeezed before "" = "".
Proof.
  unfold squeezed. rewrite sub_from_step_nonempty by reflexivity.
  by rewrite match_space_before_none.
Qed.

Lemma squeezed_match (before : option ascii) (c : ascii) (s' : string)
    (p : ascii) (s'' : string) :
  PyStr.isspace c = true -> PyStr.lstrip s' = String p s'' ->
  mem false p punctuation = true ->
  squeezed before (String c s') = String p (squeezed (Some p) s'').
Proof.
  intros Hc Hl Hp. unfold squeezed.
  rewrite sub_from_step_nonempty by reflexivity.
  rewrite (match_space_before_some before c s' p s'' Hc Hl Hp).
  cbn [expand caps prev rest group Nat.eqb default from_option id].
  by rewrite !app_String, !app_empty.
Qed.

Lemma squeezed_skip (before : option ascii) (c : ascii) (s' : string) :
  space_before_here (String c s') = false ->
  squeezed before (String c s') = String c (squeezed (Some c) s').
Proof.
  intros Hhere. unfold squeezed.
  rewrite sub_from_step_nonempty by reflexivity.
  by rewrite match_space_before_none.
Qed.

(** After the first fix no punctuation mark follows white space. *)
Lemma squeezed_ok (n : nat) (s : string) (before : option ascii) (b : bool) :
  (String.length s <= n)%nat ->
  (b = true -> punct_ahead s = false) ->
  no_space_before b (squeezed before s).
Proof.
  revert s before b.
  induction n as [|n IH]; intros s before b Hn Hpre.
  { destruct s; [by rewrite squeezed_nil|simpl in Hn; lia]. }
  destruct s as [|c s']; [by rewrite squeezed_nil|]. simpl in Hn.
  destruct (space_before_here (String c s')) eqn:Hhere.
  - simpl in Hhere. apply andb_true_iff in Hhere as [Hc Hahead].
    unfold punct_ahead in Hahead.
    destruct (PyStr.lstrip s') as [|p s''] eqn:Hl; [done|].
    rewrite (squeezed_match before c s' p s'' Hc Hl Hahead). simpl. split.
    + intros Hb. specialize (Hpre Hb). unfold punct_ahead in Hpre.
      simpl in Hpre. rewrite Hc, Hl in Hpre. congruence.
    + apply IH.
      * pose proof (lstrip_length s') as Hle. rewrite Hl in Hle.
        simpl in Hle. lia.
      * by rewrite punct_not_space.
  - rewrite squeezed_skip by done. simpl. split.
    + intros Hb. specialize (Hpre Hb). unfold punct_ahead in Hpre.
      simpl in Hpre. destruct (PyStr.isspace c) eqn:Hc; [|done].
      by apply space_not_punct.
    + apply IH; [lia|]. intros Hc. simpl in Hhere. by rewrite Hc in Hhere.
Qed.

(** ** [([.,!?])(\w)] *)

Lemma match_no_space_after_some (before : option ascii) (p w : ascii)
    (s' : string) :
  mem false p punctuation = true -> is_word w = true ->
  match_at false re_no_space_after before (String p (String w s')) =
  Some {| prev := Some w; rest := s';
          caps := [(2%nat, String w ""); (1%nat, String p "")] |}.
Proof.
  intros Hp Hw. unfold match_at, re_no_space_after. cbn [cat run].
  unfold read at 1. cbn [rest]. rewrite Hp. cbn [rest caps prev].
  unfold read at 1. cbn [rest]. rewrite Hw. cbn [rest caps prev].
  by rewrite !consumed_one.
Qed.

Lemma match_no_space_after_none (before : option ascii) (s : string) :
  word_after_here s = false ->
  match_at false re_no_space_after before s = None.
Proof.
  intros Hhere. unfold match_at, re_no_space_after. cbn [cat run].
  unfold read at 1. cbn [rest].
  destruct s as [|p s']; [done|].
  destruct (mem false p punctuation) eqn:Hp; [|done].
  cbn [rest caps prev]. unfold read at 1. cbn [rest].
  destruct s' as [|w s'']; [done|].
  unfold word_after_here in Hhere. rewrite Hp in Hhere. simpl in Hhere.
  by rewrite Hhere.
Qed.

Lemma spaced_nil (before : option ascii) : spaced before "" = "".
Proof.
  unfold spaced. rewrite sub_from_step_nonempty by reflexivity.
  by rewrite match_no_space_after_none.
Qed.

Lemma spaced_match (before : option ascii) (p w : ascii) (s' : string) :
  mem false p punctuation = true -> is_word w = true ->
  spaced before (String p (String w s')) =
  String p (String " " (String w (spaced (Some w) s'))).
Proof.
  intros Hp Hw. unfold spaced.
  rewrite sub_from_step_nonempty by reflexivity.
  rewrite (match_no_space_after_some before p w s' Hp Hw).
  cbn [expand caps prev rest group Nat.eqb default from_option id].
  by rewrite !app_String, !app_empty.
Qed.

Lemma spaced_skip (before : option ascii) (c : ascii) (s' : string) :
  word_after_here (String c s') = false ->
  spaced before (String c s') = String c (spaced (Some c) s').
Proof.
  intros Hhere. unfold spaced.
  rewrite sub_from_step_nonempty by reflexivity.
  by rewrite match_no_space_after_none.
Qed.

#[local] Arguments mem : simpl never.
#[local] Arguments is_word : simpl never.
#[local] Arguments PyStr.isspace : simpl never.

(** After the second fix no word character follows a punctuation mark. *)
Lemma spaced_ok (n : nat) (s : string) (before : option ascii) (b : bool) :
  (String.length s <= n)%nat ->
  (b = true ->
   match s with
   | String c _ => is_word c = false
   | EmptyString => True
   end) ->
  no_word_after b (spaced before s).
Proof.
  revert s before b.
  induction n as [|n IH]; intros s before b Hn Hpre.
  { destruct s; [by rewrite spaced_nil|simpl in Hn; lia]. }
  destruct s as [|c s']; [by rewrite spaced_nil|]. simpl in Hn.
  destruct (word_after_here (String c s')) eqn:Hhere.
  - destruct s' as [|w s'']; [done|]. simpl in Hhere.
    apply andb_true_iff in Hhere as [Hp Hw].
    rewrite (spaced_match before c w s'' Hp Hw). simpl.
    split; [done|]. rewrite Hp. split; [done|].
    split; [done|]. rewrite (word_not_punct w Hw).
    apply IH; [simpl in Hn; lia|done].
  - rewrite spaced_skip by done. simpl. split; [done|].
    apply IH; [lia|]. intros Hp. destruct s' as [|w s'']; [done|].
    simpl in Hhere. rewrite Hp in Hhere. done.
Qed.

(** The second fix does not put white space before a punctuation mark. *)
Lemma spaced_keeps (n : nat) (s : string) (before : option ascii)
    (b : bool) :
  (String.length s <= n)%nat ->
  no_space_before b s -> no_space_before b (spaced before s).
Proof.
  revert s before b.
  induction n as [|n IH]; intros s before b Hn Hs.
  { destruct s; [by rewrite spaced_nil|simpl in Hn; lia]. }
  destruct s as [|c s']; [by rewrite spaced_nil|]. simpl in Hn.
  destruct (word_after_here (String c s')) eqn:Hhere.
  - destruct s' as [|w s'']; [done|]. simpl in Hhere.
    apply andb_true_iff in Hhere as [Hp Hw].
    rewrite (spaced_match before c w s'' Hp Hw).
    simpl in Hs. destruct Hs as (Hc & _ & Hs). simpl.
    split; [done|]. split; [done|].
    split; [intros _; by apply word_not_punct|].
    apply IH; [simpl in Hn; lia|done].
  - rewrite spaced_skip by done. simpl in Hs. destruct Hs as [Hc Hs].
    simpl. split; [done|]. apply IH; [lia|done].
Qed.

(** ** The sentences, joined *)

Lemma no_space_before_lstrip (s : string) :
  no_space_before true s -> no_space_before true (PyStr.lstrip s).
Proof.
  induction s as [|c s IH]; [done|]. simpl.
  destruct (PyStr.isspace c) eqn:Hc.
  - intros [_ Hs]. by apply IH.
  - intros Hs. simpl. by rewrite Hc.
Qed.

Lemma no_space_before_capitalize (b : bool) (s : string) :
  no_space_before b s -> no_space_before b (capitalize_sentence s).
Proof.
  destruct s as [|d s']; [done|]. simpl.
  by rewrite punct_upper, isspace_upper.
Qed.

Lemma joined_keeps_space (n : nat) (s : string) (before : option ascii)
    (b : bool) :
  (String.length s <= n)%nat ->
  no_space_before b s -> no_space_before b (joined_sentences before s).
Proof.
  revert s before b.
  induction n as [|n IH]; intros s before b Hn Hs.
  { destruct s; [by rewrite joined_nil|simpl in Hn; lia]. }
  destruct s as [|c s']; [by rewrite joined_nil|]. simpl in Hn.
  simpl in Hs. destruct Hs as [Hfirst Hs].
  destruct (is_end before && PyStr.isspace c) eqn:Hgap.
  - apply andb_true_iff in Hgap as [Hend Hc].
    destruct (joined_gap before c s' Hend Hc) as (p & Hp & ->).
    rewrite app_String, app_empty. simpl. split; [done|].
    apply no_space_before_capitalize, IH.
    + pose proof (lstrip_length s'). lia.
    + apply no_space_before_lstrip. by rewrite Hc in Hs.
  - rewrite joined_skip by done. simpl. split; [done|].
    apply IH; [lia|done].
Qed.

Lemma no_word_after_weaken (b : bool) (s : string) :
  no_word_after b s -> no_word_after false s.
Proof. destruct s as [|c s']; [done|]. simpl. by intros [_ Hs]. Qed.

Lemma no_word_after_lstrip (b : bool) (s : string) :
  no_word_after b s -> no_word_after false (PyStr.lstrip s).
Proof.
  revert b. induction s as [|c s IH]; intros b; [done|].
  cbn [PyStr.lstrip]. destruct (PyStr.isspace c) eqn:Hc.
  - simpl. intros [_ Hs]. by apply (IH _ Hs).
  - apply no_word_after_weaken.
Qed.

Lemma no_word_after_capitalize (b : bool) (s : string) :
  no_word_after b s -> no_word_after b (capitalize_sentence s).
Proof.
  destruct s as [|d s']; [done|]. simpl.
  by rewrite punct_upper, word_upper.
Qed.

Lemma joined_keeps_word (n : nat) (s : string) (before : option ascii)
    (b : bool) :
  (String.length s <= n)%nat ->
  no_word_after b s -> no_word_after b (joined_sentences before s).
Proof.
  revert s before b.
  induction n as [|n IH]; intros s before b Hn Hs.
  { destruct s; [by rewrite joined_nil|simpl in Hn; lia]. }
  destruct s as [|c s']; [by rewrite joined_nil|]. simpl in Hn.
  simpl in Hs. destruct Hs as [Hfirst Hs].
  destruct (is_end before && PyStr.isspace c) eqn:Hgap.
  - apply andb_true_iff in Hgap as [Hend Hc].
    destruct (joined_gap before c s' Hend Hc) as (p & Hp & ->).
    rewrite app_String, app_empty. simpl. split; [done|].
    apply no_word_after_capitalize, IH.
    + pose proof (lstrip_length s'). lia.
    + by apply (no_word_after_lstrip _ _ Hs).
  - rewrite joined_skip by done. simpl. split; [done|].
    apply IH; [lia|done].
Qed.

Lemma no_space_before_spec (b : bool) (s a : string) (x y : ascii)
    (rest : string) :
  no_space_before b s -> s = a +:+ String x (String y rest) ->
  PyStr.isspace x = true -> mem false y punctuation = false.
Proof.
  revert b s. induction a as [|z a IH]; intros b s Hs -> Hx.
  - rewrite app_empty in Hs. simpl in Hs.
    destruct Hs as (_ & Hy & _). by apply Hy.
  - rewrite app_String in Hs. simpl in Hs.
    destruct Hs as [_ Hs]. by apply (IH _ _ Hs).
Qed.

Lemma no_word_after_spec (b : bool) (s a : string) (x y : ascii)
    (rest : string) :
  no_word_after b s -> s = a +:+ String x (String y rest) ->
  mem false x punctuation = true -> is_word y = false.
Proof.
  revert b s. induction a as [|z a IH]; intros b s Hs -> Hx.
  - rewrite app_empty in Hs. simpl in Hs.
    destruct Hs as (_ & Hy & _). by apply Hy.
  - rewrite app_String in Hs. simpl in Hs.
    destruct Hs as [_ Hs]. by apply (IH _ _ Hs).
Qed.

Lemma correct_with_stages (table : list (regex * list piece))
    (text : string) :
  exists corrected,
    correct_with table text =
    capitalize_sentence
      (joined_sentences None (spaced None (squeezed None corrected))).
Proof.
  exists (apply_corrections table text).
  unfold correct_with, sub.
  change (sub_from false re_space_before [Ref 1]
            (S (String.length (apply_corrections table text))) None
            (apply_corrections table text))
    with (squeezed None (apply_corrections table text)).
  generalize (squeezed None (apply_corrections table text)) as t1.
  intros t1.
  change (sub_from false re_no_space_after [Ref 1; Text " "; Ref 2]
            (S (String.length t1)) None t1)
    with (spaced None t1).
  generalize (spaced None t1) as t2. intros t2.
  unfold split, joined_sentences.
  destruct (split_from false re_sentence_gap _ None [] t2) as [|y ys]
    eqn:Hsplit; [by apply split_from_not_nil in Hsplit|].
  by rewrite capitalize_join.
Qed.

Lemma correct_with_spacing (table : list (regex * list piece))
    (text : string) :
  no_space_before false (correct_with table text) /\
  no_word_after false (correct_with table text).
Proof.
  destruct (correct_with_stages table text) as [t0 ->].
  set (t1 := squeezed None t0). set (t2 := spaced None t1).
  assert (H1 : no_space_before false t1)
    by (by apply (squeezed_ok (String.length t0))).
  assert (H2 : no_space_before false t2)
    by (by apply (spaced_keeps (String.length t1))).
  assert (H3 : no_word_after false t2)
    by (by apply (spaced_ok (String.length t1))).
  clearbody t2. split.
  - by apply no_space_before_capitalize,
      (joined_keeps_space (String.length t2)).
  - by apply no_word_after_capitalize, (joined_keeps_word (String.length t2)).
Qed.

(** X24. The punctuation of the corrected transcript is set tight: no
    full stop, comma, exclamation mark or question mark has white space
    right before it, and none has a letter, digit or underscore right
    after it.  The capitalisation of the sentences does not undo what the
    two spacing fixes did. *)
Theorem corrected_punctuation_spacing
    (text a : string) (x y : ascii) (rest : string) :
  _correct_transcript text = a +:+ String x (String y rest) ->
  (PyStr.isspace x = true -> mem false y punctuation = false) /\
  (mem false x punctuation = true -> is_word y = false).
Proof.
  unfold _correct_transcript. intros Hout.
  destruct (correct_with_spacing correction_patterns text) as [H1 H2].
  split.
  - by apply (no_space_before_spec false _ a x y rest H1).
  - by apply (no_word_after_spec false _ a x y rest H2).
Qed.

Lemma corrected_punctuation_spacing_witness :
  (PyStr.isspace "o" = true -> mem false "," punctuation = false) /\
  (mem false "o" punctuation = true -> is_word "," = false).
Proof.
  assert (Hout : _correct_transcript "hello ,world" =
                 "Hell" +:+ String "o" (String "," " world"))
    by (vm_compute; reflexivity).
  pose proof (corrected_punctuation_spacing "hello ,world" "Hell"
                "o"%char ","%char " world" Hout) as H.
  exact H.
Defined.

End SpacingFacts.

(** * The script block of [main.py] *)

Module ScriptFacts.

Import Main MainShape Script PyFacts.

(** X27. The preview that the script prints is the whole transcription
    when it has at most 1000 characters, and otherwise its first 1000
    characters followed by three dots: never more than 1003 characters. *)
Theorem preview_bounded (text : string) :
  (String.length (preview text) <= 1003)%nat /\
  ((String.length text <= 1000)%nat -> preview text = text) /\
  ((1000 < String.length text)%nat ->
   preview text = PyStr.slice_to 1000 text +:+ "..." /\
   String.length (preview text) = 1003%nat).
Proof.
  unfold preview. pose proof (slice_to_length 1000 text) as Hlen.
  destruct (Nat.ltb_spec 1000 (String.length text)) as [Hlong|Hshort].
  - rewrite append_length, Hlen. change (String.length "...") with 3%nat.
    split; [lia|]. split; [lia|]. intros _. split; [done|]. lia.
  - rewrite app_nil_r_str, slice_to_all by done.
    split; [lia|]. split; [done|]. lia.
Qed.

Section script_facts.

Variable write_audiofile : string -> write_outcome.
Variable asr_pipeline : string -> result string.
Variable summarizer : string -> Z -> Z -> result string.
Variable cuda_available : bool.
Variable load_asr : string -> result unit.
Variable load_summarizer : string -> result unit.
Variable input_line : result string.
Variable now : string.
Variable write_file : string -> string -> write_outcome.

Abbreviation main_block :=
  (main_block write_audiofile asr_pipeline summarizer cuda_available
     load_asr load_summarizer input_line now).
Abbreviation run_summarize_video :=
  (run_summarize_video write_audiofile asr_pipeline summarizer).
Abbreviation save_io := (save_io write_file).
Abbreviation main_block_io :=
  (main_block_io write_audiofile asr_pipeline summarizer cuda_available
     load_asr load_summarizer input_line now write_file).
Abbreviation summarize_video :=
  (summarize_video write_audiofile asr_pipeline summarizer).

Lemma run_summarize_video_result (video_path : string) (m : Machine) :
  fst (run_summarize_video video_path m) =
  fst (summarize_video video_path {| files := disk m; trace := [] |}).
Proof.
  unfold Script.run_summarize_video.
  by destruct (summarize_video video_path _).
Qed.

(** The block after a successful start: the models are loaded and a line
    is read. *)
Lemma main_block_started (m : Machine) (line : string) (u1 u2 : unit) :
  load_asr (if cuda_available then "cuda" else "cpu") = Ok u1 ->
  load_summarizer (if cuda_available then "cuda" else "cpu") = Ok u2 ->
  input_line = Ok line ->
  let device := if cuda_available then "cuda" else "cpu" in
  let m0 := {| disk := disk m;
               log := log m ++ [Run (EvPrint ("Using device: " +:+ device));
                                Prompt "Enter path to local video file: "] |} in
  main_block m =
  if decide (PyStr.strip line ∈ disk m) then
    match run_summarize_video (PyStr.strip line) m0 with
    | (Raise e, m1) => (Crashed e, m1)
    | (Ok None, m1) => (Finished, say "Processing failed" m1)
    | (Ok (Some result), m1) =>
        let m2 :=
          save ("transcription_" +:+ now +:+ ".txt") (transcription result)
            (say (shown (summary result))
               (say "
=== Final Summary ==="
                  (say (preview (transcription result))
                     (say "
=== Cleaned Transcription ===" m1)))) in
        match summary result with
        | Some text =>
            (Finished, save ("summary_" +:+ now +:+ ".txt") text m2)
        | None =>
            (Crashed (ExternalError "write() argument must be str, not None"),
             save ("summary_" +:+ now +:+ ".txt") "" m2)
        end
    end
  else (Exited, say "Error: File not found!" m0).
Proof.
  intros Hasr Hsum Hin. cbv zeta.
  set (device := if cuda_available then "cuda" else "cpu") in *.
  set (m0 := {| disk := disk m; log := log m ++ [_; _] |}).
  assert (Hm0 :
    {| disk := disk (say ("Using device: " +:+ device) m);
       log := log (say ("Using device: " +:+ device) m) ++
              [Prompt "Enter path to local video file: "] |} = m0).
  { unfold m0, say. cbn [disk log]. by rewrite <- app_assoc. }
  unfold Script.main_block. cbv zeta. fold device.
  rewrite Hasr, Hsum, Hin, Hm0. reflexivity.
Qed.

(** The block on a file system that may refuse, after a successful
    start. *)
Lemma main_block_io_started (m : Machine) (line : string) (u1 u2 : unit) :
  load_asr (if cuda_available then "cuda" else "cpu") = Ok u1 ->
  load_summarizer (if cuda_available then "cuda" else "cpu") = Ok u2 ->
  input_line = Ok line ->
  let device := if cuda_available then "cuda" else "cpu" in
  let m0 := {| disk := disk m;
               log := log m ++ [Run (EvPrint ("Using device: " +:+ device));
                                Prompt "Enter path to local video file: "] |} in
  main_block_io m =
  if decide (PyStr.strip line ∈ disk m) then
    match run_summarize_video (PyStr.strip line) m0 with
    | (Raise e, m1) => (Crashed e, m1)
    | (Ok None, m1) => (Finished, say "Processing failed" m1)
    | (Ok (Some result), m1) =>
        let m2 :=
          say (shown (summary result))
            (say "
=== Final Summary ==="
               (say (preview (transcription result))
                  (say "
=== Cleaned Transcription ===" m1))) in
        match
          save_io ("transcription_" +:+ now +:+ ".txt")
            (transcription result) m2
        with
        | (Raise e, m3) => (Crashed e, m3)
        | (Ok _, m3) =>
            match summary result with
            | Some text =>
                match save_io ("summary_" +:+ now +:+ ".txt") text m3 with
                | (Raise e, m4) => (Crashed e, m4)
                | (Ok _, m4) => (Finished, m4)
                end
            | None =>
                match save_io ("summary_" +:+ now +:+ ".txt") "" m3 with
                | (Raise e, m4) => (Crashed e, m4)
                | (Ok _, m4) =>
                    (Crashed
                       (ExternalError "write() argument must be str, not None"),
                     m4)
                end
            end
        end
    end
  else (Exited, say "Error: File not found!" m0).
Proof.
  intros Hasr Hsum Hin. cbv zeta.
  set (device := if cuda_available then "cuda" else "cpu") in *.
  set (m0 := {| disk := disk m; log := log m ++ [_; _] |}).
  assert (Hm0 :
    {| disk := disk (say ("Using device: " +:+ device) m);
       log := log (say ("Using device: " +:+ device) m) ++
              [Prompt "Enter path to local video file: "] |} = m0).
  { unfold m0, say. cbn [disk log]. by rewrite <- app_assoc. }
  unfold Script.main_block_io. cbv zeta. fold device.
  rewrite Hasr, Hsum, Hin, Hm0. reflexivity.
Qed.

Lemma save_io_raises (name content : string) (m m' : Machine) (e : exc) :
  save_io name content m = (Raise e, m') ->
  exists file_left, write_file name content = WriteFailed e file_left.
Proof.
  unfold Script.save_io.
  destruct (write_file name content) as [|e' file_left]; [done|].
  intros [= <- _]. by exists file_left.
Qed.

Lemma save_io_returns (name content : string) (m m' : Machine) (u : unit) :
  save_io name content m = (Ok u, m') -> write_file name content = Written.
Proof.
  unfold Script.save_io. by destruct (write_file name content).
Qed.

(** X28. Once the models are loaded and a line is read, the only
    exceptions that can end the script block are those of the file system
    when one of the two result files is written.  When the stripped line
    names no existing file the block prints the error, calls [exit()] and
    has touched nothing.  Otherwise [summarize_video] lets no exception
    out and the summary it returns is never None, so [f.write] is never
    given None: the block runs to its last line, having printed
    "Processing failed" or written both files, unless the writing of the
    transcription file or, after it, of the summary file raises, and then
    it ends with that exception.  ([print] is taken to succeed.) *)
Theorem main_block_crashes_only_on_write (m : Machine) (line : string)
    (u1 u2 : unit) :
  load_asr (if cuda_available then "cuda" else "cpu") = Ok u1 ->
  load_summarizer (if cuda_available then "cuda" else "cpu") = Ok u2 ->
  input_line = Ok line ->
  match fst (main_block_io m) with
  | Exited =>
      (PyStr.strip line ∉ disk m) /\
      snd (main_block_io m) =
      {| disk := disk m;
         log := log m ++
           [Run (EvPrint ("Using device: " +:+
                          (if cuda_available then "cuda" else "cpu")));
            Prompt "Enter path to local video file: ";
            Run (EvPrint "Error: File not found!")] |}
  | Finished =>
      PyStr.strip line ∈ disk m /\
      (fst (summarize_video (PyStr.strip line)
              {| files := disk m; trace := [] |}) = Ok None \/
       exists result text,
         fst (summarize_video (PyStr.strip line)
                {| files := disk m; trace := [] |}) = Ok (Some result) /\
         summary result = Some text /\
         write_file ("transcription_" +:+ now +:+ ".txt")
           (transcription result) = Written /\
         write_file ("summary_" +:+ now +:+ ".txt") text = Written)
  | Crashed e =>
      PyStr.strip line ∈ disk m /\
      exists result text,
        fst (summarize_video (PyStr.strip line)
               {| files := disk m; trace := [] |}) = Ok (Some result) /\
        summary result = Some text /\
        ((exists file_left,
            write_file ("transcription_" +:+ now +:+ ".txt")
              (transcription result) = WriteFailed e file_left) \/
         (write_file ("transcription_" +:+ now +:+ ".txt")
            (transcription result) = Written /\
          exists file_left,
            write_file ("summary_" +:+ now +:+ ".txt") text =
            WriteFailed e file_left))
  end.
Proof.
  intros Hasr Hsum Hin.
  rewrite (main_block_io_started m line u1 u2 Hasr Hsum Hin). cbv zeta.
  destruct (decide (PyStr.strip line ∈ disk m)) as [Hexists|Hmissing].
  2: { cbn [fst snd]. split; [done|]. unfold say. cbn [disk log].
       by rewrite <- app_assoc. }
  set (m0 := {| disk := disk m; log := _ |}).
  pose proof (run_summarize_video_result (PyStr.strip line) m0) as Hfst.
  pose proof (CorrectFacts.summarize_video_result_complete_or_none
                write_audiofile asr_pipeline summarizer (PyStr.strip line)
                {| files := disk m0; trace := [] |}) as Hres.
  change (disk m0) with (disk m) in Hfst, Hres.
  destruct (summarize_video (PyStr.strip line)
              {| files := disk m; trace := [] |}) as [r w1] eqn:Hrun.
  destruct (run_summarize_video (PyStr.strip line) m0) as [r' m1].
  cbn [fst] in Hfst, Hres. subst r'.
  destruct r as [[result|]|e]; [|by split; [|left]|done].
  destruct Hres as [text Htext]. rewrite Htext.
  set (m2 := say _ _).
  destruct (save_io ("transcription_" +:+ now +:+ ".txt")
              (transcription result) m2) as [[[]|e] m3] eqn:Hsave1.
  - apply save_io_returns in Hsave1.
    destruct (save_io ("summary_" +:+ now +:+ ".txt") text m3)
      as [[[]|e] m4] eqn:Hsave2; cbn [fst].
    + apply save_io_returns in Hsave2.
      split; [done|]. right. by exists result, text.
    + apply save_io_raises in Hsave2.
      split; [done|]. exists result, text. split; [done|]. split; [done|].
      by right.
  - apply save_io_raises in Hsave1.
    cbn [fst]. split; [done|]. exists result, text.
    split; [done|]. split; [done|]. by left.
Qed.

(** On a file system that accepts the two files, the block is that of the
    first model. *)
Lemma main_block_io_accepted (m : Machine) :
  (forall name content, write_file name content = Written) ->
  main_block_io m = main_block m.
Proof.
  intros Haccepted. unfold Script.main_block_io, Script.main_block.
  cbv zeta. unfold Script.save_io. rewrite !Haccepted.
  destruct (load_asr _) as [?|?]; [|done].
  destruct (load_summarizer _) as [?|?]; [|done].
  destruct input_line as [line|?]; [|done]. destruct (decide _); [|done].
  destruct (run_summarize_video _ _) as [[[result|]|?] m1]; [|done|done].
  cbn beta iota. destruct (summary result); by rewrite ?Haccepted.
Qed.


End script_facts.

(** ** Concrete runs *)

Lemma main_block_crashes_only_on_write_witness :
  fst (main_block_io writes_audio hears_example summarizer_fails false
         (fun _ => Ok tt) (fun _ => Ok tt) (Ok " video.mp4 ")
         "20240101_120000"
         (fun _ _ =>
            WriteFailed (ExternalError "[Errno 28] No space left on device")
              true)
         {| disk := {["video.mp4"]}; log := [] |}) =
  Crashed (ExternalError "[Errno 28] No space left on device").
Proof.
  pose proof (main_block_crashes_only_on_write writes_audio hears_example
                summarizer_fails false (fun _ => Ok tt) (fun _ => Ok tt)
                (Ok " video.mp4 ") "20240101_120000"
                (fun _ _ =>
                   WriteFailed
                     (ExternalError "[Errno 28] No space left on device") true)
                {| disk := {["video.mp4"]}; log := [] |} " video.mp4 " tt tt
                eq_refl eq_refl eq_refl) as H.
  assert (Hrun :
    fst (summarize_video writes_audio hears_example summarizer_fails
           (PyStr.strip " video.mp4 ")
           {| files := disk {| disk := {["video.mp4"]}; log := [] |};
              trace := [] |}) =
    Ok (Some
          {| transcription := _correct_transcript example_raw_text;
             summary :=
               Some (_fallback_summary
                       (_correct_transcript example_raw_text)) |})).
  { rewrite (MainFacts.summarize_video_summarization_failed writes_audio
               hears_example summarizer_fails (PyStr.strip " video.mp4 ")
               example_raw_text _ (ExternalError "CUDA out of memory")
               eq_refl eq_refl MainFacts.example_text_long eq_refl).
    cbn [fst]. reflexivity. }
  destruct (fst (Script.main_block_io _ _ _ _ _ _ _ _ _ _)) as [| |e].
  - destruct H as [_ [Hnone|(result & text & _ & _ & Hw & _)]];
      [|discriminate Hw].
    rewrite Hrun in Hnone. discriminate Hnone.
  - destruct H as [Hmissing _]. exfalso. apply Hmissing.
    assert (Hs : PyStr.strip " video.mp4 " = "video.mp4")
      by (vm_compute; reflexivity).
    rewrite Hs. cbn [disk]. by apply elem_of_singleton.
  - destruct H as (_ & result & text & _ & _ & [[fl Hw]|[Hw _]]);
      [|discriminate Hw]. by injection Hw as <-.
Defined.


End ScriptFacts.

(** * Properties of the summarizer script *)

Module SummarizeFacts.

Import Summarize PyFacts.

(** The two functions, read as a header and the layout. *)
Lemma display_as_layout (results : gmap string string) :
  display_results results = (print display_header;; show results spec_layout).
Proof. reflexivity. Qed.

Lemma save_as_layout (results : gmap string string) (filename : string) :
  save_to_file results filename =
  (open_w filename;;
   write filename save_header;;
   store results filename spec_layout
     (print (nl +:+ "📂 All summaries saved to '" +:+ filename +:+ "'"))).
Proof. reflexivity. Qed.

Lemma header_shift : display_header +:+ nl = nl +:+ save_header.
Proof. reflexivity. Qed.

#[local] Arguments printed : simpl never.
#[local] Arguments written : simpl never.

Lemma printed_nil (w : World) : printed w "" = w.
Proof. destruct w. unfold printed. simpl. by rewrite app_nil_r_str. Qed.

Lemma printed_printed (w : World) (a b : string) :
  printed (printed w a) b = printed w (a +:+ b).
Proof. unfold printed. simpl. by rewrite app_assoc_str. Qed.

Lemma written_same (w : World) (filename content : string) :
  files w !! filename = Some content -> written w filename content = w.
Proof.
  intros H. destruct w. unfold written. simpl in *. by rewrite insert_id.
Qed.

Lemma written_written (w : World) (filename a b : string) :
  written (written w filename a) filename b = written w filename b.
Proof. unfold written. simpl. by rewrite insert_insert_eq. Qed.

Lemma print_printed (s : string) (w : World) :
  print s w = (Done tt, printed w (s +:+ nl)).
Proof. reflexivity. Qed.

Lemma write_written (filename s content : string) (w : World) :
  files w !! filename = Some content ->
  write filename s w = (Done tt, written w filename (content +:+ s)).
Proof. intros H. unfold write, written. by rewrite H. Qed.

(** What [show] does: it prints the rendering, and raises at the first
    missing key. *)
Lemma show_render (results : gmap string string) (items : list item)
    (w : World) :
  show results items w =
  (result_of (snd (render results items)),
   printed w (fst (render results items))).
Proof.
  revert w. induction items as [|it rest IH]; intros w.
  - simpl. by rewrite printed_nil.
  - assert (Hstep : show results (it :: rest) w =
                    ((let* v := item_text results it in print v);;
                     show results rest) w).
    { destruct rest as [|it' rest']; [|done].
      simpl. unfold bind.
      destruct (item_text results it w) as [[v|err] w1]; [|done].
      by destruct (print v w1) as [[[]|err] w2]. }
    rewrite Hstep. unfold bind at 1 2.
    destruct it as [line|key]; simpl.
    + rewrite IH. destruct (render results rest) as [body missing]. simpl.
      change {| files := files w; stdout := stdout w +:+ line +:+ nl;
                calls := calls w |} with (printed w (line +:+ nl)).
      by rewrite printed_printed, app_assoc_str.
    + unfold dict_get. destruct (results !! key) as [v|]; simpl.
      * rewrite IH. destruct (render results rest) as [body missing]. simpl.
        change {| files := files w; stdout := stdout w +:+ v +:+ nl;
                  calls := calls w |} with (printed w (v +:+ nl)).
        by rewrite printed_printed, app_assoc_str.
      * by rewrite printed_nil.
Qed.

(** What [store] does to an open file: it appends the rendering, and
    raises at the first missing key. *)
Lemma store_render (results : gmap string string) (filename : string)
    (items : list item) (k : M unit) (w : World) (content : string) :
  files w !! filename = Some content ->
  store results filename items k w =
  let '(body, missing) := render results items in
  match missing with
  | None => k (written w filename (content +:+ body))
  | Some key =>
      (Failed (KeyError key), written w filename (content +:+ body))
  end.
Proof.
  revert w content. induction items as [|it rest IH]; intros w content Hopen.
  - simpl. by rewrite app_nil_r_str, written_same.
  - cbn [store]. unfold bind at 1 2.
    destruct it as [line|key]; cbn [item_text render]; unfold ret, dict_get.
    + rewrite (write_written _ _ content) by done.
      rewrite (IH _ (content +:+ line +:+ nl))
        by (unfold written; simpl; apply lookup_insert_eq).
      destruct (render results rest) as [body [key|]];
        by rewrite written_written, !app_assoc_str.
    + destruct (results !! key) as [v|].
      * rewrite (write_written _ _ content) by done.
        rewrite (IH _ (content +:+ v +:+ nl))
          by (unfold written; simpl; apply lookup_insert_eq).
        destruct (render results rest) as [body [key'|]];
          by rewrite written_written, !app_assoc_str.
      * by rewrite app_nil_r_str, written_same.
Qed.

(** With every key of the layout present, nothing is missing. *)
Lemma render_complete (results : gmap string string) (items : list item) :
  Forall (fun key => is_Some (results !! key)) (keys_of items) ->
  snd (render results items) = None.
Proof.
  induction items as [|[line|key] rest IH]; simpl; intros Hall; [done|..].
  - specialize (IH Hall). by destruct (render results rest).
  - inversion Hall as [|? ? [v Hv] Hrest]; subst. rewrite Hv.
    specialize (IH Hrest). by destruct (render results rest).
Qed.

Lemma render_missing (results : gmap string string) (items : list item)
    (key : string) :
  snd (render results items) = Some key ->
  key ∈ keys_of items /\ results !! key = None.
Proof.
  induction items as [|[line|key'] rest IH]; simpl; [done|..].
  - destruct (render results rest) as [body missing]. simpl. apply IH.
  - destruct (results !! key') as [v|] eqn:Hv.
    + destruct (render results rest) as [body missing]. simpl in *.
      intros Hm. destruct (IH Hm) as [Hin Hnone]. split; [|done].
      by apply list_elem_of_further.
    + simpl. intros [= <-]. split; [|done]. by apply list_elem_of_here.
Qed.

Lemma render_incomplete (results : gmap string string) (items : list item)
    (key : string) :
  key ∈ keys_of items -> results !! key = None ->
  is_Some (snd (render results items)).
Proof.
  intros Hkey Hnone.
  induction items as [|[line|key'] rest IH]; simpl in *.
  - by apply elem_of_nil in Hkey.
  - destruct (IH Hkey) as [k Hk].
    destruct (render results rest). simpl in *. by eauto.
  - destruct (results !! key') as [v'|] eqn:Hv'; [|by eauto].
    apply elem_of_cons in Hkey as [->|Hkey]; [congruence|].
    destruct (IH Hkey) as [k Hk].
    destruct (render results rest). simpl in *. by eauto.
Qed.

Lemma display_render (results : gmap string string) (w : World) :
  display_results results w =
  (result_of (snd (render results spec_layout)),
   printed w (nl +:+ save_header +:+ fst (render results spec_layout))).
Proof.
  rewrite display_as_layout. unfold bind. rewrite print_printed, show_render.
  rewrite printed_printed, <- app_assoc_str, header_shift.
  by rewrite app_assoc_str.
Qed.

Lemma save_render (results : gmap string string) (filename : string)
    (w : World) :
  save_to_file results filename w =
  let '(body, missing) := render results spec_layout in
  match missing with
  | None =>
      (Done tt,
       printed (written w filename (save_header +:+ body))
         (nl +:+ "📂 All summaries saved to '" +:+ filename +:+ "'" +:+ nl))
  | Some key =>
      (Failed (KeyError key), written w filename (save_header +:+ body))
  end.
Proof.
  rewrite save_as_layout. unfold bind at 1 2.
  change (open_w filename w) with (Done tt, written w filename "").
  cbv iota beta.
  rewrite (write_written _ _ "")
    by (unfold written; simpl; apply lookup_insert_eq).
  rewrite written_written, app_empty. cbv iota beta.
  rewrite (store_render _ _ _ _ _ save_header)
    by (unfold written; simpl; apply lookup_insert_eq).
  destruct (render results spec_layout) as [body [key|]];
    rewrite written_written; [done|].
  rewrite print_printed. by rewrite !app_assoc_str.
Qed.



Section script_facts.

Variable cuda_available : bool.
Variable load_summarizer : string -> result unit.
Variable summarize : string -> string -> request -> result string.

Abbreviation generate_from := (generate_from summarize).
Abbreviation generate_summaries := (generate_summaries summarize).
Abbreviation main := (main cuda_available load_summarizer summarize).

Lemma generate_as_table (summarizer text : string) :
  generate_summaries summarizer text =
  generate_from summarizer text spec_requests ∅.
Proof. reflexivity. Qed.

(** What a table of requests does: a call for each entry up to the first
    one that raises; the dictionary has the results under their keys. *)
Lemma generate_from_spec (summarizer text : string)
    (table : list (string * request)) (results : gmap string string)
    (w : World) :
  NoDup table.*1 ->
  exists n,
    (n <= length table)%nat /\
    snd (generate_from summarizer text table results w) =
      {| files := files w; stdout := stdout w;
         calls := calls w ++
           ((fun entry => (summarizer, text, snd entry)) <$> take n table) |} /\
    match fst (generate_from summarizer text table results w) with
    | Done final =>
        n = length table /\
        (forall key r,
           (key, r) ∈ table ->
           exists v, summarize summarizer text r = Ok v /\
                     final !! key = Some v) /\
        (forall key, key ∉ table.*1 -> final !! key = results !! key)
    | Failed err =>
        exists key r e,
          (1 <= n)%nat /\ table !! (n - 1)%nat = Some (key, r) /\
          summarize summarizer text r = Raise e /\ err = Raised e
    end.
Proof.
  revert results w.
  induction table as [|[key r] table IH]; intros results w Hnodup.
  - exists 0%nat. simpl. rewrite app_nil_r. split; [done|].
    split; [by destruct w|]. split; [done|]. split; [|done].
    intros key r H. by apply elem_of_nil in H.
  - apply NoDup_cons in Hnodup as [Hkey Hnodup].
    cbn [Summarize.generate_from]. unfold bind, call_summarize.
    destruct (summarize summarizer text r) as [v|e] eqn:Hcall; simpl.
    + destruct (IH (<[key := v]> results)
                  {| files := files w; stdout := stdout w;
                     calls := calls w ++ [(summarizer, text, r)] |} Hnodup)
        as (n & Hn & Hworld & Hout).
      exists (S n). split; [simpl; lia|]. rewrite Hworld. simpl.
      split; [by rewrite <- app_assoc|].
      destruct (fst (generate_from summarizer text table _ _)) as [final|err].
      * destruct Hout as (-> & Hin & Hother). split; [done|]. split.
        -- intros key' r' [[= -> ->]|H]%elem_of_cons.
           ++ exists v. split; [done|].
              rewrite Hother by done. apply lookup_insert_eq.
           ++ by apply Hin.
        -- intros key' Hnotin. apply not_elem_of_cons in Hnotin as [Hne ?].
           rewrite Hother by done. by apply lookup_insert_ne.
      * destruct Hout as (key' & r' & e & Hge & Hlook & Hraise & ->).
        exists key', r', e. split; [lia|]. split; [|done].
        destruct n as [|n']; [lia|]. simpl in Hlook |- *.
        by rewrite Nat.sub_0_r in Hlook.
    + exists 1%nat. split; [simpl; lia|]. split; [done|].
      exists key, r, e. by repeat split.
Qed.

Lemma spec_requests_NoDup : NoDup spec_requests.*1.
Proof. apply (bool_decide_unpack _). vm_compute. exact I. Qed.

Lemma generate_summaries_keys (summarizer text : string)
    (results : gmap string string) (w w1 : World) :
  generate_summaries summarizer text w = (Done results, w1) ->
  Forall (fun key => is_Some (results !! key)) (keys_of spec_layout).
Proof.
  rewrite generate_as_table. intros Hgen.
  destruct (generate_from_spec summarizer text spec_requests ∅ w
              spec_requests_NoDup) as (n & _ & _ & Hout).
  rewrite Hgen in Hout. simpl in Hout. destruct Hout as (_ & Hin & _).
  change (keys_of spec_layout) with (spec_requests.*1).
  apply Forall_forall. intros key Hkey.
  apply list_elem_of_fmap in Hkey as ([key' r] & -> & Hentry).
  destruct (Hin key' r Hentry) as (v & _ & Hv). by eauto.
Qed.

(** X15. [generate_summaries] calls the summarizer on the same text with
    the eleven requests in their order and stops at the first call that
    raises: it then raises that exception and returns no dictionary.  When
    all eleven calls return, the dictionary holds each result under its
    key, and nothing else.  It prints nothing and touches no file. *)
Theorem generate_summaries_calls (summarizer text : string) (w : World) :
  exists n,
    (n <= 11)%nat /\
    snd (generate_summaries summarizer text w) =
      {| files := files w; stdout := stdout w;
         calls := calls w ++
           ((fun entry => (summarizer, text, snd entry)) <$>
              take n spec_requests) |} /\
    match fst (generate_summaries summarizer text w) with
    | Done results =>
        n = 11%nat /\
        (forall key r,
           (key, r) ∈ spec_requests ->
           exists v, summarize summarizer text r = Ok v /\
                     results !! key = Some v) /\
        (forall key, key ∉ spec_requests.*1 -> results !! key = None)
    | Failed err =>
        exists key r e,
          (1 <= n)%nat /\ spec_requests !! (n - 1)%nat = Some (key, r) /\
          summarize summarizer text r = Raise e /\ err = Raised e
    end.
Proof.
  rewrite generate_as_table.
  destruct (generate_from_spec summarizer text spec_requests ∅ w
              spec_requests_NoDup)
    as (n & Hn & Hworld & Hout).
  exists n. split; [done|]. split; [done|].
  destruct (fst (generate_from summarizer text spec_requests ∅ w)); [|done].
  destruct Hout as (-> & Hin & Hother). split; [done|]. split; [done|].
  intros key Hkey. by rewrite Hother.
Qed.

(** X16. What [generate_summaries] returns can be displayed and saved:
    neither [display_results] nor [save_to_file] raises on it. *)
Theorem generated_results_have_all_keys
    (summarizer text filename : string) (results : gmap string string)
    (w w1 w2 : World) :
  generate_summaries summarizer text w = (Done results, w1) ->
  fst (display_results results w2) = Done tt /\
  fst (save_to_file results filename w2) = Done tt.
Proof.
  intros Hgen.
  pose proof (generate_summaries_keys summarizer text results w w1 Hgen)
    as Hkeys.
  rewrite display_render, save_render.
  pose proof (render_complete results spec_layout Hkeys) as Hnone.
  destruct (render results spec_layout) as [body missing].
  simpl in *. by subst missing.
Qed.

Lemma generate_summaries_all_ok (summarizer text : string) (w : World) :
  (forall key r,
     (key, r) ∈ spec_requests ->
     exists v, summarize summarizer text r = Ok v) ->
  exists results,
    generate_summaries summarizer text w =
      (Done results,
       {| files := files w; stdout := stdout w;
          calls := calls w ++
            ((fun entry => (summarizer, text, snd entry)) <$>
               spec_requests) |}) /\
    (forall key r,
       (key, r) ∈ spec_requests ->
       exists v, summarize summarizer text r = Ok v /\
                 results !! key = Some v).
Proof.
  intros Hok. rewrite generate_as_table.
  destruct (generate_from_spec summarizer text spec_requests ∅ w
              spec_requests_NoDup) as (n & Hn & Hworld & Hout).
  destruct (generate_from summarizer text spec_requests ∅ w)
    as [[results|err] w'] eqn:Hgen; simpl in Hworld, Hout.
  - destruct Hout as (-> & Hin & _). exists results. split; [|done].
    by rewrite Hworld.
  - destruct Hout as (key & r & e & _ & Hlook & Hraise & _).
    apply list_elem_of_lookup_2 in Hlook.
    destruct (Hok key r Hlook) as [v Hv]. congruence.
Qed.

Lemma check_gpu_run (w : World) :
  exists line,
    check_gpu cuda_available w =
    (Done (if cuda_available then "cuda" else "cpu"),
     printed w (line +:+ nl)).
Proof.
  unfold check_gpu. destruct cuda_available; eexists; reflexivity.
Qed.

(** [main], step by step. *)
Lemma main_steps (w : World) :
  exists line,
    let device := if cuda_available then "cuda" else "cpu" in
    let w1 := printed w (line +:+ nl) in
    main w =
    match load_summarizer device with
    | Raise e => (Failed (Raised e), w1)
    | Ok _ =>
        match files w !! "transcript.txt" with
        | None => (Failed (Raised (FileNotFoundError "transcript.txt")), w1)
        | Some text =>
            match
              generate_summaries device text
                (printed w1 (nl +:+ "⏳ Generating summaries..." +:+ nl))
            with
            | (Failed err, w3) => (Failed err, w3)
            | (Done results, w3) =>
                (display_results results;;
                 save_to_file results "summary_results.txt") w3
            end
        end
    end.
Proof.
  destruct (check_gpu_run w) as [line Hgpu]. exists line. cbv zeta.
  unfold Summarize.main. unfold bind at 1. rewrite Hgpu.
  unfold bind at 1. unfold initialize_summarizer at 1.
  destruct (load_summarizer _) as [u|e]; [|done].
  unfold bind at 1. unfold sample_text, read_file, bind at 1.
  change (files (printed w (line +:+ nl))) with (files w).
  destruct (files w !! "transcript.txt") as [text|]; [|done].
  unfold ret. unfold bind at 1. rewrite print_printed.
  unfold bind at 1. reflexivity.
Qed.

Lemma output_of_generated (summarizer text : string)
    (results : gmap string string) (w w1 w2 : World) :
  generate_summaries summarizer text w = (Done results, w1) ->
  (display_results results;; save_to_file results "summary_results.txt") w2 =
  let body := save_header +:+ fst (render results spec_layout) in
  (Done tt,
   printed
     (written (printed w2 (nl +:+ body)) "summary_results.txt" body)
     (nl +:+ "📂 All summaries saved to 'summary_results.txt'" +:+ nl)).
Proof.
  intros Hgen.
  pose proof (generate_summaries_keys summarizer text results w w1 Hgen)
    as Hkeys.
  unfold bind. rewrite display_render.
  pose proof (render_complete results spec_layout Hkeys) as Hnone.
  destruct (render results spec_layout) as [body missing] eqn:Hrender.
  simpl in Hnone. subst missing. cbn [result_of fst snd].
  rewrite save_render, Hrender. reflexivity.
Qed.

(** X18. Without transcript.txt, [main] raises FileNotFoundError, but only
    after the summarizer has been loaded: the device line is all that is
    printed, and the summarizer is never called. *)
Theorem main_without_transcript (w : World) (u : unit) :
  files w !! "transcript.txt" = None ->
  load_summarizer (if cuda_available then "cuda" else "cpu") = Ok u ->
  exists line,
    main w =
    (Failed (Raised (FileNotFoundError "transcript.txt")),
     {| files := files w; stdout := stdout w +:+ line +:+ nl;
        calls := calls w |}).
Proof.
  intros Htext Hload.
  destruct (main_steps w) as [line Hmain]. cbv zeta in Hmain.
  exists line. by rewrite Hmain, Hload, Htext.
Qed.


(** *** On a file system that may refuse *)

Variable fs_open : string -> result unit.
Variable fs_write : string -> string -> string -> write_result.
Variable fs_close : string -> string -> result unit.

Abbreviation raised_by_disk := (raised_by_disk fs_open fs_write fs_close).
Abbreviation disk_step := (disk_step fs_open fs_write fs_close).
Abbreviation open_io := (open_io fs_open).
Abbreviation write_io := (write_io fs_write).
Abbreviation close_io := (close_io fs_close).
Abbreviation with_open := (with_open fs_open fs_close).
Abbreviation store_io := (store_io fs_write).
Abbreviation save_to_file_io :=
  (save_to_file_io fs_open fs_write fs_close).
Abbreviation main_io :=
  (main_io cuda_available load_summarizer summarize fs_open fs_write
     fs_close).

Lemma wrote_only_refl (filename : string) (w : World) :
  wrote_only filename w w.
Proof. by repeat split. Qed.

Lemma wrote_only_trans (filename : string) (w1 w2 w3 : World) :
  wrote_only filename w1 w2 -> wrote_only filename w2 w3 ->
  wrote_only filename w1 w3.
Proof.
  intros (Hs1 & Hc1 & Hf1) (Hs2 & Hc2 & Hf2).
  split; [congruence|]. split; [congruence|].
  intros name Hname. by rewrite Hf2, Hf1.
Qed.

Lemma wrote_only_insert (filename content : string) (w : World) :
  wrote_only filename w
    {| files := <[filename := content]> (files w); stdout := stdout w;
       calls := calls w |}.
Proof.
  split; [done|]. split; [done|]. intros name Hname. simpl.
  by apply lookup_insert_ne.
Qed.

Lemma open_io_step (filename : string) (w : World) :
  disk_step filename w (open_io filename w).
Proof.
  unfold Summarize.open_io, Summarize.disk_step.
  destruct (fs_open filename) as [u|e] eqn:Hopen; simpl.
  - split; [apply wrote_only_insert|done].
  - split; [apply wrote_only_refl|]. exists e. split; [done|]. by left.
Qed.

Lemma write_io_step (filename s : string) (w : World) :
  disk_step filename w (write_io filename s w).
Proof.
  unfold Summarize.write_io, Summarize.disk_step. cbv zeta.
  destruct (fs_write filename _ s) as [|e reached] eqn:Hwrite; simpl.
  - split; [apply wrote_only_insert|done].
  - split; [apply wrote_only_insert|]. exists e. split; [done|].
    right. left. by eauto.
Qed.

Lemma close_io_step (filename : string) (w : World) :
  disk_step filename w (close_io filename w).
Proof.
  unfold Summarize.close_io, Summarize.disk_step.
  destruct (fs_close filename _) as [u|e] eqn:Hclose; simpl.
  - split; [apply wrote_only_refl|done].
  - split; [apply wrote_only_refl|]. exists e. split; [done|].
    right. right. by eauto.
Qed.

Lemma bind_step (filename : string) (m k : M unit) (w : World) :
  disk_step filename w (m w) ->
  (forall w1, disk_step filename w1 (k w1)) ->
  disk_step filename w ((m;; k) w).
Proof.
  intros [Hw Hm] Hk. unfold bind.
  destruct (m w) as [[[]|err] w1]; simpl in *.
  - destruct (Hk w1) as [Hw1 Hout]. split; [|done].
    by apply (wrote_only_trans _ _ w1).
  - by split.
Qed.

Lemma item_step (results : gmap string string) (filename : string)
    (it : item) (w : World) :
  match it with
  | Entry key => is_Some (results !! key)
  | Line _ => True
  end ->
  disk_step filename w
    ((let* v := item_text results it in write_io filename (v +:+ nl)) w).
Proof.
  intros Hit. unfold bind. destruct it as [line|key]; simpl.
  - apply write_io_step.
  - unfold dict_get. destruct Hit as [v ->]. apply write_io_step.
Qed.

Lemma store_io_step (results : gmap string string) (filename : string)
    (items : list item) (w : World) :
  Forall (fun key => is_Some (results !! key)) (keys_of items) ->
  disk_step filename w (store_io results filename items w).
Proof.
  revert w. induction items as [|it rest IH]; intros w Hkeys.
  - split; [apply wrote_only_refl|done].
  - assert (Hit : match it with
                  | Entry key => is_Some (results !! key)
                  | Line _ => True
                  end).
    { destruct it as [line|key]; [done|]. by inversion Hkeys. }
    assert (Hrest : Forall (fun key => is_Some (results !! key))
                      (keys_of rest)).
    { destruct it as [line|key]; [done|]. by inversion Hkeys. }
    destruct rest as [|it' rest'].
    + by apply item_step.
    + change (store_io results filename (it :: it' :: rest'))
        with ((let* v := item_text results it in
               write_io filename (v +:+ nl));;
              store_io results filename (it' :: rest')).
      apply bind_step; [by apply item_step|].
      intros w1. by apply IH.
Qed.

Lemma with_open_step (filename : string) (body : M unit) (w : World) :
  (forall w1, disk_step filename w1 (body w1)) ->
  disk_step filename w (with_open filename body w).
Proof.
  intros Hbody. unfold Summarize.with_open.
  apply bind_step; [apply open_io_step|]. intros w1.
  destruct (Hbody w1) as [Hw1 Hout].
  destruct (body w1) as [[[]|err] w2]; simpl in *.
  - destruct (close_io_step filename w2) as [Hw2 Hclose].
    split; [|done]. by apply (wrote_only_trans _ _ w2).
  - destruct (close_io_step filename w2) as [Hw2 Hclose].
    destruct (close_io filename w2) as [[[]|err'] w3]; simpl in *.
    + split; [|done]. by apply (wrote_only_trans _ _ w2).
    + split; [|done]. by apply (wrote_only_trans _ _ w2).
Qed.

Lemma save_io_as_layout (results : gmap string string) (filename : string) :
  save_to_file_io results filename =
  (with_open filename
     (write_io filename save_header;;
      store_io results filename spec_layout);;
   print (nl +:+ "📂 All summaries saved to '" +:+ filename +:+ "'")).
Proof. reflexivity. Qed.

(** With all its keys in the dictionary, [save_to_file] fails only for the
    file system, and changes that file only. *)
Lemma save_io_failure (results : gmap string string) (filename : string)
    (w w' : World) (err : error) :
  Forall (fun key => is_Some (results !! key)) (keys_of spec_layout) ->
  save_to_file_io results filename w = (Failed err, w') ->
  wrote_only filename w w' /\
  exists e, err = Raised e /\ raised_by_disk filename e.
Proof.
  intros Hkeys. rewrite save_io_as_layout. unfold bind at 1.
  pose proof (with_open_step filename
                (write_io filename save_header;;
                 store_io results filename spec_layout) w) as Hstep.
  destruct (with_open filename _ w) as [[[]|err1] w1].
  - by rewrite print_printed.
  - intros [= <- <-]. apply Hstep. intros w2.
    apply bind_step; [apply write_io_step|].
    intros w3. by apply store_io_step.
Qed.

(** [main], step by step. *)
Lemma main_io_steps (w : World) :
  exists line,
    let device := if cuda_available then "cuda" else "cpu" in
    let w1 := printed w (line +:+ nl) in
    main_io w =
    match load_summarizer device with
    | Raise e => (Failed (Raised e), w1)
    | Ok _ =>
        match files w !! "transcript.txt" with
        | None => (Failed (Raised (FileNotFoundError "transcript.txt")), w1)
        | Some text =>
            match
              generate_summaries device text
                (printed w1 (nl +:+ "⏳ Generating summaries..." +:+ nl))
            with
            | (Failed err, w3) => (Failed err, w3)
            | (Done results, w3) =>
                (display_results results;;
                 save_to_file_io results "summary_results.txt") w3
            end
        end
    end.
Proof.
  destruct (check_gpu_run w) as [line Hgpu]. exists line. cbv zeta.
  unfold Summarize.main_io. unfold bind at 1. rewrite Hgpu.
  unfold bind at 1. unfold initialize_summarizer at 1.
  destruct (load_summarizer _) as [u|e]; [|done].
  unfold bind at 1. unfold sample_text, read_file, bind at 1.
  change (files (printed w (line +:+ nl))) with (files w).
  destruct (files w !! "transcript.txt") as [text|]; [|done].
  unfold ret. unfold bind at 1. rewrite print_printed.
  unfold bind at 1. reflexivity.
Qed.

(** *** A file system that accepts everything

    On such a file system the functions are those of the first model. *)

Lemma bind_ext {A B : Type} (m : M A) (f g : A -> M B) (w : World) :
  (forall a w', f a w' = g a w') -> bind m f w = bind m g w.
Proof. intros Hfg. unfold bind. destruct (m w) as [[a|err] w']; [apply Hfg|done]. Qed.

Section good_disk.

Hypothesis open_accepted : forall filename, exists u, fs_open filename = Ok u.
Hypothesis write_accepted :
  forall filename so_far data, fs_write filename so_far data = WriteDone.
Hypothesis close_accepted :
  forall filename content, exists u, fs_close filename content = Ok u.

Lemma write_io_accepted (filename s : string) (w : World) :
  write_io filename s w = write filename s w.
Proof using write_accepted.
  unfold Summarize.write_io. cbv zeta. by rewrite write_accepted.
Qed.

Lemma store_io_accepted (results : gmap string string) (filename : string)
    (items : list item) (k : M unit) (w : World) :
  (store_io results filename items;; k) w =
  store results filename items k w.
Proof using write_accepted.
  revert w. induction items as [|it rest IH]; intros w; [done|].
  destruct rest as [|it' rest'].
  - cbn [Summarize.store_io store]. unfold bind.
    destruct (item_text results it w) as [[v|err] w1]; [|done].
    rewrite write_io_accepted. by destruct (write filename _ w1) as [[[]|] ?].
  - change (store_io results filename (it :: it' :: rest'))
      with ((let* v := item_text results it in
             write_io filename (v +:+ nl));;
            store_io results filename (it' :: rest')).
    cbn [store]. unfold bind.
    destruct (item_text results it w) as [[v|err] w1]; [|done].
    rewrite write_io_accepted.
    destruct (write filename _ w1) as [[[]|err] w2]; [|done].
    exact (IH w2).
Qed.

Lemma with_open_accepted (filename : string) (body : M unit) (w : World) :
  with_open filename body w = (open_w filename;; body) w.
Proof using open_accepted close_accepted.
  unfold Summarize.with_open, bind, Summarize.open_io.
  destruct (open_accepted filename) as [u ->]. unfold open_w.
  destruct (body _) as [[[]|err] w2]; unfold Summarize.close_io;
    by destruct (close_accepted filename
                   (default "" (files w2 !! filename))) as [u' ->].
Qed.

Lemma save_io_accepted (results : gmap string string) (filename : string)
    (w : World) :
  save_to_file_io results filename w = save_to_file results filename w.
Proof using open_accepted write_accepted close_accepted.
  rewrite save_io_as_layout, save_as_layout.
  unfold bind at 1. rewrite with_open_accepted.
  unfold bind, open_w. rewrite write_io_accepted.
  destruct (write filename save_header _) as [[[]|err] w2]; [|done].
  exact (store_io_accepted results filename spec_layout _ w2).
Qed.

(** [main] on a file system that accepts everything is the [main] of the
    first model. *)
Lemma main_io_accepted (w : World) : main_io w = main w.
Proof using open_accepted write_accepted close_accepted.
  unfold Summarize.main_io, Summarize.main.
  apply bind_ext. intros device w1.
  apply bind_ext. intros summarizer w2.
  apply bind_ext. intros text w3.
  apply bind_ext. intros [] w4.
  apply bind_ext. intros results w5.
  apply bind_ext. intros [] w6.
  apply save_io_accepted.
Qed.

End good_disk.

(** A run in which the output file cannot be opened. *)
Lemma main_io_open_refused (w : World) (text : string) (u : unit) (e : exc) :
  load_summarizer (if cuda_available then "cuda" else "cpu") = Ok u ->
  files w !! "transcript.txt" = Some text ->
  (forall key r,
     (key, r) ∈ spec_requests ->
     exists v,
       summarize (if cuda_available then "cuda" else "cpu") text r = Ok v) ->
  fs_open "summary_results.txt" = Raise e ->
  exists w', main_io w = (Failed (Raised e), w').
Proof.
  intros Hload Htext Hok Hopen.
  destruct (main_io_steps w) as [line Hmain]. cbv zeta in Hmain.
  rewrite Hload, Htext in Hmain.
  set (w2 := printed _ (nl +:+ _)) in Hmain.
  destruct (generate_summaries_all_ok _ text w2 Hok)
    as (results & Hgen & _).
  pose proof (generate_summaries_keys _ _ _ _ _ Hgen) as Hkeys.
  rewrite Hgen in Hmain. unfold bind at 1 in Hmain.
  rewrite display_render, (render_complete _ _ Hkeys) in Hmain.
  cbn [result_of] in Hmain. rewrite save_io_as_layout in Hmain.
  unfold bind at 1 in Hmain. unfold Summarize.with_open in Hmain.
  unfold bind at 1 in Hmain. unfold Summarize.open_io at 1 in Hmain.
  rewrite Hopen in Hmain. by eexists.
Qed.


End script_facts.


(** ** Concrete runs *)


Lemma generated_results_have_all_keys_witness :
  exists results,
    fst (display_results results
           {| files := ∅; stdout := ""; calls := [] |}) = Done tt /\
    fst (save_to_file results "out.txt"
           {| files := ∅; stdout := ""; calls := [] |}) = Done tt.
Proof.
  destruct (generate_summaries_all_ok (fun _ _ _ => Ok "a summary")
              "cpu" "the text" {| files := ∅; stdout := ""; calls := [] |})
    as (results & Hgen & _).
  { intros key r _. by exists "a summary". }
  exists results.
  exact (generated_results_have_all_keys (fun _ _ _ => Ok "a summary")
           "cpu" "the text" "out.txt" results _ _ _ Hgen).
Defined.


Lemma main_without_transcript_witness :
  exists line,
    main true (fun _ => Ok tt) (fun _ _ _ => Ok "a summary")
      {| files := ∅; stdout := ""; calls := [] |} =
    (Failed (Raised (FileNotFoundError "transcript.txt")),
     {| files := ∅; stdout := "" +:+ line +:+ nl; calls := [] |}).
Proof.
  apply (main_without_transcript true (fun _ => Ok tt)
           (fun _ _ _ => Ok "a summary")
           {| files := ∅; stdout := ""; calls := [] |} tt).
  - apply lookup_empty.
  - reflexivity.
Defined.


End SummarizeFacts.
